(** * CS2 assets tracker: the selective-extraction planner and its pipeline

    A shallow embedding of [src/streamingExtractor.js] (class
    [StreamingVPKProcessor]), [src/depotDownloader.js] (class
    [DepotDownloader]), [src/source2Viewer.js] (class [Source2Viewer]),
    [src/vpkExtractor.js] and the [main] of [src/index.js], with the
    properties of the specification, and further ones, stated over it. *)

From Stdlib Require Import Ascii String DecimalString DecimalFacts DecimalN.
From stdpp Require Import gmap list sorting.

Local Open Scope N_scope.

(** ** JavaScript strings

    A JavaScript string is a sequence of UTF-16 code units.  String
    literals of the source are written [str "..."]. *)

Abbreviation jsstring := (list N).

Definition str (s : string) : jsstring :=
  map N_of_ascii (list_ascii_of_string s).

(** [s.startsWith(searchString)] *)
Fixpoint startsWith (s searchString : jsstring) : bool :=
  match searchString, s with
  | [], _ => true
  | _ :: _, [] => false
  | c :: searchString', d :: s' => (c =? d) && startsWith s' searchString'
  end.

(** [s.includes(searchString)] *)
Fixpoint includes (s searchString : jsstring) : bool :=
  startsWith s searchString ||
  match s with
  | [] => false
  | _ :: s' => includes s' searchString
  end.

(** [parts.join(sep)] *)
Fixpoint join (sep : jsstring) (parts : list jsstring) : jsstring :=
  match parts with
  | [] => []
  | [p] => p
  | p :: rest => p ++ sep ++ join sep rest
  end.

(** ** The archive directory, as the [vpk] package exposes it

    [vpkDir.files] is a list of logical paths and [vpkDir.tree] an object
    from logical path to directory entry.  The planner reads one field of an
    entry, [archiveIndex]; [None] stands for [undefined]. *)

Record FileInfo := { archiveIndex : option N }.

Record VPK := {
  files : list jsstring;
  tree : gmap jsstring FileInfo
}.

(** ** A JavaScript [Set] of numbers

    Iteration order is insertion order.  [addCalls] counts the invocations of
    [add]; it is not visible to the program. *)

Record JSSet := { elems : list N; addCalls : nat }.

Definition Set_new : JSSet := {| elems := []; addCalls := 0 |}.

Definition Set_add (x : N) (s : JSSet) : JSSet :=
  {| elems := if bool_decide (x ∈ elems s) then elems s else elems s ++ [x];
     addCalls := S (addCalls s) |}.

Definition Array_from (s : JSSet) : list N := elems s.

(** [array.sort((a, b) => a - b)] *)
Definition sortAscending (l : list N) : list N := merge_sort N.le l.

(** ** The shard planner: [getRequiredVPKArchives] *)

(** The inner loop [for (const folder of this.vpkFolders)] for one
    [fileName], with its [break]. *)
Fixpoint scanFolders (vpkDir : VPK) (fileName : jsstring)
    (folders : list jsstring) (requiredIndices : JSSet) : JSSet :=
  match folders with
  | [] => requiredIndices
  | folder :: rest =>
      if startsWith fileName folder then
        match tree vpkDir !! fileName with
        | Some fileInfo =>
            match archiveIndex fileInfo with
            | Some i => Set_add i requiredIndices
            | None => requiredIndices
            end
        | None => requiredIndices
        end
      else scanFolders vpkDir fileName rest requiredIndices
  end.

(** The outer loop [for (const fileName of vpkDir.files)], over the
    [fileNames] still to visit. *)
Definition scanFrom (vpkFolders : list jsstring) (vpkDir : VPK)
    (fileNames : list jsstring) (requiredIndices : JSSet) : JSSet :=
  fold_left (λ requiredIndices fileName,
               scanFolders vpkDir fileName vpkFolders requiredIndices)
            fileNames requiredIndices.

Definition scanFiles (vpkFolders : list jsstring) (vpkDir : VPK) : JSSet :=
  scanFrom vpkFolders vpkDir (files vpkDir) Set_new.

Definition getRequiredVPKArchives (vpkFolders : list jsstring) (vpkDir : VPK)
    : list N :=
  sortAscending (Array_from (scanFiles vpkFolders vpkDir)).

(** What the entry [fileName] contributes: the index of its own directory
    record, when some selector is a prefix of its path. *)
Definition contributes (vpkDir : VPK) (folders : list jsstring)
    (fileName : jsstring) (i : N) : Prop :=
  ∃ folder fileInfo,
    folder ∈ folders ∧ startsWith fileName folder = true ∧
    tree vpkDir !! fileName = Some fileInfo ∧ archiveIndex fileInfo = Some i.

(** No selector is a prefix of the path of any entry; so it is, for one, when
    there is no selector. *)
Definition selectsNothing (vpkFolders : list jsstring) (vpkDir : VPK) : Prop :=
  Forall (λ fileName,
            Forall (λ folder, startsWith fileName folder = false) vpkFolders)
         (files vpkDir).

(** An entry of the directory that the selectors pick and that lives in
    shard [i]. *)
Definition requiredBy (vpkFolders : list jsstring) (vpkDir : VPK) (i : N)
    : Prop :=
  ∃ fileName folder fileInfo,
    fileName ∈ files vpkDir ∧ folder ∈ vpkFolders ∧
    startsWith fileName folder = true ∧
    tree vpkDir !! fileName = Some fileInfo ∧
    archiveIndex fileInfo = Some i.

(** ** Conversions used by template literals *)

(** [n.toString()] for a non-negative integer. *)
Definition Number_toString (n : N) : jsstring :=
  str (NilEmpty.string_of_uint (N.to_uint n)).

(** [s.padStart(targetLength, padString)] *)
Definition padStart (s : jsstring) (targetLength : nat) (padString : jsstring)
    : jsstring :=
  let fillLength := (targetLength - length s)%nat in
  take fillLength (mjoin (replicate fillLength padString)) ++ s.

(** Interpolation [${v}] of a value that is a string or [undefined] (or
    [null], for the results of [runCommand]); [None] is the absent value and
    [absent] its printed form. *)
Definition interpolate (absent : string) (v : option jsstring) : jsstring :=
  match v with
  | Some s => s
  | None => str absent
  end.

(** [v || fallback] on such a value: the empty string is falsy too. *)
Definition orElse (v : option jsstring) (fallback : jsstring) : jsstring :=
  match v with
  | Some (c :: s) => c :: s
  | _ => fallback
  end.

(** ** [path.join] (POSIX)

    The segments are joined with a slash and the result is normalised:
    empty and [.] segments disappear, [..] removes the segment before it. *)

Abbreviation Path := jsstring.

Definition slash : N := 47.

(** [s.split("/")] *)
Fixpoint splitSlash (s : jsstring) : list jsstring :=
  match s with
  | [] => [[]]
  | c :: s' =>
      match splitSlash s' with
      | seg :: segs =>
          if c =? slash then [] :: seg :: segs else (c :: seg) :: segs
      | [] => [[c]]
      end
  end.

(** One step of [normalizeString]: [res] holds the segments kept so far,
    last one first. *)
Definition normalizeStep (allowAboveRoot : bool) (res : list jsstring)
    (segment : jsstring) : list jsstring :=
  if bool_decide (segment = [] ∨ segment = str ".") then res
  else if bool_decide (segment = str "..") then
    match res with
    | last :: res' =>
        if bool_decide (last = str "..") then
          (if allowAboveRoot then segment :: res else res)
        else res'
    | [] => if allowAboveRoot then [segment] else []
    end
  else segment :: res.

Definition path_normalize (path : jsstring) : jsstring :=
  match path with
  | [] => str "."
  | first :: _ =>
      let isAbsolute := first =? slash in
      let trailingSeparator :=
        match last path with Some c => c =? slash | None => false end in
      let segments :=
        rev (fold_left (normalizeStep (negb isAbsolute)) (splitSlash path) []) in
      let normalized := join [slash] segments in
      match normalized with
      | [] =>
          if isAbsolute then [slash]
          else if trailingSeparator then str "./" else str "."
      | _ :: _ =>
          (if isAbsolute then [slash] else []) ++ normalized ++
          (if trailingSeparator then [slash] else [])
      end
  end.

Definition path_join (segments : list jsstring) : Path :=
  path_normalize
    (join [slash] (filter (λ segment : jsstring, segment ≠ []) segments)).

(** ** Programs with exceptions and calls to the outside

    [Error] is JavaScript's [Error] object, identified by its message.  A
    program either returns, throws, or issues a call of the signature [E] and
    continues with its answer.  [await] sequences; a call whose answer type is
    [Error + X] may itself throw (or, when asynchronous, reject). *)

Record Error := mkError { message : jsstring }.

Inductive Prog (E : Type → Type) (A : Type) : Type :=
| Ret (a : A)
| Throw (e : Error)
| Vis (X : Type) (c : E X) (k : X → Prog E A).

Arguments Ret {E A} a.
Arguments Throw {E A} e.
Arguments Vis {E A X} c k.

Fixpoint bind {E A B} (p : Prog E A) (f : A → Prog E B) : Prog E B :=
  match p with
  | Ret a => f a
  | Throw e => Throw e
  | Vis c k => Vis c (λ x, bind (k x) f)
  end.

#[export] Instance Prog_ret E : MRet (Prog E) := λ A a, Ret a.
#[export] Instance Prog_bind E : MBind (Prog E) := λ A B f p, bind p f.

(** [try { p } catch (error) { h error }] *)
Fixpoint tryCatch {E A} (p : Prog E A) (h : Error → Prog E A) : Prog E A :=
  match p with
  | Ret a => Ret a
  | Throw e => h e
  | Vis c k => Vis c (λ x, tryCatch (k x) h)
  end.

(** [try { p } finally { c }], for a [finally] block without [return]. *)
Fixpoint tryFinally {E A} (p : Prog E A) (c : Prog E unit) : Prog E A :=
  match p with
  | Ret a => bind c (λ _, Ret a)
  | Throw e => bind c (λ _, Throw e)
  | Vis ev k => Vis ev (λ x, tryFinally (k x) c)
  end.

(** A call that cannot fail, and one that may throw. *)
Definition perform {E X} (c : E X) : Prog E X := Vis c Ret.

Definition call {E X} (c : E (Error + X)%type) : Prog E X :=
  Vis c (λ r, match r with inl e => Throw e | inr x => Ret x end).

(** *** Running a program against an environment

    The environment has a state [W] and answers every call.  A run yields the
    outcome, the calls issued with their answers in order, and the final
    state of the environment. *)

Inductive Outcome (A : Type) : Type :=
| Returned (a : A)
| Threw (e : Error).

Arguments Returned {A} a.
Arguments Threw {A} e.

Inductive Event (E : Type → Type) : Type :=
| Ev (X : Type) (c : E X) (answer : X).

Arguments Ev {E X} c answer.

Fixpoint run {E : Type → Type} {W A : Type}
    (handle : ∀ X, E X → W → X * W) (p : Prog E A) (w : W)
    : Outcome A * list (Event E) * W :=
  match p with
  | Ret a => (Returned a, [], w)
  | Throw e => (Threw e, [], w)
  | Vis c k =>
      let '(x, w1) := handle _ c w in
      let '(o, tr, w2) := run handle (k x) w1 in
      (o, Ev c x :: tr, w2)
  end.

Definition outcome {A E W} (r : Outcome A * list (Event E) * W) : Outcome A :=
  r.1.1.

Definition trace {A E W} (r : Outcome A * list (Event E) * W)
    : list (Event E) :=
  r.1.2.

(** ** File-system calls of [fs] used by both classes *)

Inductive FsCall : Type → Type :=
| existsSync (path : Path) : FsCall bool
| mkdirSync (path : Path) (recursive : bool) : FsCall (Error + unit)
| rmSync (path : Path) (recursive force : bool) : FsCall (Error + unit)
| writeFileSync (path : Path) (data : jsstring) : FsCall (Error + unit)
| unlinkSync (path : Path) : FsCall (Error + unit).

(** ** [StreamingVPKProcessor] ([src/streamingExtractor.js]) *)

(** What [DepotDownloader]'s download methods resolve with; [error] and
    [downloadTime] are [undefined] ([None]) when the underlying result has no
    such field. *)
Module DownloadResult.
Record t := mk {
  success : bool;
  outputDir : Path;
  error : option jsstring;
  downloadTime : option Z
}.
End DownloadResult.

(** What [Source2Viewer.extractVPKFolder] resolves with; [error] is [null]
    ([None]) on success. *)
Module ExtractResult.
Record t := mk {
  success : bool;
  output : jsstring;
  error : option jsstring
}.
End ExtractResult.

(** What [extractWithSource2Viewer] returns. *)
Module ExtractSummary.
Record t := mk {
  success : bool;
  error : option jsstring;
  details : list ExtractResult.t
}.
End ExtractSummary.

(** The Run Result, [this.results]; an entry of [errors] has the fields
    [file] and [error]. *)
Module Results.
Record t := mk {
  downloaded : N;
  extracted : N;
  failed : N;
  errors : list (jsstring * jsstring)
}.
End Results.

Module StreamingVPKProcessor.
Record t := mk {
  outputDir : Path;
  vpkFolders : list jsstring;
  tempVpkDir : Path;
  results : Results.t
}.
End StreamingVPKProcessor.

(** The calls a processor issues: the file system, the injected
    [depotDownloader], the [vpk] package ([new vpk(path)] followed by
    [load()]), its own [source2Viewer], and two recursive directory walks
    ([listDirectory], a debug listing, and the [findImages] closure of
    [findExtractedImages]). *)
Inductive ProcessorCall : Type → Type :=
| fs {X} (c : FsCall X) : ProcessorCall X
| depotDownloader_downloadSpecificFiles (appId depotId : N)
    (manifestId filePattern : jsstring) (outputDir : Path)
    : ProcessorCall (Error + DownloadResult.t)
| depotDownloader_downloadMultipleFiles (appId depotId : N)
    (manifestId : jsstring) (filePatterns : list jsstring) (outputDir : Path)
    : ProcessorCall (Error + DownloadResult.t)
| vpk_load (path : Path) : ProcessorCall (Error + VPK)
| source2Viewer_extractVPKFolder (vpkDirPath outputDir : Path)
    (extension folder : jsstring) (decompile : bool)
    : ProcessorCall (Error + ExtractResult.t)
| listDirectory (dir : Path) (currentLevel maxLevel : N)
    : ProcessorCall (Error + unit)
| findImages (dir : Path) : ProcessorCall (Error + list Path).

Abbreviation Processor := (Prog ProcessorCall).

(** [new StreamingVPKProcessor(depotDownloader, outputDir, vpkFolders)] *)
Definition newStreamingVPKProcessor (outputDir : Path)
    (vpkFolders : list jsstring) : StreamingVPKProcessor.t :=
  {| StreamingVPKProcessor.outputDir := outputDir;
     StreamingVPKProcessor.vpkFolders := vpkFolders;
     StreamingVPKProcessor.tempVpkDir := str "./temp_vpk";
     StreamingVPKProcessor.results :=
       {| Results.downloaded := 0; Results.extracted := 0;
          Results.failed := 0; Results.errors := [] |} |}.

(** [if (!fs.existsSync(dir)) fs.mkdirSync(dir, { recursive: true })] *)
Definition ensureDirectory (dir : Path) : Processor unit :=
  present ← perform (fs (existsSync dir));
  if present : bool then Ret tt else call (fs (mkdirSync dir true)).

Fixpoint firstExisting (searchPaths : list Path) : Processor (option Path) :=
  match searchPaths with
  | [] => Ret None
  | searchPath :: rest =>
      present ← perform (fs (existsSync searchPath));
      if present : bool then Ret (Some searchPath) else firstExisting rest
  end.

Definition findVPKDirFile (this : StreamingVPKProcessor.t)
    : Processor (option Path) :=
  let tempVpkDir := StreamingVPKProcessor.tempVpkDir this in
  let searchPaths :=
    [ path_join [tempVpkDir; str "game"; str "csgo"; str "pak01_dir.vpk"];
      path_join [tempVpkDir; str "csgo"; str "pak01_dir.vpk"];
      path_join [tempVpkDir; str "pak01_dir.vpk"] ] in
  found ← firstExisting searchPaths;
  match found with
  | Some searchPath => Ret (Some searchPath)
  | None =>
      tryCatch (call (listDirectory tempVpkDir 0 3)) (λ _, Ret tt);;
      Ret None
  end.

(** The regex source handed to the downloader for shard [archiveIndex]. *)
Definition archivePattern (archiveIndex : N) : jsstring :=
  let paddedIndex := padStart (Number_toString archiveIndex) 3 (str "0") in
  str "csgo/pak01_" ++ paddedIndex ++ str "\.vpk".

Definition downloadRequiredArchives (this : StreamingVPKProcessor.t)
    (appId depotId : N) (manifestId : jsstring) (requiredArchives : list N)
    : Processor unit :=
  let filePatterns := map archivePattern requiredArchives in
  downloadResult ← call (depotDownloader_downloadMultipleFiles
                           appId depotId manifestId filePatterns
                           (StreamingVPKProcessor.tempVpkDir this));
  if DownloadResult.success downloadResult then Ret tt
  else Throw (mkError (str "Failed to batch download VPK archives: " ++
                       interpolate "undefined"
                         (DownloadResult.error downloadResult))).

(** The loop [for (const folder of this.vpkFolders)] of
    [extractWithSource2Viewer], pushing onto [results]. *)
Fixpoint extractFolders (this : StreamingVPKProcessor.t) (vpkDirPath : Path)
    (folders : list jsstring) (results : list ExtractResult.t)
    : Processor (list ExtractResult.t) :=
  match folders with
  | [] => Ret results
  | folder :: rest =>
      result ← call (source2Viewer_extractVPKFolder vpkDirPath
                       (StreamingVPKProcessor.outputDir this)
                       (str "vtex_c") folder true);
      extractFolders this vpkDirPath rest (results ++ [result])
  end.

Definition extractWithSource2Viewer (this : StreamingVPKProcessor.t)
    (vpkDirPath : Path) : Processor ExtractSummary.t :=
  results ← extractFolders this vpkDirPath
              (StreamingVPKProcessor.vpkFolders this) [];
  let successfulExtractions :=
    length (filter (λ r, ExtractResult.success r = true) results) in
  Ret {| ExtractSummary.success := (0 <? successfulExtractions)%nat;
         ExtractSummary.error :=
           if (successfulExtractions =? 0)%nat
           then Some (str "No folders could be extracted") else None;
         ExtractSummary.details := results |}.

Definition findExtractedImages (this : StreamingVPKProcessor.t)
    : Processor (list Path) :=
  let outputDir := StreamingVPKProcessor.outputDir this in
  present ← perform (fs (existsSync outputDir));
  if present : bool then call (findImages outputDir) else Ret [].

Definition cleanup (this : StreamingVPKProcessor.t) : Processor unit :=
  let tempVpkDir := StreamingVPKProcessor.tempVpkDir this in
  tryCatch
    (present ← perform (fs (existsSync tempVpkDir));
     if present : bool then call (fs (rmSync tempVpkDir true true))
     else Ret tt)
    (λ _, Ret tt).

(** [this.results.extracted = extractedImages.length;
     this.results.downloaded = requiredArchives.length] *)
Definition recordExtraction (results : Results.t) (requiredArchives : list N)
    (extractedImages : list Path) : Results.t :=
  {| Results.downloaded := N.of_nat (length requiredArchives);
     Results.extracted := N.of_nat (length extractedImages);
     Results.failed := Results.failed results;
     Results.errors := Results.errors results |}.

(** [this.results.failed++] *)
Definition recordFailure (results : Results.t) : Results.t :=
  {| Results.downloaded := Results.downloaded results;
     Results.extracted := Results.extracted results;
     Results.failed := Results.failed results + 1;
     Results.errors := Results.errors results |}.

(** The stages of [processVPKFiles] that follow a non-empty plan: the batched
    fetch, the extraction and the count of the extracted images.  The value
    returned is [this.results] as the method leaves it. *)
Definition fetchAndExtract (this : StreamingVPKProcessor.t)
    (appId depotId : N) (manifestId : jsstring) (vpkDirPath : Path)
    (requiredArchives : list N) : Processor Results.t :=
  let results := StreamingVPKProcessor.results this in
  downloadRequiredArchives this appId depotId manifestId requiredArchives;;
  extractResult ← extractWithSource2Viewer this vpkDirPath;
  if ExtractSummary.success extractResult then
    extractedImages ← findExtractedImages this;
    Ret (recordExtraction results requiredArchives extractedImages)
  else Ret (recordFailure results).

(** The body of the [try] block of [processVPKFiles].  No path that throws
    has assigned to [this.results]. *)
Definition pipeline (this : StreamingVPKProcessor.t) (appId depotId : N)
    (manifestId : jsstring) : Processor Results.t :=
  dirResult ← call (depotDownloader_downloadSpecificFiles
                      appId depotId manifestId (str "csgo/pak01_dir\.vpk")
                      (StreamingVPKProcessor.tempVpkDir this));
  if negb (DownloadResult.success dirResult) then
    Throw (mkError (str "Failed to download VPK directory: " ++
                    interpolate "undefined" (DownloadResult.error dirResult)))
  else
    found ← findVPKDirFile this;
    match found with
    | None => Throw (mkError (str "Could not find pak01_dir.vpk file"))
    | Some vpkDirPath =>
        vpkDir ← call (vpk_load vpkDirPath);
        let requiredArchives :=
          getRequiredVPKArchives (StreamingVPKProcessor.vpkFolders this)
                                 vpkDir in
        match requiredArchives with
        | [] => Ret (StreamingVPKProcessor.results this)
        | _ :: _ =>
            fetchAndExtract this appId depotId manifestId vpkDirPath
                            requiredArchives
        end
    end.

Definition processVPKFiles (this : StreamingVPKProcessor.t)
    (appId depotId : N) (manifestId : jsstring) : Processor Results.t :=
  ensureDirectory (StreamingVPKProcessor.tempVpkDir this);;
  ensureDirectory (StreamingVPKProcessor.outputDir this);;
  tryFinally (pipeline this appId depotId manifestId) (cleanup this).

(** ** The catch handler of [extractImagesFromVPK] ([src/vpkExtractor.js])

    The one place of the repository that inspects an error text for disk
    exhaustion: inside the per-file [catch], on the message of the error
    thrown while reading or writing [fileName]. *)

Definition isDiskSpaceError (errorMessage : jsstring) : bool :=
  includes errorMessage (str "ENOSPC") ||
  includes errorMessage (str "No space left").

Definition diskSpaceExhausted (fileName : jsstring) : Error :=
  mkError (str "Disk space exhausted while extracting " ++ fileName ++
           str ". Consider running locally or increasing runner disk space.").

(** [inl]: the handler rethrows; [inr]: it records the failure in the
    counters of [extractImagesFromVPK] and the loop goes on. *)
Definition onExtractError (fileName : jsstring) (error : Error)
    (results : Results.t) : Error + Results.t :=
  if isDiskSpaceError (message error) then inl (diskSpaceExhausted fileName)
  else inr {| Results.downloaded := Results.downloaded results;
              Results.extracted := Results.extracted results;
              Results.failed := Results.failed results + 1;
              Results.errors :=
                Results.errors results ++ [(fileName, message error)] |}.

(** ** Regular expressions of [getLatestManifestId]

    The five patterns use literal characters, [\s*] and one group [(\d+)],
    all under the flag [i].  Matching is the backtracking search of
    [RegExp.prototype.exec]: leftmost start, greedy quantifiers. *)

Inductive Atom :=
| Chr (c : N)
| WhiteSpaceStar
| DigitsGroup.

(** [Canonicalize] under [i] without [u]: upper case.  Only ASCII matters
    here, a code unit from 128 on never canonicalises to an ASCII one. *)
Definition canonicalize (ch : N) : N :=
  if (97 <=? ch) && (ch <=? 122) then ch - 32 else ch.

Definition isDigit (ch : N) : bool := (48 <=? ch) && (ch <=? 57).

(** The class [\s]: WhiteSpace and LineTerminator. *)
Definition isWhiteSpace (ch : N) : bool :=
  bool_decide (ch ∈ [9; 10; 11; 12; 13; 32; 160; 5760; 8232; 8233; 8239;
                     8287; 12288; 65279]) ||
  ((8192 <=? ch) && (ch <=? 8202)).

(** A greedy run of [cls] with backtracking: the longest run is tried first,
    then shorter ones; [k] receives what was taken and what is left. *)
Fixpoint greedy {R} (cls : N → bool) (k : jsstring → jsstring → option R)
    (taken s : jsstring) : option R :=
  match s with
  | ch :: s' =>
      if cls ch then
        match greedy cls k (taken ++ [ch]) s' with
        | Some r => Some r
        | None => k taken s
        end
      else k taken s
  | [] => k taken []
  end.

(** Match [re] at the start of [s]; the result is the text of group 1
    ([None] while the group has not taken part). *)
Fixpoint matchHere (re : list Atom) (s : jsstring) (group1 : option jsstring)
    : option (option jsstring) :=
  match re with
  | [] => Some group1
  | Chr c :: re' =>
      match s with
      | ch :: s' =>
          if canonicalize ch =? canonicalize c then matchHere re' s' group1
          else None
      | [] => None
      end
  | WhiteSpaceStar :: re' =>
      greedy isWhiteSpace (λ _ rest, matchHere re' rest group1) [] s
  | DigitsGroup :: re' =>
      greedy isDigit
             (λ taken rest,
                match taken with
                | [] => None
                | _ :: _ => matchHere re' rest (Some taken)
                end) [] s
  end.

(** [s.match(re)] for a regex without the flag [g]; the result is
    [manifestMatch[1]] when there is a match. *)
Fixpoint String_match (re : list Atom) (s : jsstring)
    : option (option jsstring) :=
  match matchHere re s None with
  | Some group1 => Some group1
  | None =>
      match s with
      | [] => None
      | _ :: s' => String_match re s'
      end
  end.

Definition lit (s : string) : list Atom := map Chr (str s).

(** A non-empty string of decimal digits. *)
Definition digits (s : jsstring) : Prop :=
  s ≠ [] ∧ Forall (λ ch, isDigit ch = true) s.

Definition manifestPatterns : list (list Atom) :=
  [ lit "Manifest " ++ [DigitsGroup] ++ lit " (";
    lit "manifest " ++ [DigitsGroup] ++ lit " (";
    lit "Manifest ID: " ++ [DigitsGroup];
    lit "manifest id: " ++ [DigitsGroup];
    lit "manifest:" ++ [WhiteSpaceStar; DigitsGroup] ].

(** ** [DepotDownloader] ([src/depotDownloader.js]) *)

(** What [runCommand] resolves with; it never rejects.  [error] is [null]
    ([None]) for exit code 0. *)
Module CommandResult.
Record t := mk {
  success : bool;
  error : option jsstring;
  output : jsstring
}.
End CommandResult.

(** What [runDepotDownloader] returns: [{ success: true, duration, output }]
    or [{ success: false, error }]. *)
Module RunResult.
Record t := mk {
  success : bool;
  duration : option Z;
  output : option jsstring;
  error : option jsstring
}.
End RunResult.

Module Options.
Record t := mk {
  username : jsstring;
  password : jsstring;
  tempDir : option jsstring;
  executablePath : option jsstring;
  downloadAttempts : option N
}.
End Options.

Module DepotDownloader.
Record t := mk {
  username : jsstring;
  password : jsstring;
  tempDir : Path;
  executablePath : jsstring;
  downloadAttempts : N
}.
End DepotDownloader.

(** The calls a downloader issues: the file system, the clock, the timer
    ([await new Promise((resolve) => setTimeout(resolve, ms))]) and
    [runCommand], which spawns a shell command (run in [process.cwd()]) and
    waits for it or for [timeout] milliseconds ([None]: the default of ten
    minutes). *)
Inductive NodeCall : Type → Type :=
| node_fs {X} (c : FsCall X) : NodeCall X
| Date_now : NodeCall Z
| setTimeout (ms : N) : NodeCall unit
| runCommand (command description : jsstring) (timeout : option N)
    : NodeCall CommandResult.t.

Abbreviation Downloader := (Prog NodeCall).

(** [os.platform()] is fixed for a process; the functions that read it take
    it as [platform]. *)
Definition getDefaultExecutablePath (platform : jsstring) : jsstring :=
  if bool_decide (platform = str "win32") then str "./DepotDownloader.exe"
  else str "./DepotDownloader".

(** [options.downloadAttempts || 3]: absent and 0 are falsy. *)
Definition attemptsOrDefault (downloadAttempts : option N) : N :=
  match downloadAttempts with
  | Some 0 | None => 3
  | Some n => n
  end.

(** [new DepotDownloader(options)] *)
Definition newDepotDownloader (platform : jsstring) (options : Options.t)
    : DepotDownloader.t :=
  {| DepotDownloader.username := Options.username options;
     DepotDownloader.password := Options.password options;
     DepotDownloader.tempDir :=
       orElse (Options.tempDir options) (str "./temp");
     DepotDownloader.executablePath :=
       orElse (Options.executablePath options)
              (getDefaultExecutablePath platform);
     DepotDownloader.downloadAttempts :=
       attemptsOrDefault (Options.downloadAttempts options) |}.

Definition quote : jsstring := [34].

Definition downloadDepotDownloader (platform : jsstring) : Downloader unit :=
  let base :=
    str "https://github.com/SteamRE/DepotDownloader/releases/latest/download/"
  in
  target ←
    (if bool_decide (platform = str "win32") then
       Ret (str "DepotDownloader-windows-x64.zip")
     else if bool_decide (platform = str "linux") then
       Ret (str "DepotDownloader-linux-x64.zip")
     else if bool_decide (platform = str "darwin") then
       Ret (str "DepotDownloader-macos-x64.zip")
     else Throw (mkError (str "Unsupported platform: " ++ platform)));
  let fileName : jsstring := target in
  let downloadUrl := base ++ fileName in
  let win32 := bool_decide (platform = str "win32") in
  let downloadCommand :=
    if win32 then
      str "powershell -Command " ++ quote ++
      str "Invoke-WebRequest -Uri '" ++ downloadUrl ++ str "' -OutFile '" ++
      fileName ++ str "'" ++ quote
    else
      str "curl -L -o " ++ quote ++ fileName ++ quote ++ str " " ++
      quote ++ downloadUrl ++ quote in
  perform (runCommand downloadCommand (str "Downloading DepotDownloader")
                      None);;
  let extractCommand :=
    if win32 then
      str "powershell -Command " ++ quote ++
      str "Expand-Archive -Path '" ++ fileName ++
      str "' -DestinationPath '.' -Force" ++ quote
    else str "unzip -o " ++ quote ++ fileName ++ quote in
  perform (runCommand extractCommand (str "Extracting DepotDownloader")
                      None);;
  (if win32 then Ret tt
   else
     perform (runCommand (str "chmod +x ./DepotDownloader")
                         (str "Making DepotDownloader executable") None);;
     Ret tt);;
  call (node_fs (unlinkSync fileName)).

Definition ensureDepotDownloaderExists (platform : jsstring)
    (this : DepotDownloader.t) : Downloader bool :=
  present ← perform (node_fs (existsSync
                               (DepotDownloader.executablePath this)));
  if present : bool then Ret true
  else downloadDepotDownloader platform;; Ret true.

(** [Math.min(30000 * Math.pow(2, attempt - 1), 120000)].  The product is an
    integer that a double holds exactly, or infinity; the minimum is the same
    over the integers. *)
Definition backoffTime (attempt : N) : N :=
  N.min (30000 * 2 ^ (attempt - 1)) 120000.

(** The command of an attempt: the quoted executable path, a space and
    [args.join(" ")]. *)
Definition commandLine (this : DepotDownloader.t) (args : list jsstring)
    : jsstring :=
  quote ++ DepotDownloader.executablePath this ++ quote ++ str " " ++
  join (str " ") args.

Arguments commandLine : simpl never.

(** The loop [for (let attempt = 1; attempt <= maxAttempts; attempt++)] of
    [runDepotDownloader], entered at [attempt] with [remaining] iterations to
    go; the statement after the loop is its base case. *)
Fixpoint attemptLoop (this : DepotDownloader.t) (args : list jsstring)
    (description : jsstring) (maxAttempts : N) (remaining : nat)
    (attempt : N) : Downloader RunResult.t :=
  match remaining with
  | O =>
      Ret {| RunResult.success := false; RunResult.duration := None;
             RunResult.output := None;
             RunResult.error := Some (str "Max attempts exceeded") |}
  | S remaining' =>
      startTime ← perform Date_now;
      result ← perform (runCommand (commandLine this args) description
                                   (Some (30 * 60 * 1000)));
      endTime ← perform Date_now;
      let duration := (endTime - startTime)%Z in
      if CommandResult.success result then
        Ret {| RunResult.success := true;
               RunResult.duration := Some duration;
               RunResult.output := Some (CommandResult.output result);
               RunResult.error := None |}
      else
        (if attempt <? maxAttempts
         then perform (setTimeout (backoffTime attempt))
         else Ret tt);;
        attemptLoop this args description maxAttempts remaining'
                    (attempt + 1)
  end.

Definition runDepotDownloader (this : DepotDownloader.t)
    (args : list jsstring) (description : jsstring) (maxAttempts : N)
    : Downloader RunResult.t :=
  attemptLoop this args description maxAttempts (N.to_nat maxAttempts) 1.

(** [const output = outputDir || this.tempDir] and the [mkdirSync] after
    it. *)
Definition prepareOutput (this : DepotDownloader.t)
    (outputDir : option jsstring) : Downloader Path :=
  let output := orElse outputDir (DepotDownloader.tempDir this) in
  present ← perform (node_fs (existsSync output));
  (if present : bool then Ret tt else call (node_fs (mkdirSync output true)));;
  Ret output.

Definition baseArgs (this : DepotDownloader.t) (appId depotId : N)
    (manifestId : jsstring) (output : Path) : list jsstring :=
  [ str "-app"; Number_toString appId; str "-depot"; Number_toString depotId;
    str "-manifest"; manifestId;
    str "-username"; DepotDownloader.username this;
    str "-password"; DepotDownloader.password this;
    str "-dir"; output ].

Definition toDownloadResult (output : Path) (result : RunResult.t)
    : DownloadResult.t :=
  {| DownloadResult.success := RunResult.success result;
     DownloadResult.outputDir := output;
     DownloadResult.error := RunResult.error result;
     DownloadResult.downloadTime := RunResult.duration result |}.

Definition downloadManifest (platform : jsstring) (this : DepotDownloader.t)
    (appId depotId : N) (manifestId : jsstring) (outputDir : option jsstring)
    : Downloader DownloadResult.t :=
  ensureDepotDownloaderExists platform this;;
  output ← prepareOutput this outputDir;
  result ← runDepotDownloader this
             (baseArgs this appId depotId manifestId output)
             (str "Downloading depot " ++ Number_toString depotId)
             (DepotDownloader.downloadAttempts this);
  Ret (toDownloadResult output result).

(** The part shared by [downloadSpecificFiles] and [downloadMultipleFiles]:
    write the file list, run the tool, remove the file list. *)
Definition downloadWithFileList (this : DepotDownloader.t)
    (appId depotId : N) (manifestId : jsstring) (output : Path)
    (fileListPath : Path) (patterns description : jsstring)
    : Downloader DownloadResult.t :=
  call (node_fs (writeFileSync fileListPath patterns));;
  result ← runDepotDownloader this
             (baseArgs this appId depotId manifestId output ++
              [str "-filelist"; fileListPath])
             description (DepotDownloader.downloadAttempts this);
  tryCatch (call (node_fs (unlinkSync fileListPath))) (λ _, Ret tt);;
  Ret (toDownloadResult output result).

Definition downloadSpecificFiles (platform : jsstring)
    (this : DepotDownloader.t) (appId depotId : N)
    (manifestId filePattern : jsstring) (outputDir : option jsstring)
    : Downloader DownloadResult.t :=
  ensureDepotDownloaderExists platform this;;
  output ← prepareOutput this outputDir;
  let fileListPath :=
    path_join [DepotDownloader.tempDir this;
               str "filelist_" ++ Number_toString depotId ++ str ".txt"] in
  let regexPattern := str "regex:" ++ filePattern in
  downloadWithFileList this appId depotId manifestId output fileListPath
    regexPattern
    (str "Downloading specific files from depot " ++ Number_toString depotId).

Definition downloadMultipleFiles (platform : jsstring)
    (this : DepotDownloader.t) (appId depotId : N) (manifestId : jsstring)
    (filePatterns : list jsstring) (outputDir : option jsstring)
    : Downloader DownloadResult.t :=
  ensureDepotDownloaderExists platform this;;
  output ← prepareOutput this outputDir;
  let fileListPath :=
    path_join [DepotDownloader.tempDir this;
               str "batch_filelist_" ++ Number_toString depotId ++
               str ".txt"] in
  let patterns :=
    join [10] (map (λ pattern, str "regex:" ++ pattern) filePatterns) in
  downloadWithFileList this appId depotId manifestId output fileListPath
    patterns
    (str "Batch downloading files from depot " ++ Number_toString depotId).

(** The error that [getLatestManifestId] throws for [reason]. *)
Definition manifestFailure (reason : string) : Error :=
  mkError (str "Failed to get manifest ID: " ++ str reason).

(** The loop [for (const pattern of patterns)] of [getLatestManifestId]. *)
Fixpoint firstManifestMatch (patterns : list (list Atom)) (output : jsstring)
    : option (option jsstring) :=
  match patterns with
  | [] => None
  | pattern :: rest =>
      match String_match pattern output with
      | Some manifestId => Some manifestId
      | None => firstManifestMatch rest output
      end
  end.

(** The value returned is [manifestMatch[1]]: a string, or [undefined]
    ([None]) were the group not to take part in the match. *)
Definition getLatestManifestId (platform : jsstring)
    (this : DepotDownloader.t) (appId depotId : N)
    : Downloader (option jsstring) :=
  ensureDepotDownloaderExists platform this;;
  let args :=
    [ str "-app"; Number_toString appId; str "-depot"; Number_toString depotId;
      str "-username"; DepotDownloader.username this;
      str "-password"; DepotDownloader.password this;
      str "-manifest-only" ] in
  result ← runDepotDownloader this args (str "Getting manifest information") 2;
  let failure :=
    Throw (mkError (str "Failed to get manifest ID: " ++
                    orElse (RunResult.error result)
                      (str "Could not parse manifest ID from output"))) in
  if RunResult.success result then
    match RunResult.output result with
    | Some output =>
        match firstManifestMatch manifestPatterns output with
        | Some manifestId => Ret manifestId
        | None => failure
        end
    | None =>
        Throw (mkError (str "Cannot read properties of undefined (reading 'match')"))
    end
  else failure.

(** ** The configuration of [src/index.js] *)

Module index.

Definition appId : N := 730.
Definition depotId : N := 2347770.
Definition dir : Path := str "./static".
Definition temp : Path := str "./temp".

Definition vpkFolders : list jsstring :=
  [ str "panorama/images/econ/characters";
    str "panorama/images/econ/default_generated";
    str "panorama/images/econ/music_kits";
    str "panorama/images/econ/patches";
    str "panorama/images/econ/season_icons";
    str "panorama/images/econ/set_icons";
    str "panorama/images/econ/status_icons";
    str "panorama/images/econ/stickers";
    str "panorama/images/econ/tools";
    str "panorama/images/econ/weapons";
    str "panorama/images/econ/weapon_cases";
    str "panorama/images/econ/tournaments";
    str "panorama/images/econ/premier_seasons" ].

Definition depotDownloader (platform steamUsername steamPassword : jsstring)
    : DepotDownloader.t :=
  newDepotDownloader platform
    {| Options.username := steamUsername;
       Options.password := steamPassword;
       Options.tempDir := Some temp;
       Options.executablePath := None;
       Options.downloadAttempts := Some 3 |}.

Definition processor : StreamingVPKProcessor.t :=
  newStreamingVPKProcessor dir vpkFolders.

End index.

(** ** What a trace shows

    The calls of a processor that matter to the outside, with their answers;
    existence tests and the debug listing are left out. *)

Inductive Observation :=
| Mkdir (path : Path) (answer : Error + unit)
| DirectoryFetch (filePattern : jsstring) (answer : Error + DownloadResult.t)
| Load (answer : Error + VPK)
| BatchFetch (filePatterns : list jsstring) (answer : Error + DownloadResult.t)
| Decompile (folder : jsstring) (answer : Error + ExtractResult.t)
| ImageScan (answer : Error + list Path)
| Remove (path : Path) (recursive force : bool).

Definition observeFs {X} (c : FsCall X) : X → option Observation :=
  match c in FsCall X return X → option Observation with
  | mkdirSync path _ => λ answer, Some (Mkdir path answer)
  | rmSync path recursive force => λ _, Some (Remove path recursive force)
  | _ => λ _, None
  end.

Definition observation (ev : Event ProcessorCall) : option Observation :=
  match ev with
  | Ev c answer =>
      match c in ProcessorCall X return X → option Observation with
      | fs c' => observeFs c'
      | depotDownloader_downloadSpecificFiles _ _ _ filePattern _ =>
          λ answer, Some (DirectoryFetch filePattern answer)
      | depotDownloader_downloadMultipleFiles _ _ _ filePatterns _ =>
          λ answer, Some (BatchFetch filePatterns answer)
      | vpk_load _ => λ answer, Some (Load answer)
      | source2Viewer_extractVPKFolder _ _ _ folder _ =>
          λ answer, Some (Decompile folder answer)
      | findImages _ => λ answer, Some (ImageScan answer)
      | listDirectory _ _ _ => λ _, None
      end answer
  end.

Definition observe (tr : list (Event ProcessorCall)) : list Observation :=
  omap observation tr.

(** The batched fetches among the observations. *)
Definition batchFetches (obs : list Observation)
    : list (list jsstring * (Error + DownloadResult.t)) :=
  omap (λ o, match o with
             | BatchFetch filePatterns answer => Some (filePatterns, answer)
             | _ => None
             end) obs.

(** The calls to the downloader, of either method. *)
Definition downloaderCalls (obs : list Observation) : list Observation :=
  omap (λ o, match o with
             | DirectoryFetch _ _ | BatchFetch _ _ => Some o
             | _ => None
             end) obs.

(** The answers of [load()]. *)
Definition loads (obs : list Observation) : list (Error + VPK) :=
  omap (λ o, match o with Load answer => Some answer | _ => None end) obs.

(** The decompiler invocations. *)
Definition decompilations (obs : list Observation)
    : list (jsstring * (Error + ExtractResult.t)) :=
  omap (λ o, match o with
             | Decompile folder answer => Some (folder, answer)
             | _ => None
             end) obs.

(** The removals. *)
Definition removals (obs : list Observation) : list (Path * bool * bool) :=
  omap (λ o, match o with
             | Remove path recursive force => Some (path, recursive, force)
             | _ => None
             end) obs.

(** The directory that a call scans for images, if it is such a scan. *)
Definition scanned {X} (c : ProcessorCall X) : option Path :=
  match c with
  | findImages dir => Some dir
  | _ => None
  end.

(** The scans for extracted images in a trace, each with the directory
    scanned and its answer. *)
Definition imageScan (ev : Event ProcessorCall)
    : option (Path * (Error + list Path)) :=
  match ev with
  | Ev c answer =>
      match c in ProcessorCall X
            return X → option (Path * (Error + list Path)) with
      | findImages dir => λ answer, Some (dir, answer)
      | _ => λ _, None
      end answer
  end.

Definition imageScans (tr : list (Event ProcessorCall))
    : list (Path * (Error + list Path)) :=
  omap imageScan tr.

(** The answers of the scans among the observations. *)
Definition scanAnswers (obs : list Observation) : list (Error + list Path) :=
  omap (λ o, match o with ImageScan answer => Some answer | _ => None end) obs.

(** Every scan for images that [p] can issue is a scan of [dir]. *)
Fixpoint scansOnly {A} (dir : Path) (p : Processor A) : Prop :=
  match p with
  | Ret _ | Throw _ => True
  | Vis c k => (∀ d, scanned c = Some d → d = dir) ∧ ∀ x, scansOnly dir (k x)
  end.

(** The trace that [cleanup] leaves: the existence test of the scratch
    directory and, when it exists, its recursive forced removal. *)
Definition cleanupTrace (this : StreamingVPKProcessor.t)
    (tr : list (Event ProcessorCall)) : Prop :=
  let tempVpkDir := StreamingVPKProcessor.tempVpkDir this in
  tr = [Ev (fs (existsSync tempVpkDir)) false] ∨
  ∃ answer, tr = [Ev (fs (existsSync tempVpkDir)) true;
                  Ev (fs (rmSync tempVpkDir true true)) answer].

(** What the two [mkdirSync] guards at the head of [processVPKFiles] show
    when neither throws, and when one does. *)
Definition setupDone (obs : list Observation) : Prop :=
  Forall (λ o, ∃ path, o = Mkdir path (inr tt)) obs.

Definition setupThrew (e : Error) (obs : list Observation) : Prop :=
  ∃ done path, obs = done ++ [Mkdir path (inl e)] ∧ setupDone done.

(** ** The ends of a run, stage by stage

    Every way the stages after planning can end for the plan
    [requiredArchives], and every way the pipeline can end, each with what
    the trace shows; [run_fetchAndExtract] and [run_pipeline] below prove that
    no run ends otherwise. *)

Definition batchFailure (downloadResult : DownloadResult.t) : Error :=
  mkError (str "Failed to batch download VPK archives: " ++
           interpolate "undefined" (DownloadResult.error downloadResult)).

Definition decompiled (folders : list jsstring)
    (details : list ExtractResult.t) : list Observation :=
  zip_with Decompile folders (inr <$> details).

Definition succeeded (details : list ExtractResult.t) : Prop :=
  Exists (λ r, ExtractResult.success r = true) details.

(** A decompiler invocation that reported, success or failure, rather than
    threw. *)
Definition reported (call : jsstring * (Error + ExtractResult.t)) : Prop :=
  ∃ result, call.2 = inr result.

(** Exactly one of the outcomes is a failure. *)
Definition exactlyOneFails (details : list ExtractResult.t) : Prop :=
  ∃ before failure after,
    details = before ++ failure :: after ∧
    ExtractResult.success failure = false ∧
    Forall (λ r, ExtractResult.success r = true) (before ++ after).

Inductive shardsEnd (this : StreamingVPKProcessor.t)
    (requiredArchives : list N) : Outcome Results.t → list Observation → Prop :=
| batchThrew e :
    shardsEnd this requiredArchives (Threw e)
      [BatchFetch (map archivePattern requiredArchives) (inl e)]
| batchFailed downloadResult :
    DownloadResult.success downloadResult = false →
    shardsEnd this requiredArchives (Threw (batchFailure downloadResult))
      [BatchFetch (map archivePattern requiredArchives) (inr downloadResult)]
| decompilerThrew downloadResult done folder rest details e :
    DownloadResult.success downloadResult = true →
    StreamingVPKProcessor.vpkFolders this = done ++ folder :: rest →
    length details = length done →
    shardsEnd this requiredArchives (Threw e)
      (BatchFetch (map archivePattern requiredArchives) (inr downloadResult)
       :: decompiled done details ++ [Decompile folder (inl e)])
| nothingExtracted downloadResult details :
    DownloadResult.success downloadResult = true →
    length details = length (StreamingVPKProcessor.vpkFolders this) →
    ¬ succeeded details →
    shardsEnd this requiredArchives
      (Returned (recordFailure (StreamingVPKProcessor.results this)))
      (BatchFetch (map archivePattern requiredArchives) (inr downloadResult)
       :: decompiled (StreamingVPKProcessor.vpkFolders this) details)
| imageScanThrew downloadResult details e :
    DownloadResult.success downloadResult = true →
    length details = length (StreamingVPKProcessor.vpkFolders this) →
    succeeded details →
    shardsEnd this requiredArchives (Threw e)
      (BatchFetch (map archivePattern requiredArchives) (inr downloadResult)
       :: decompiled (StreamingVPKProcessor.vpkFolders this) details ++
          [ImageScan (inl e)])
| imagesCounted downloadResult details scan extractedImages :
    DownloadResult.success downloadResult = true →
    length details = length (StreamingVPKProcessor.vpkFolders this) →
    succeeded details →
    (scan = [] ∧ extractedImages = [] ∨
     scan = [ImageScan (inr extractedImages)]) →
    shardsEnd this requiredArchives
      (Returned (recordExtraction (StreamingVPKProcessor.results this)
                                  requiredArchives extractedImages))
      (BatchFetch (map archivePattern requiredArchives) (inr downloadResult)
       :: decompiled (StreamingVPKProcessor.vpkFolders this) details ++ scan).

Definition directoryFailure (dirResult : DownloadResult.t) : Error :=
  mkError (str "Failed to download VPK directory: " ++
           interpolate "undefined" (DownloadResult.error dirResult)).

Inductive pipelineEnds (this : StreamingVPKProcessor.t)
    : Outcome Results.t → list Observation → Prop :=
| directoryFetchThrew filePattern e :
    pipelineEnds this (Threw e) [DirectoryFetch filePattern (inl e)]
| directoryUnavailable filePattern dirResult :
    DownloadResult.success dirResult = false →
    pipelineEnds this (Threw (directoryFailure dirResult))
      [DirectoryFetch filePattern (inr dirResult)]
| directoryNotFound filePattern dirResult :
    DownloadResult.success dirResult = true →
    pipelineEnds this
      (Threw (mkError (str "Could not find pak01_dir.vpk file")))
      [DirectoryFetch filePattern (inr dirResult)]
| loadThrew filePattern dirResult e :
    DownloadResult.success dirResult = true →
    pipelineEnds this (Threw e)
      [DirectoryFetch filePattern (inr dirResult); Load (inl e)]
| nothingToDo filePattern dirResult vpkDir :
    DownloadResult.success dirResult = true →
    getRequiredVPKArchives (StreamingVPKProcessor.vpkFolders this) vpkDir
      = [] →
    pipelineEnds this (Returned (StreamingVPKProcessor.results this))
      [DirectoryFetch filePattern (inr dirResult); Load (inr vpkDir)]
| planned filePattern dirResult vpkDir o obs :
    DownloadResult.success dirResult = true →
    getRequiredVPKArchives (StreamingVPKProcessor.vpkFolders this) vpkDir
      ≠ [] →
    shardsEnd this
      (getRequiredVPKArchives (StreamingVPKProcessor.vpkFolders this) vpkDir)
      o obs →
    pipelineEnds this o
      (DirectoryFetch filePattern (inr dirResult) :: Load (inr vpkDir) :: obs).

(** ** Scripted environments

    An environment for a processor that keeps the set of paths that exist
    and answers the collaborators' calls from a script. *)

Record Script := {
  mkdirAnswer : Path → Error + unit;
  directoryAnswer : Error + DownloadResult.t;
  delivered : list Path;
  loadAnswer : Error + VPK;
  batchAnswer : Error + DownloadResult.t;
  decompileAnswer : jsstring → Error + ExtractResult.t;
  imagesAnswer : Error + list Path
}.

Definition scriptedFs {X} (script : Script) (c : FsCall X)
    : list Path → X * list Path :=
  match c in FsCall X return list Path → X * list Path with
  | existsSync path => λ existing, (bool_decide (path ∈ existing), existing)
  | mkdirSync path _ =>
      λ existing,
        match mkdirAnswer script path with
        | inl e => (inl e, existing)
        | inr _ => (inr tt, path :: existing)
        end
  | rmSync path _ _ =>
      λ existing,
        (inr tt,
         filter (λ p, startsWith (path_normalize p) (path_normalize path)
                      = false) existing)
  | writeFileSync path _ => λ existing, (inr tt, path :: existing)
  | unlinkSync path => λ existing, (inr tt, filter (λ p, p ≠ path) existing)
  end.

Definition scripted (script : Script) (X : Type) (c : ProcessorCall X)
    : list Path → X * list Path :=
  match c in ProcessorCall X return list Path → X * list Path with
  | fs c' => scriptedFs script c'
  | depotDownloader_downloadSpecificFiles _ _ _ _ _ =>
      λ existing,
        (directoryAnswer script,
         match directoryAnswer script with
         | inr _ => delivered script ++ existing
         | inl _ => existing
         end)
  | depotDownloader_downloadMultipleFiles _ _ _ _ _ =>
      λ existing, (batchAnswer script, existing)
  | vpk_load _ => λ existing, (loadAnswer script, existing)
  | source2Viewer_extractVPKFolder _ _ _ folder _ =>
      λ existing, (decompileAnswer script folder, existing)
  | listDirectory _ _ _ => λ existing, (inr tt, existing)
  | findImages _ => λ existing, (imagesAnswer script, existing)
  end.

(** The directory of the specification's scenario. *)
Definition scenarioDir : VPK :=
  {| files := [str "a/x.vtex_c"; str "b/y.vtex_c"; str "a/z.vtex_c"];
     tree := list_to_map
               [ (str "a/x.vtex_c", {| archiveIndex := Some 0 |});
                 (str "b/y.vtex_c", {| archiveIndex := Some 1 |});
                 (str "a/z.vtex_c", {| archiveIndex := Some 0 |}) ] |}.

Definition fetched : DownloadResult.t :=
  {| DownloadResult.success := true;
     DownloadResult.outputDir := str "./temp_vpk";
     DownloadResult.error := None;
     DownloadResult.downloadTime := Some 1500%Z |}.

Definition notFetched (error : string) : DownloadResult.t :=
  {| DownloadResult.success := false;
     DownloadResult.outputDir := str "./temp_vpk";
     DownloadResult.error := Some (str error);
     DownloadResult.downloadTime := None |}.

Definition extractedOk : ExtractResult.t :=
  {| ExtractResult.success := true;
     ExtractResult.output := str "done";
     ExtractResult.error := None |}.

Definition extractedNot : ExtractResult.t :=
  {| ExtractResult.success := false;
     ExtractResult.output := [];
     ExtractResult.error := Some (str "Process exited with code 1") |}.

(** A run in which everything succeeds, on the scenario's directory. *)
Definition goodScript : Script :=
  {| mkdirAnswer := λ _, inr tt;
     directoryAnswer := inr fetched;
     delivered := [str "temp_vpk/game/csgo/pak01_dir.vpk"];
     loadAnswer := inr scenarioDir;
     batchAnswer := inr fetched;
     decompileAnswer := λ _, inr extractedOk;
     imagesAnswer := inr [str "static/a/x.png"; str "static/b/y.png";
                          str "static/a/z.png"] |}.

(** The decompiler fails for the folders of [failing]. *)
Definition decompilerFailing (failing : list jsstring) : Script :=
  {| mkdirAnswer := mkdirAnswer goodScript;
     directoryAnswer := directoryAnswer goodScript;
     delivered := delivered goodScript;
     loadAnswer := loadAnswer goodScript;
     batchAnswer := batchAnswer goodScript;
     decompileAnswer :=
       λ folder, if bool_decide (folder ∈ failing) then inr extractedNot
                 else inr extractedOk;
     imagesAnswer := inr [str "static/b/y.png"] |}.

(** The batched fetch reports failure with [error]. *)
Definition batchFailing (error : string) : Script :=
  {| mkdirAnswer := mkdirAnswer goodScript;
     directoryAnswer := directoryAnswer goodScript;
     delivered := delivered goodScript;
     loadAnswer := loadAnswer goodScript;
     batchAnswer := inr (notFetched error);
     decompileAnswer := decompileAnswer goodScript;
     imagesAnswer := imagesAnswer goodScript |}.

(** [mkdirSync] throws for [path]. *)
Definition mkdirFailing (path : Path) : Script :=
  {| mkdirAnswer :=
       λ p, if bool_decide (p = path)
            then inl (mkError (str "EACCES: permission denied, mkdir"))
            else inr tt;
     directoryAnswer := directoryAnswer goodScript;
     delivered := delivered goodScript;
     loadAnswer := loadAnswer goodScript;
     batchAnswer := batchAnswer goodScript;
     decompileAnswer := decompileAnswer goodScript;
     imagesAnswer := imagesAnswer goodScript |}.

Definition scenarioProcessor : StreamingVPKProcessor.t :=
  newStreamingVPKProcessor (str "./static") [str "a/"; str "b/"].

(** ** What the trace of a downloader shows

    The attempts of [runDepotDownloader] are the [runCommand] calls with the
    thirty-minute timeout (those that install the tool use the default); the
    waits are the [setTimeout] calls. *)

Inductive Step :=
| Attempt (command : jsstring) (result : CommandResult.t)
| Wait (ms : N).

Definition step (ev : Event NodeCall) : option Step :=
  match ev with
  | Ev c answer =>
      match c in NodeCall X return X → option Step with
      | runCommand command _ (Some 1800000) =>
          λ answer, Some (Attempt command answer)
      | setTimeout ms => λ _, Some (Wait ms)
      | _ => λ _, None
      end answer
  end.

Definition steps (tr : list (Event NodeCall)) : list Step := omap step tr.

Definition attempts (l : list Step) : list (jsstring * CommandResult.t) :=
  omap (λ s, match s with
             | Attempt command result => Some (command, result)
             | Wait _ => None
             end) l.

(** The schedule of [results] successive attempts of [command], the first
    one numbered [attempt]: between two of them, the wait that the number of
    the earlier one determines. *)
Fixpoint schedule (command : jsstring) (attempt : N)
    (results : list CommandResult.t) : list Step :=
  match results with
  | [] => []
  | [result] => [Attempt command result]
  | result :: rest =>
      Attempt command result :: Wait (backoffTime attempt)
      :: schedule command (attempt + 1) rest
  end.

(** The results of the attempts of one operation: every attempt but the
    last failed, and either the last succeeded or all [maxAttempts] attempts
    were made. *)
Definition failedResult (result : CommandResult.t) : Prop :=
  CommandResult.success result = false.

Definition retried (maxAttempts : nat) (results : list CommandResult.t)
    (success : bool) : Prop :=
  if success then
    ∃ earlier final,
      results = earlier ++ [final] ∧ Forall failedResult earlier ∧
      CommandResult.success final = true ∧
      (length results ≤ maxAttempts)%nat
  else Forall failedResult results ∧ length results = maxAttempts.

(** The download operations of a downloader. *)
Inductive Operation :=
| Manifest (appId depotId : N) (manifestId : jsstring)
    (outputDir : option jsstring)
| SpecificFiles (appId depotId : N) (manifestId filePattern : jsstring)
    (outputDir : option jsstring)
| MultipleFiles (appId depotId : N) (manifestId : jsstring)
    (filePatterns : list jsstring) (outputDir : option jsstring).

Definition invoke (platform : jsstring) (this : DepotDownloader.t)
    (operation : Operation) : Downloader DownloadResult.t :=
  match operation with
  | Manifest appId depotId manifestId outputDir =>
      downloadManifest platform this appId depotId manifestId outputDir
  | SpecificFiles appId depotId manifestId filePattern outputDir =>
      downloadSpecificFiles platform this appId depotId manifestId
                            filePattern outputDir
  | MultipleFiles appId depotId manifestId filePatterns outputDir =>
      downloadMultipleFiles platform this appId depotId manifestId
                            filePatterns outputDir
  end.

(** An environment for a downloader: the tool is installed, the clock
    advances by one second per reading, and the tool's runs end as
    [commandAnswer] says, by the number of runs so far. *)
Definition scriptedNode (commandAnswer : nat → CommandResult.t) (X : Type)
    (c : NodeCall X) : nat * Z → X * (nat * Z) :=
  match c in NodeCall X return nat * Z → X * (nat * Z) with
  | node_fs c' =>
      match c' in FsCall X return nat * Z → X * (nat * Z) with
      | existsSync _ => λ st, (true, st)
      | mkdirSync _ _ => λ st, (inr tt, st)
      | rmSync _ _ _ => λ st, (inr tt, st)
      | writeFileSync _ _ => λ st, (inr tt, st)
      | unlinkSync _ => λ st, (inr tt, st)
      end
  | Date_now => λ st, (st.2, (st.1, (st.2 + 1000)%Z))
  | setTimeout ms => λ st, (tt, (st.1, (st.2 + Z.of_N ms)%Z))
  | runCommand _ _ _ => λ st, (commandAnswer st.1, (S st.1, st.2))
  end.

Definition commandFailed : CommandResult.t :=
  {| CommandResult.success := false;
     CommandResult.error := Some (str "Process exited with code 1");
     CommandResult.output := str "Connection to Steam failed" |}.

Definition commandOutput (output : string) : CommandResult.t :=
  {| CommandResult.success := true;
     CommandResult.error := None;
     CommandResult.output := str output |}.

(** A downloader configured for five attempts. *)
Definition fiveAttempts : DepotDownloader.t :=
  newDepotDownloader (str "linux")
    {| Options.username := str "user";
       Options.password := str "secret";
       Options.tempDir := Some (str "./temp");
       Options.executablePath := None;
       Options.downloadAttempts := Some 5 |}.

(** ** More of what the processor and the downloader show *)

(** The candidate locations of the directory file, in the order
    [findVPKDirFile] tests them. *)
Definition searchPaths (this : StreamingVPKProcessor.t) : list Path :=
  let tempVpkDir := StreamingVPKProcessor.tempVpkDir this in
  [ path_join [tempVpkDir; str "game"; str "csgo"; str "pak01_dir.vpk"];
    path_join [tempVpkDir; str "csgo"; str "pak01_dir.vpk"];
    path_join [tempVpkDir; str "pak01_dir.vpk"] ].

(** The existence tests of [paths], each answered [false]. *)
Definition testedAbsent (paths : list Path) : list (Event ProcessorCall) :=
  (λ path, Ev (fs (existsSync path)) false) <$> paths.

(** The index that a padded three-digit text denotes. *)
Definition threeDigits (i : N) : jsstring :=
  [48 + i / 100; 48 + (i / 10) mod 10; 48 + i mod 10].

(** The waits among the steps, in milliseconds. *)
Definition waits (l : list Step) : list N :=
  omap (λ s, match s with Wait ms => Some ms | Attempt _ _ => None end) l.



(** The platforms for which [downloadDepotDownloader] knows a release. *)
Definition supportedPlatforms : list jsstring :=
  [str "win32"; str "linux"; str "darwin"].

(** The path and the content of the file list of each of the two operations
    that use one. *)
Definition fileListOf (this : DepotDownloader.t) (operation : Operation)
    : option (Path * jsstring) :=
  match operation with
  | Manifest _ _ _ _ => None
  | SpecificFiles _ depotId _ filePattern _ =>
      Some (path_join [DepotDownloader.tempDir this;
                       str "filelist_" ++ Number_toString depotId ++
                       str ".txt"],
            str "regex:" ++ filePattern)
  | MultipleFiles _ depotId _ filePatterns _ =>
      Some (path_join [DepotDownloader.tempDir this;
                       str "batch_filelist_" ++ Number_toString depotId ++
                       str ".txt"],
            join [10] ((λ pattern, str "regex:" ++ pattern) <$> filePatterns))
  end.

(** ** More on the patterns of [getLatestManifestId] *)

(** A pattern with its literal characters canonicalised, as the flag [i]
    compares them. *)
Definition foldCase (re : list Atom) : list Atom :=
  (λ a, match a with Chr c => Chr (canonicalize c) | _ => a end) <$> re.

(** An atom that consumes no digit. *)
Definition consumesNoDigit (a : Atom) : bool :=
  match a with
  | Chr c => negb (isDigit (canonicalize c))
  | WhiteSpaceStar => true
  | DigitsGroup => false
  end.

(** ** [Source2Viewer] ([src/source2Viewer.js])

    The wrapper of the decompiler.  Besides the calls of a downloader it
    lists and renames files.  [String.prototype.toLowerCase] and
    [path.basename] are taken as they are, as [toLowerCase] and [basename];
    [os.platform()] and [os.arch()] are fixed for a process and passed as
    [platform] and [arch]. *)

(** [s.endsWith(searchString)] *)
Definition endsWith (s searchString : jsstring) : bool :=
  startsWith (rev s) (rev searchString).

Inductive ViewerCall : Type → Type :=
| viewer_node {X} (c : NodeCall X) : ViewerCall X
| readdirSync (path : Path) : ViewerCall (Error + list jsstring)
| renameSync (oldPath newPath : Path) : ViewerCall (Error + unit).

(** The options of [decompileFile]; [None] is a property left out, for
    which the destructuring takes the default. *)
Module DecompileOptions.
Record t := mk {
  extension : option jsstring;
  folderFilter : option jsstring;
  decompile : option bool
}.
End DecompileOptions.

(** What [decompileVPKFiles] returns; an entry of [errors] has the fields
    [file] and [error]. *)
Module DecompileResults.
Record t := mk {
  decompiled : N;
  failed : N;
  errors : list (jsstring * jsstring)
}.
End DecompileResults.

Module Source2Viewer.

Record t := mk {
  tempDir : Path;
  executablePath : jsstring
}.

Abbreviation Viewer := (Prog ViewerCall).

Definition getDefaultExecutablePath (platform : jsstring) : jsstring :=
  if bool_decide (platform = str "win32") then str "./Source2Viewer-CLI.exe"
  else str "./Source2Viewer-CLI".

(** [new Source2Viewer(options)] *)
Definition new (platform : jsstring) (tempDir executablePath : option jsstring)
    : t :=
  {| Source2Viewer.tempDir := orElse tempDir (str "./temp");
     Source2Viewer.executablePath :=
       orElse executablePath (getDefaultExecutablePath platform) |}.

Definition existsSync' (path : Path) : Viewer bool :=
  perform (viewer_node (node_fs (existsSync path))).

Definition runCommand' (command description : jsstring) (timeout : option N)
    : Viewer CommandResult.t :=
  perform (viewer_node (runCommand command description timeout)).

Section methods.

Variables (toLowerCase : jsstring → jsstring) (basename : Path → jsstring).
Variables (platform arch : jsstring).

Definition downloadSource2Viewer (this : t) : Viewer unit :=
  let base :=
    str "https://github.com/ValveResourceFormat/ValveResourceFormat/releases/latest/download/"
  in
  let arm64 := bool_decide (arch = str "arm64") in
  target ←
    (if bool_decide (platform = str "win32") then
       Ret (str "cli-windows-x64.zip")
     else if bool_decide (platform = str "linux") then
       Ret (if arm64 then str "cli-linux-arm64.zip"
            else str "cli-linux-x64.zip")
     else if bool_decide (platform = str "darwin") then
       Ret (if arm64 then str "cli-macos-arm64.zip"
            else str "cli-macos-x64.zip")
     else Throw (mkError (str "Unsupported platform: " ++ platform)));
  let fileName : jsstring := target in
  let downloadUrl := base ++ fileName in
  let win32 := bool_decide (platform = str "win32") in
  let downloadCommand :=
    if win32 then
      str "powershell -Command " ++ quote ++
      str "Invoke-WebRequest -Uri '" ++ downloadUrl ++ str "' -OutFile '" ++
      fileName ++ str "'" ++ quote
    else
      str "curl -L -o " ++ quote ++ fileName ++ quote ++ str " " ++
      quote ++ downloadUrl ++ quote in
  runCommand' downloadCommand (str "Downloading Source2Viewer CLI") None;;
  let extractCommand :=
    if win32 then
      str "powershell -Command " ++ quote ++
      str "Expand-Archive -Path '" ++ fileName ++
      str "' -DestinationPath '.' -Force" ++ quote
    else str "unzip -o " ++ quote ++ fileName ++ quote in
  runCommand' extractCommand (str "Extracting Source2Viewer CLI") None;;
  extractedFiles ← call (readdirSync (str "."));
  let executableName :=
    if win32 then
      orElse (List.find (λ f, endsWith f (str ".exe") &&
                              includes (toLowerCase f) (str "source"))
                        extractedFiles)
             (str "Source2Viewer.exe")
    else
      orElse (List.find (λ f, negb (includes f (str ".")) &&
                              includes (toLowerCase f) (str "source"))
                        extractedFiles)
             (str "Source2Viewer") in
  (if bool_decide (executableName ≠ basename (executablePath this)) then
     present ← existsSync' executableName;
     if present : bool
     then call (renameSync executableName (executablePath this))
     else Ret tt
   else Ret tt);;
  (if win32 then Ret tt
   else
     runCommand' (str "chmod +x " ++ quote ++ executablePath this ++ quote)
                 (str "Making Source2Viewer executable") None;;
     Ret tt);;
  present ← existsSync' fileName;
  if present : bool then call (viewer_node (node_fs (unlinkSync fileName)))
  else Ret tt.

Definition ensureSource2ViewerExists (this : t) : Viewer bool :=
  present ← existsSync' (executablePath this);
  if present : bool then Ret true
  else downloadSource2Viewer this;; Ret true.

(** [if (!fs.existsSync(outputDir)) fs.mkdirSync(outputDir, ...)] *)
Definition ensureOutput (outputDir : Path) : Viewer unit :=
  present ← existsSync' outputDir;
  if present : bool then Ret tt
  else call (viewer_node (node_fs (mkdirSync outputDir true))).

(** The argument list that [decompileFile] builds. *)
Definition decompileArgs (inputFile : Path) (outputDir : Path)
    (options : DecompileOptions.t) : list jsstring :=
  let extension :=
    default (str "vtex_c") (DecompileOptions.extension options) in
  let folderFilter := DecompileOptions.folderFilter options in
  let decompile := default true (DecompileOptions.decompile options) in
  [str "-i"; quote ++ inputFile ++ quote] ++
  [str "-o"; quote ++ outputDir ++ quote] ++
  (if bool_decide (extension ≠ []) then
     [str "-e"; quote ++ extension ++ quote]
   else []) ++
  (if decompile then [str "-d"] else []) ++
  match folderFilter with
  | Some (c :: s) => [str "-f"; quote ++ (c :: s) ++ quote]
  | _ => []
  end.

Definition toExtractResult (result : CommandResult.t) : ExtractResult.t :=
  {| ExtractResult.success := CommandResult.success result;
     ExtractResult.output := CommandResult.output result;
     ExtractResult.error := CommandResult.error result |}.

Definition decompileFile (this : t) (inputFile : Path) (outputDir : Path)
    (options : DecompileOptions.t) : Viewer ExtractResult.t :=
  ensureSource2ViewerExists this;;
  ensureOutput outputDir;;
  let args := decompileArgs inputFile outputDir options in
  result ← runCommand'
             (quote ++ executablePath this ++ quote ++ str " " ++
              join (str " ") args)
             (str "Decompiling " ++ basename inputFile)
             (Some (5 * 60 * 1000));
  Ret (toExtractResult result).

(** One iteration of the loop of [decompileVPKFiles], with its [try] and
    [catch]. *)
Definition decompileOne (this : t) (outputDir : Path)
    (options : DecompileOptions.t) (results : DecompileResults.t)
    (vpkFile : Path) : Viewer DecompileResults.t :=
  let failure (error : jsstring) :=
    {| DecompileResults.decompiled := DecompileResults.decompiled results;
       DecompileResults.failed := DecompileResults.failed results + 1;
       DecompileResults.errors :=
         DecompileResults.errors results ++ [(vpkFile, error)] |} in
  tryCatch
    (result ← decompileFile this vpkFile outputDir options;
     if ExtractResult.success result then
       Ret {| DecompileResults.decompiled :=
                DecompileResults.decompiled results + 1;
              DecompileResults.failed := DecompileResults.failed results;
              DecompileResults.errors := DecompileResults.errors results |}
     else
       Ret (failure (orElse (ExtractResult.error result)
                            (str "Unknown decompilation error"))))
    (λ error, Ret (failure (message error))).

Fixpoint decompileEach (this : t) (outputDir : Path)
    (options : DecompileOptions.t) (vpkFiles : list Path)
    (results : DecompileResults.t) : Viewer DecompileResults.t :=
  match vpkFiles with
  | [] => Ret results
  | vpkFile :: rest =>
      results ← decompileOne this outputDir options results vpkFile;
      decompileEach this outputDir options rest results
  end.

Definition decompileVPKFiles (this : t) (vpkFiles : list Path)
    (outputDir : Path) (options : DecompileOptions.t)
    : Viewer DecompileResults.t :=
  ensureSource2ViewerExists this;;
  decompileEach this outputDir options vpkFiles
    {| DecompileResults.decompiled := 0; DecompileResults.failed := 0;
       DecompileResults.errors := [] |}.

(** The argument list that [extractVPKFolder] builds; [extension] and
    [folder] are [options.extension] and [options.folder]. *)
Definition extractArgs (vpkDirPath outputDir : Path)
    (extension folder : option jsstring) : list jsstring :=
  [ str "-i"; quote ++ vpkDirPath ++ quote;
    str "-o"; quote ++ outputDir ++ quote;
    str "-e"; orElse extension (str "vtex_c");
    str "-d" ] ++
  match folder with
  | Some (c :: s) => [str "-f"; quote ++ (c :: s) ++ quote]
  | _ => []
  end.

Definition extractVPKFolder (this : t) (vpkDirPath outputDir : Path)
    (extension folder : option jsstring) : Viewer ExtractResult.t :=
  ensureSource2ViewerExists this;;
  ensureOutput outputDir;;
  let args := extractArgs vpkDirPath outputDir extension folder in
  let command :=
    quote ++ executablePath this ++ quote ++ str " " ++ join (str " ") args in
  result ← runCommand' command
             (str "Extracting " ++ orElse folder (str "files") ++
              str " from " ++ basename vpkDirPath ++
              str " using Source2Viewer")
             (Some (10 * 60 * 1000));
  Ret (toExtractResult result).

End methods.

End Source2Viewer.

(** The runs of the decompiler in a trace: the commands given a timeout
    (those that install the tool have none). *)
Definition toolRun (ev : Event ViewerCall)
    : option (jsstring * N * CommandResult.t) :=
  match ev with
  | Ev c answer =>
      match c in ViewerCall X return X → _ with
      | viewer_node c' =>
          match c' in NodeCall X return X → _ with
          | runCommand command _ (Some timeout) =>
              λ answer, Some (command, timeout, answer)
          | _ => λ _, None
          end
      | _ => λ _, None
      end answer
  end.

Definition toolRuns (tr : list (Event ViewerCall))
    : list (jsstring * N * CommandResult.t) :=
  omap toolRun tr.

(** Whether the call of an event threw. *)
Definition isThrown {X} (answer : Error + X) : bool :=
  match answer with inl _ => true | inr _ => false end.

Definition fsThrew {X} (c : FsCall X) : X → bool :=
  match c in FsCall X return X → bool with
  | existsSync _ => λ _, false
  | mkdirSync _ _ => isThrown
  | rmSync _ _ _ => isThrown
  | writeFileSync _ _ => isThrown
  | unlinkSync _ => isThrown
  end.

Definition threw (ev : Event ViewerCall) : bool :=
  match ev with
  | Ev c answer =>
      match c in ViewerCall X return X → bool with
      | viewer_node c' =>
          match c' in NodeCall X return X → bool with
          | node_fs c'' => fsThrew c''
          | _ => λ _, false
          end
      | readdirSync _ => isThrown
      | renameSync _ _ => isThrown
      end answer
  end.

(** A program that does not run the decompiler, and that returns unless a
    call throws. *)
Definition preparing {W A} (handle : ∀ X, ViewerCall X → W → X * W)
    (p : Prog ViewerCall A) : Prop :=
  ∀ w, toolRuns (trace (run handle p w)) = [] ∧
       (Forall (λ ev, threw ev = false) (trace (run handle p w)) →
        ∃ a, outcome (run handle p w) = Returned a).

(** An environment for the wrapper in which nothing exists yet, no call
    throws and every command fails. *)
Definition bareViewer (X : Type) (c : ViewerCall X) : unit → X * unit :=
  match c in ViewerCall X return unit → X * unit with
  | viewer_node c' =>
      match c' in NodeCall X return unit → X * unit with
      | node_fs c'' =>
          match c'' in FsCall X return unit → X * unit with
          | existsSync _ => λ st, (false, st)
          | mkdirSync _ _ => λ st, (inr tt, st)
          | rmSync _ _ _ => λ st, (inr tt, st)
          | writeFileSync _ _ => λ st, (inr tt, st)
          | unlinkSync _ => λ st, (inr tt, st)
          end
      | Date_now => λ st, (0%Z, st)
      | setTimeout _ => λ st, (tt, st)
      | runCommand _ _ _ => λ st, (commandFailed, st)
      end
  | readdirSync _ => λ st, (inr [], st)
  | renameSync _ _ => λ st, (inr tt, st)
  end.

(** ** [extractImagesFromVPK] ([src/vpkExtractor.js])

    The extraction without the decompiler.  Besides the calls of [fs] and
    the timer it loads the directory and reads entries out of it
    ([vpkDir.getFile], which may throw, or return nothing).  [path.extname],
    [path.dirname] and [String.prototype.toLowerCase] are taken as they are.
    Its results have no field [downloaded]; the one of [Results.t] stays as
    it is. *)

Inductive ExtractorCall : Type → Type :=
| extractor_node {X} (c : NodeCall X) : ExtractorCall X
| vpkDir_load (path : Path) : ExtractorCall (Error + VPK)
| vpkDir_getFile (fileName : jsstring)
    : ExtractorCall (Error + option (list N)).

Abbreviation Extractor := (Prog ExtractorCall).

Definition imageExtensions : list jsstring :=
  [ str ".png"; str ".jpg"; str ".jpeg"; str ".tga"; str ".bmp"; str ".gif";
    str ".vtf"; str ".svg" ].

Definition batchSize : nat := 20.

(** [array.slice(start, end)] for [start <= end <= array.length] *)
Definition slice {A} (array : list A) (start end_ : nat) : list A :=
  take (end_ - start) (drop start array).

Section extractor.

Variables (extname dirname toLowerCase : jsstring → jsstring).

(** The inner loop [for (const folder of vpkFolders)] for one [fileName],
    with its [break]. *)
Fixpoint selectImage (fileName : jsstring) (folders : list jsstring)
    (imageFiles : list jsstring) : list jsstring :=
  match folders with
  | [] => imageFiles
  | folder :: rest =>
      if startsWith fileName folder then
        let ext := toLowerCase (extname fileName) in
        if bool_decide (ext ∈ imageExtensions) then imageFiles ++ [fileName]
        else imageFiles
      else selectImage fileName rest imageFiles
  end.

Definition selectImages (vpkFolders : list jsstring) (vpkDir : VPK)
    : list jsstring :=
  fold_left (λ imageFiles fileName,
               selectImage fileName vpkFolders imageFiles)
            (files vpkDir) [].

(** The body of the loop over a batch, with its [try] and [catch]. *)
Definition extractFile (outputDir : Path) (results : Results.t)
    (fileName : jsstring) : Extractor Results.t :=
  tryCatch
    (fileData ← call (vpkDir_getFile fileName);
     match fileData with
     | Some data =>
         let outputPath := path_join [outputDir; fileName] in
         let outputDirPath := dirname outputPath in
         present ← perform (extractor_node (node_fs (existsSync outputDirPath)));
         (if present : bool then Ret tt
          else call (extractor_node (node_fs (mkdirSync outputDirPath true))));;
         call (extractor_node (node_fs (writeFileSync outputPath data)));;
         Ret {| Results.downloaded := Results.downloaded results;
                Results.extracted := Results.extracted results + 1;
                Results.failed := Results.failed results;
                Results.errors := Results.errors results |}
     | None =>
         Ret {| Results.downloaded := Results.downloaded results;
                Results.extracted := Results.extracted results;
                Results.failed := Results.failed results + 1;
                Results.errors :=
                  Results.errors results ++
                  [(fileName, str "Could not read file data from VPK")] |}
     end)
    (λ error,
       match onExtractError fileName error results with
       | inl e => Throw e
       | inr results' => Ret results'
       end).

(** The loop [for (let i = 0; i < batch.length; i++)]. *)
Fixpoint extractBatch (outputDir : Path) (batch : list jsstring)
    (results : Results.t) : Extractor Results.t :=
  match batch with
  | [] => Ret results
  | fileName :: rest =>
      results ← extractFile outputDir results fileName;
      extractBatch outputDir rest results
  end.

(** The loop over the batches, entered at [batchStart]; [fuel] bounds the
    number of iterations left. *)
Fixpoint extractBatches (fuel : nat) (outputDir : Path)
    (imageFiles : list jsstring) (batchStart : nat) (results : Results.t)
    : Extractor Results.t :=
  match fuel with
  | O => Ret results
  | S fuel' =>
      if (batchStart <? length imageFiles)%nat then
        let batchEnd :=
          Nat.min (batchStart + batchSize) (length imageFiles) in
        let batch := slice imageFiles batchStart batchEnd in
        results ← extractBatch outputDir batch results;
        perform (extractor_node (setTimeout 200));;
        extractBatches fuel' outputDir imageFiles (batchStart + batchSize)
                       results
      else Ret results
  end.

Definition extractImagesFromVPK (tempDir outputDir : Path)
    (vpkFolders : list jsstring) : Extractor Results.t :=
  let vpkDirPath := path_join [tempDir; str "pak01_dir.vpk"] in
  present ← perform (extractor_node (node_fs (existsSync vpkDirPath)));
  if negb present then
    Throw (mkError (str "VPK directory file not found. Make sure downloads completed successfully."))
  else
    vpkDir ← call (vpkDir_load vpkDirPath);
    let results :=
      {| Results.downloaded := 0; Results.extracted := 0;
         Results.failed := 0; Results.errors := [] |} in
    present ← perform (extractor_node (node_fs (existsSync outputDir)));
    (if present : bool then Ret tt
     else call (extractor_node (node_fs (mkdirSync outputDir true))));;
    let imageFiles := selectImages vpkFolders vpkDir in
    extractBatches (length imageFiles) outputDir imageFiles 0 results.

End extractor.

(** What the trace of an extraction shows: the entries read, the pauses and
    the directories loaded. *)
Definition readOf (ev : Event ExtractorCall) : option jsstring :=
  match ev with
  | Ev c _ =>
      match c with
      | vpkDir_getFile fileName => Some fileName
      | _ => None
      end
  end.

Definition pauseOf (ev : Event ExtractorCall) : option N :=
  match ev with
  | Ev c _ =>
      match c with
      | extractor_node (setTimeout ms) => Some ms
      | _ => None
      end
  end.

Definition loadOf (ev : Event ExtractorCall) : option (Error + VPK) :=
  match ev with
  | Ev c answer =>
      match c in ExtractorCall X return X → option (Error + VPK) with
      | vpkDir_load _ => λ answer, Some answer
      | _ => λ _, None
      end answer
  end.

Definition reads (tr : list (Event ExtractorCall)) : list jsstring :=
  omap readOf tr.

Definition pauses (tr : list (Event ExtractorCall)) : list N :=
  omap pauseOf tr.

Definition loaded (tr : list (Event ExtractorCall)) : list (Error + VPK) :=
  omap loadOf tr.

(** The images that the selectors pick, as a filter of the listing. *)
Definition isImage (toLowerCase extname : jsstring → jsstring)
    (vpkFolders : list jsstring) (fileName : jsstring) : bool :=
  existsb (startsWith fileName) vpkFolders &&
  bool_decide (toLowerCase (extname fileName) ∈ imageExtensions).

(** How the counters stand after [fileNames], starting from [results]:
    every file is counted once, a failure has its entry. *)
Definition counted (results : Results.t) (fileNames : list jsstring)
    (results' : Results.t) : Prop :=
  ∃ new,
    Results.errors results' = Results.errors results ++ new ∧
    Results.failed results' = Results.failed results + N.of_nat (length new) ∧
    Results.extracted results' + N.of_nat (length new)
    = Results.extracted results + N.of_nat (length fileNames) ∧
    new.*1 `sublist_of` fileNames ∧
    Results.downloaded results' = Results.downloaded results.

(** ** [main] ([src/index.js])

    The calls of [main]: the downloader's [getLatestManifestId] (a string of
    digits whenever it returns), [fs.readFileSync] with the encoding [utf8],
    whose error carries a [code], the processor's [processVPKFiles], and
    [fs.writeFileSync].  [process.exit(code)] ends the program: [main] ends
    as [Exited code], or as [Completed] when it runs to its last statement. *)

Record SystemError := {
  thrown : Error;
  code : jsstring
}.

Inductive MainCall : Type → Type :=
| depotDownloader_getLatestManifestId (appId depotId : N)
    : MainCall (Error + jsstring)
| fs_readFileSync (path : Path) : MainCall (SystemError + jsstring)
| processor_processVPKFiles (processor : StreamingVPKProcessor.t)
    (appId depotId : N) (manifestId : jsstring)
    : MainCall (Error + Results.t)
| fs_writeFileSync (path : Path) (data : jsstring) : MainCall (Error + unit).

Inductive Exit :=
| Exited (exitCode : N)
| Completed.

(** [s.trim()]: white space and line terminators go, at both ends. *)
Fixpoint trimStart (s : jsstring) : jsstring :=
  match s with
  | ch :: s' => if isWhiteSpace ch then trimStart s' else s
  | [] => []
  end.

Definition trim (s : jsstring) : jsstring :=
  rev (trimStart (rev (trimStart s))).

Definition manifestIdFile : jsstring := str "manifest.txt".

(** The path [`${dir}/${manifestIdFile}`]. *)
Definition manifestPath : Path := index.dir ++ str "/" ++ manifestIdFile.

(** The statement [try { existingManifestId = ... } catch (err) { ... }]:
    the value of [existingManifestId] after it. *)
Definition readExistingManifestId : Prog MainCall jsstring :=
  content ← perform (fs_readFileSync manifestPath);
  match content with
  | inr text => Ret (trim text)
  | inl err =>
      if bool_decide (code err ≠ str "ENOENT") then Throw (thrown err)
      else Ret []
  end.

(** [forceFlag] is [process.argv.includes("--force")]. *)
Definition main (forceFlag : bool) : Prog MainCall Exit :=
  tryCatch
    (latestManifestId ← call (depotDownloader_getLatestManifestId
                                index.appId index.depotId);
     existingManifestId ← readExistingManifestId;
     if bool_decide (existingManifestId = latestManifestId) && negb forceFlag
     then Ret (Exited 0)
     else
       let processor := newStreamingVPKProcessor index.dir index.vpkFolders in
       tryCatch
         (call (processor_processVPKFiles processor index.appId index.depotId
                                          latestManifestId);;
          Ret tt)
         (λ _, Ret tt);;
       tryCatch (call (fs_writeFileSync manifestPath latestManifestId))
                (λ _, Ret tt);;
       Ret Completed)
    (λ _, Ret (Exited 1)).

(** What the trace of [main] shows: the runs of the processor with the
    manifest they were given, and the files written. *)
Definition processingOf (ev : Event MainCall)
    : option (jsstring * (Error + Results.t)) :=
  match ev with
  | Ev c answer =>
      match c in MainCall X return X → option (jsstring * (Error + Results.t))
      with
      | processor_processVPKFiles _ _ _ manifestId =>
          λ answer, Some (manifestId, answer)
      | _ => λ _, None
      end answer
  end.

Definition writeOf (ev : Event MainCall) : option (Path * jsstring) :=
  match ev with
  | Ev c _ =>
      match c with
      | fs_writeFileSync path data => Some (path, data)
      | _ => None
      end
  end.

Definition processings (tr : list (Event MainCall))
    : list (jsstring * (Error + Results.t)) :=
  omap processingOf tr.

Definition writes (tr : list (Event MainCall)) : list (Path * jsstring) :=
  omap writeOf tr.

(** An environment for [main]: the manifest of the depot is [latest], the
    runs of the processor end as [processing] says, and the state is the
    content of the manifest file, if there is one. *)
Definition scriptedMain (latest : jsstring) (processing : Error + Results.t)
    (X : Type) (c : MainCall X) : option jsstring → X * option jsstring :=
  match c in MainCall X return option jsstring → X * option jsstring with
  | depotDownloader_getLatestManifestId _ _ => λ file, (inr latest, file)
  | fs_readFileSync _ =>
      λ file,
        (match file with
         | Some text => inr text
         | None =>
             inl {| thrown := mkError (str "ENOENT: no such file or directory");
                    code := str "ENOENT" |}
         end, file)
  | processor_processVPKFiles _ _ _ _ => λ file, (processing, file)
  | fs_writeFileSync _ data => λ file, (inr tt, Some data)
  end.

(** ** More scenarios *)

(** The scenario's directory listed in another order, one entry twice. *)
Definition scenarioDirRelisted : VPK :=
  {| files := [str "a/z.vtex_c"; str "b/y.vtex_c"; str "a/x.vtex_c";
               str "a/z.vtex_c"];
     tree := tree scenarioDir |}.

(** The fetch of the directory file reports failure with [error]. *)
Definition directoryFailing (error : string) : Script :=
  {| mkdirAnswer := mkdirAnswer goodScript;
     directoryAnswer := inr (notFetched error);
     delivered := [];
     loadAnswer := loadAnswer goodScript;
     batchAnswer := batchAnswer goodScript;
     decompileAnswer := decompileAnswer goodScript;
     imagesAnswer := imagesAnswer goodScript |}.

(** The commands of a trace that failed. *)
Definition failedCommand (ev : Event ViewerCall) : option jsstring :=
  match ev with
  | Ev c answer =>
      match c in ViewerCall X return X → option jsstring with
      | viewer_node c' =>
          match c' in NodeCall X return X → option jsstring with
          | runCommand command _ _ =>
              λ result,
                if CommandResult.success result then None else Some command
          | _ => λ _, None
          end
      | _ => λ _, None
      end answer
  end.

Definition failedCommands (tr : list (Event ViewerCall)) : list jsstring :=
  omap failedCommand tr.

(** * Properties *)

(** ** The shard planner *)

Section planner.

Implicit Types (s : JSSet) (vpkDir : VPK) (folders : list jsstring).

Lemma startsWith_spec (fileName folder : jsstring) :
  startsWith fileName folder = true ↔ ∃ rest, fileName = folder ++ rest.
Proof.
  revert fileName. induction folder as [|c folder IH]; intros [|d fileName]; simpl.
  - split; [by exists []|done].
  - split; [by exists (d :: fileName)|done].
  - split; [done|by intros [? ?]].
  - rewrite andb_true_iff, N.eqb_eq, IH. split.
    + intros [-> [rest ->]]. by exists rest.
    + intros [rest [= -> ->]]. eauto.
Qed.

Lemma elem_of_Set_add x y s :
  x ∈ elems (Set_add y s) ↔ x = y ∨ x ∈ elems s.
Proof.
  unfold Set_add; simpl. case_bool_decide as Hy.
  - split; [by right|]. by intros [->|?].
  - rewrite elem_of_app, list_elem_of_singleton. tauto.
Qed.

Lemma NoDup_Set_add y s : NoDup (elems s) → NoDup (elems (Set_add y s)).
Proof.
  intros Hs. unfold Set_add; simpl. case_bool_decide as Hy; [done|].
  apply NoDup_app. split_and!; [done| |apply NoDup_singleton].
  intros x Hx ->%list_elem_of_singleton. done.
Qed.

Lemma elem_of_scanFolders vpkDir fileName folders s i :
  i ∈ elems (scanFolders vpkDir fileName folders s) ↔
  i ∈ elems s ∨ contributes vpkDir folders fileName i.
Proof.
  unfold contributes. induction folders as [|folder rest IH]; simpl.
  - split; [by left|]. intros [?|(? & ? & []%elem_of_nil & _)]. done.
  - destruct (startsWith fileName folder) eqn:Hpre.
    + destruct (tree vpkDir !! fileName) as [fileInfo|] eqn:Hlook;
        [destruct (archiveIndex fileInfo) as [j|] eqn:Hidx|].
      * rewrite elem_of_Set_add. split.
        -- intros [->|?]; [right|by left].
           exists folder, fileInfo. split_and!; [apply list_elem_of_here|done..].
        -- intros [?|(f & info & _ & _ & ? & ?)]; [by right|left]. congruence.
      * split; [by left|]. intros [?|(f & info & _ & _ & ? & ?)]; [done|congruence].
      * split; [by left|]. intros [?|(f & info & _ & _ & ? & ?)]; [done|congruence].
    + rewrite IH. split.
      * intros [?|(f & info & ? & ?)]; [by left|right].
        exists f, info. split; [by apply list_elem_of_further|done].
      * intros [?|(f & info & [->|?]%elem_of_cons & Hf & ?)]; [by left| |].
        -- congruence.
        -- right. by exists f, info.
Qed.

Lemma NoDup_scanFolders vpkDir fileName folders s :
  NoDup (elems s) → NoDup (elems (scanFolders vpkDir fileName folders s)).
Proof.
  intros Hs. induction folders as [|folder rest IH]; simpl; [done|].
  repeat case_match; auto using NoDup_Set_add.
Qed.

(** The [break]: one entry calls [add] at most once, whatever the number of
    selectors that are prefixes of its path. *)
Lemma addCalls_scanFolders vpkDir fileName folders s :
  (addCalls (scanFolders vpkDir fileName folders s) ≤ S (addCalls s))%nat.
Proof.
  induction folders as [|folder rest IH]; simpl; [lia|].
  repeat case_match; simpl; lia.
Qed.

Lemma scanFrom_cons folders vpkDir fileName fileNames s :
  scanFrom folders vpkDir (fileName :: fileNames) s =
  scanFrom folders vpkDir fileNames (scanFolders vpkDir fileName folders s).
Proof. reflexivity. Qed.

Lemma elem_of_scanFrom folders vpkDir fileNames s i :
  i ∈ elems (scanFrom folders vpkDir fileNames s) ↔
  i ∈ elems s ∨ ∃ fileName, fileName ∈ fileNames ∧
                            contributes vpkDir folders fileName i.
Proof.
  revert s. induction fileNames as [|fileName rest IH]; intros s.
  - simpl. split; [by left|]. intros [?|(? & []%elem_of_nil & _)]. done.
  - rewrite scanFrom_cons, IH, elem_of_scanFolders. split.
    + intros [[?|?]|(f & ? & ?)]; [by left|right..].
      * exists fileName. split; [apply list_elem_of_here|done].
      * exists f. split; [by apply list_elem_of_further|done].
    + intros [?|(f & [->|?]%elem_of_cons & ?)]; [by left; left|by left; right|].
      right. by exists f.
Qed.

Lemma NoDup_scanFrom folders vpkDir fileNames s :
  NoDup (elems s) → NoDup (elems (scanFrom folders vpkDir fileNames s)).
Proof.
  revert s. induction fileNames as [|fileName rest IH]; intros s Hs; [done|].
  rewrite scanFrom_cons. apply IH. by apply NoDup_scanFolders.
Qed.

Lemma addCalls_scanFrom folders vpkDir fileNames s :
  (addCalls (scanFrom folders vpkDir fileNames s)
   ≤ addCalls s + length fileNames)%nat.
Proof.
  revert s. induction fileNames as [|fileName rest IH]; intros s;
    [simpl; lia|].
  rewrite scanFrom_cons. etrans; [apply IH|].
  pose proof (addCalls_scanFolders vpkDir fileName folders s). simpl. lia.
Qed.

Lemma elem_of_getRequiredVPKArchives folders vpkDir i :
  i ∈ getRequiredVPKArchives folders vpkDir ↔ requiredBy folders vpkDir i.
Proof.
  unfold getRequiredVPKArchives, sortAscending, Array_from, scanFiles.
  rewrite merge_sort_Permutation, elem_of_scanFrom. unfold requiredBy, contributes. simpl. split.
  - intros [[]%elem_of_nil|(f & ? & folder & info & ?)].
    exists f, folder, info. tauto.
  - intros (f & folder & info & ? & ?). right. exists f.
    split; [done|]. by exists folder, info.
Qed.

Lemma NoDup_getRequiredVPKArchives folders vpkDir :
  NoDup (getRequiredVPKArchives folders vpkDir).
Proof.
  unfold getRequiredVPKArchives, sortAscending, Array_from, scanFiles.
  rewrite merge_sort_Permutation.
  apply (NoDup_scanFrom folders vpkDir (files vpkDir) Set_new), NoDup_nil_2.
Qed.

Lemma ascending_NoDup_strict (l : list N) :
  Sorted N.le l → NoDup l → StronglySorted N.lt l.
Proof.
  intros Hsorted%Sorted_StronglySorted; [|apply _].
  induction Hsorted as [|x l _ IH Hx]; intros Hdup; [constructor|].
  apply NoDup_cons in Hdup as [Hnotin ?]. constructor; [auto|].
  apply Forall_forall. intros y Hy.
  assert (x ≠ y) by (intros ->; done).
  rewrite Forall_forall in Hx. specialize (Hx y Hy). lia.
Qed.

Lemma getRequiredVPKArchives_ascending folders vpkDir :
  StronglySorted N.lt (getRequiredVPKArchives folders vpkDir).
Proof.
  apply ascending_NoDup_strict; [|apply NoDup_getRequiredVPKArchives].
  apply (Sorted_merge_sort N.le).
Qed.

(** C1. For every directory and selector list, [getRequiredVPKArchives]
    returns exactly the indices [i] such that some entry whose path starts
    with some selector has [archiveIndex] equal to [i] (an entry without
    [archiveIndex] contributes nothing), in strictly ascending order and
    without duplicates. *)
Theorem getRequiredVPKArchives_exact (vpkFolders : list jsstring)
    (vpkDir : VPK) :
  (∀ i, i ∈ getRequiredVPKArchives vpkFolders vpkDir ↔
        requiredBy vpkFolders vpkDir i) ∧
  StronglySorted N.lt (getRequiredVPKArchives vpkFolders vpkDir) ∧
  NoDup (getRequiredVPKArchives vpkFolders vpkDir).
Proof.
  split_and!.
  - intros i. apply elem_of_getRequiredVPKArchives.
  - apply getRequiredVPKArchives_ascending.
  - apply NoDup_getRequiredVPKArchives.
Qed.

Lemma requiredBy_Permutation folders1 folders2 vpkDir i :
  folders1 ≡ₚ folders2 →
  requiredBy folders1 vpkDir i → requiredBy folders2 vpkDir i.
Proof.
  intros Hperm (fileName & folder & fileInfo & ? & Hfolder & ?).
  exists fileName, folder, fileInfo. by rewrite <- Hperm.
Qed.

(** C2. Selector lists that are permutations of each other give the same
    Shard Set; and the scan of one entry calls [add] at most once, however
    many selectors are prefixes of its path, so that a whole scan makes at
    most one call per entry. *)
Theorem selector_order_is_immaterial (vpkDir : VPK)
    (vpkFolders1 vpkFolders2 : list jsstring) :
  vpkFolders1 ≡ₚ vpkFolders2 →
  getRequiredVPKArchives vpkFolders1 vpkDir
  = getRequiredVPKArchives vpkFolders2 vpkDir ∧
  (∀ fileName requiredIndices,
     (addCalls (scanFolders vpkDir fileName vpkFolders1 requiredIndices)
      ≤ S (addCalls requiredIndices))%nat) ∧
  (addCalls (scanFiles vpkFolders1 vpkDir) ≤ length (files vpkDir))%nat.
Proof.
  intros Hperm. split_and!.
  - apply (StronglySorted_unique_strong N.lt);
      try apply getRequiredVPKArchives_ascending; [intros; lia|].
    apply NoDup_Permutation; try apply NoDup_getRequiredVPKArchives.
    intros i. rewrite !elem_of_getRequiredVPKArchives.
    split; by apply requiredBy_Permutation.
  - intros fileName requiredIndices. apply addCalls_scanFolders.
  - apply (addCalls_scanFrom vpkFolders1 vpkDir (files vpkDir) Set_new).
Qed.

End planner.

(** The scenario of the specification. *)
Example scenario_one_selector :
  getRequiredVPKArchives [str "a/"] scenarioDir = [0].
Proof. by vm_compute. Qed.

Example scenario_two_selectors :
  getRequiredVPKArchives [str "a/"; str "b/"] scenarioDir = [0; 1].
Proof. by vm_compute. Qed.

(** Overlapping selectors: the entry is scanned once. *)
Example overlapping_selectors :
  Array_from (scanFiles [str "a/"; str "a/x"; str "a"] scenarioDir) = [0] ∧
  addCalls (scanFiles [str "a/"; str "a/x"; str "a"] scenarioDir) = 2%nat.
Proof. by vm_compute. Qed.

Lemma selector_order_is_immaterial_witness :
  [str "a/"; str "b/"] ≡ₚ [str "b/"; str "a/"] ∧
  getRequiredVPKArchives [str "a/"; str "b/"] scenarioDir
  = getRequiredVPKArchives [str "b/"; str "a/"] scenarioDir.
Proof.
  split; [apply Permutation_swap|].
  apply (selector_order_is_immaterial scenarioDir), Permutation_swap.
Defined.


(** ** Running programs *)

(** Answer the next call of the goal's run, made to [handle]. *)
Ltac answer_of handle :=
  match goal with
  | |- context [handle ?X ?c ?w] =>
      let x := fresh "x" in
      let w' := fresh "w" in
      destruct (handle X c w) as [x w'] eqn:?
  end.


Section run.

Context {E : Type → Type} {W : Type} (handle : ∀ X, E X → W → X * W).

Lemma run_bind {A B} (p : Prog E A) (f : A → Prog E B) (w : W) :
  run handle (p ≫= f) w =
  match run handle p w with
  | (Returned a, tr1, w1) =>
      let '(o, tr2, w2) := run handle (f a) w1 in (o, tr1 ++ tr2, w2)
  | (Threw e, tr1, w1) => (Threw e, tr1, w1)
  end.
Proof.
  unfold mbind, Prog_bind. revert w.
  induction p as [a|e|X c k IH]; intros w; simpl.
  - by destruct (run handle (f a) w) as [[o tr] w2].
  - done.
  - destruct (handle X c w) as [x w1]. rewrite IH.
    destruct (run handle (k x) w1) as [[[a|e] tr1] w2]; [|done].
    by destruct (run handle (f a) w2) as [[o tr2] w3].
Qed.

Lemma run_tryCatch {A} (p : Prog E A) (h : Error → Prog E A) (w : W) :
  run handle (tryCatch p h) w =
  match run handle p w with
  | (Returned a, tr1, w1) => (Returned a, tr1, w1)
  | (Threw e, tr1, w1) =>
      let '(o, tr2, w2) := run handle (h e) w1 in (o, tr1 ++ tr2, w2)
  end.
Proof.
  revert w. induction p as [a|e|X c k IH]; intros w; simpl.
  - done.
  - by destruct (run handle (h e) w) as [[o tr] w2].
  - destruct (handle X c w) as [x w1]. rewrite IH.
    destruct (run handle (k x) w1) as [[[a|e] tr1] w2]; [done|].
    by destruct (run handle (h e) w2) as [[o tr2] w3].
Qed.

Lemma run_tryFinally {A} (p : Prog E A) (c : Prog E unit) (w : W) :
  run handle (tryFinally p c) w =
  let '(o, tr1, w1) := run handle p w in
  let '(oc, tr2, w2) := run handle c w1 in
  (match oc with Returned _ => o | Threw e => Threw e end, tr1 ++ tr2, w2).
Proof.
  revert w. induction p as [a|e|X ev k IH]; intros w; simpl.
  - change (bind c (λ _, Ret a)) with (c ≫= λ _, Ret a : Prog E A).
    rewrite run_bind.
    destruct (run handle c w) as [[[[]|e] tr] w2]; simpl;
      by rewrite ?app_nil_r.
  - change (bind c (λ _, Throw e)) with (c ≫= λ _, Throw e : Prog E A).
    rewrite run_bind.
    destruct (run handle c w) as [[[[]|e'] tr] w2]; simpl;
      by rewrite ?app_nil_r.
  - destruct (handle X ev w) as [x w1]. rewrite IH.
    destruct (run handle (k x) w1) as [[o tr1] w2].
    by destruct (run handle c w2) as [[oc tr2] w3].
Qed.

Lemma run_perform {X} (c : E X) (w : W) :
  run handle (perform c) w =
  let '(x, w1) := handle X c w in (Returned x, [Ev c x], w1).
Proof. simpl. by destruct (handle X c w). Qed.

Lemma run_call {X} (c : E (Error + X)%type) (w : W) :
  run handle (call c) w =
  let '(r, w1) := handle _ c w in
  (match r with inl e => Threw e | inr x => Returned x end, [Ev c r], w1).
Proof. simpl. by destruct (handle _ c w) as [[e|x] w1]. Qed.

End run.

(** ** The processor, procedure by procedure *)

Section processor.

Context {W : Type} (handle : ∀ X, ProcessorCall X → W → X * W).

Implicit Types (this : StreamingVPKProcessor.t) (w : W)
  (tr : list (Event ProcessorCall)).

Lemma observe_app tr1 tr2 : observe (tr1 ++ tr2) = observe tr1 ++ observe tr2.
Proof. apply omap_app. Qed.

Ltac run_step :=
  first [ rewrite run_bind | rewrite run_perform | rewrite run_call
        | rewrite run_tryCatch | rewrite run_tryFinally ].

Lemma run_ensureDirectory dir w o tr w' :
  run handle (ensureDirectory dir) w = (o, tr, w') →
  (o = Returned tt ∧
   (observe tr = [] ∨ observe tr = [Mkdir dir (inr tt)])) ∨
  (∃ e, o = Threw e ∧ observe tr = [Mkdir dir (inl e)]).
Proof.
  unfold ensureDirectory. rewrite run_bind, run_perform. answer_of handle.
  destruct x; [intros [= <- <- <-]; auto|].
  rewrite run_call. answer_of handle.
  destruct x as [e|[]]; intros [= <- <- <-]; eauto.
Qed.

Lemma run_firstExisting searchPaths w o tr w' :
  run handle (firstExisting searchPaths) w = (o, tr, w') →
  (∃ found, o = Returned found) ∧ observe tr = [].
Proof.
  revert w tr. induction searchPaths as [|searchPath rest IH]; intros w tr.
  - intros [= <- <- <-]. eauto.
  - simpl. answer_of handle. destruct x; simpl.
    + intros [= <- <- <-]. eauto.
    + destruct (run handle (firstExisting rest) w0) as [[o' tr'] w''] eqn:Hrest.
      intros [= <- <- <-]. by apply IH in Hrest.
Qed.

Lemma run_findVPKDirFile this w o tr w' :
  run handle (findVPKDirFile this) w = (o, tr, w') →
  (∃ found, o = Returned found) ∧ observe tr = [].
Proof.
  unfold findVPKDirFile. rewrite run_bind.
  destruct (run handle (firstExisting _) w) as [[o1 tr1] w1] eqn:Hfirst.
  apply run_firstExisting in Hfirst as [[found ->] Hquiet].
  destruct found as [searchPath|]; cbv beta iota.
  - intros [= <- <- <-]. rewrite observe_app, Hquiet. eauto.
  - rewrite run_bind, run_tryCatch, run_call. answer_of handle.
    destruct x as [e|[]]; intros [= <- <- <-];
      rewrite observe_app, Hquiet; eauto.
Qed.

Lemma run_cleanup this w :
  ∃ tr w', run handle (cleanup this) w = (Returned tt, tr, w') ∧
           cleanupTrace this tr.
Proof.
  unfold cleanup, cleanupTrace. rewrite run_tryCatch, run_bind, run_perform.
  answer_of handle. destruct x.
  - rewrite run_call. answer_of handle. destruct x as [e|[]]; simpl; eauto 6.
  - simpl. eauto.
Qed.

End processor.

Section stages.

Context {W : Type} (handle : ∀ X, ProcessorCall X → W → X * W).

Implicit Types (this : StreamingVPKProcessor.t) (w : W)
  (tr : list (Event ProcessorCall)).

Lemma observe_cons ev tr :
  observe (ev :: tr) =
  match observation ev with
  | Some o => o :: observe tr
  | None => observe tr
  end.
Proof. reflexivity. Qed.

Lemma run_extractFolders this vpkDirPath folders results w o tr w' :
  run handle (extractFolders this vpkDirPath folders results) w = (o, tr, w') →
  (∃ details, length details = length folders ∧
              o = Returned (results ++ details) ∧
              observe tr = decompiled folders details) ∨
  (∃ done folder rest details e,
     folders = done ++ folder :: rest ∧ length details = length done ∧
     o = Threw e ∧
     observe tr = decompiled done details ++ [Decompile folder (inl e)]).
Proof.
  revert results w tr.
  induction folders as [|folder folders IH]; intros results w tr.
  - intros [= <- <- <-]. left. exists []. by rewrite app_nil_r.
  - simpl. answer_of handle. destruct x as [e|result]; simpl.
    + intros [= <- <- <-]. right. by exists [], folder, folders, [], e.
    + destruct (run handle (extractFolders _ _ folders _) w0)
        as [[o' tr'] w''] eqn:Hrest.
      intros [= <- <- <-].
      apply IH in Hrest
        as [(details & Hlen & -> & Hobs)
           |(done & f & rest & details & e & -> & Hlen & -> & Hobs)].
      * left. exists (result :: details).
        rewrite <- app_assoc, observe_cons, Hobs. simpl. by rewrite Hlen.
      * right. exists (folder :: done), f, rest, (result :: details), e.
        rewrite observe_cons, Hobs. simpl. by rewrite Hlen.
Qed.

Lemma successful_count (details : list ExtractResult.t) :
  (0 <? length (filter (λ r, ExtractResult.success r = true) details))%nat
  = true ↔ succeeded details.
Proof.
  unfold succeeded. rewrite Nat.ltb_lt. induction details as [|r details IH].
  - simpl. split; [lia|]. by intros ?%Exists_nil.
  - rewrite filter_cons, Exists_cons. case_decide; simpl; [|tauto].
    split; [auto|lia].
Qed.

Lemma run_extractWithSource2Viewer this vpkDirPath w o tr w' :
  run handle (extractWithSource2Viewer this vpkDirPath) w = (o, tr, w') →
  let folders := StreamingVPKProcessor.vpkFolders this in
  (∃ details summary,
     length details = length folders ∧ o = Returned summary ∧
     ExtractSummary.details summary = details ∧
     (ExtractSummary.success summary = true ↔ succeeded details) ∧
     ExtractSummary.error summary =
       (if ExtractSummary.success summary then None
        else Some (str "No folders could be extracted")) ∧
     observe tr = decompiled folders details) ∨
  (∃ done folder rest details e,
     folders = done ++ folder :: rest ∧ length details = length done ∧
     o = Threw e ∧
     observe tr = decompiled done details ++ [Decompile folder (inl e)]).
Proof.
  unfold extractWithSource2Viewer. rewrite run_bind.
  destruct (run handle (extractFolders _ _ _ _) w) as [[o1 tr1] w1] eqn:Hloop.
  apply run_extractFolders in Hloop
    as [(details & Hlen & -> & Hobs)
       |(done & f & rest & details & e & Hfolders & Hlen & -> & Hobs)].
  - simpl. intros [= <- <- <-]. left. eexists details, _.
    split_and!; [done|reflexivity|done|apply successful_count| |].
    + simpl. by destruct (length (filter _ details)).
    + by rewrite app_nil_r.
  - intros [= <- <- <-]. right. by exists done, f, rest, details, e.
Qed.

Lemma run_findExtractedImages this w o tr w' :
  run handle (findExtractedImages this) w = (o, tr, w') →
  (∃ e, o = Threw e ∧ observe tr = [ImageScan (inl e)]) ∨
  (∃ extractedImages,
     o = Returned extractedImages ∧
     (observe tr = [] ∧ extractedImages = [] ∨
      observe tr = [ImageScan (inr extractedImages)])).
Proof.
  unfold findExtractedImages. rewrite run_bind, run_perform. answer_of handle.
  destruct x.
  - rewrite run_call. answer_of handle.
    destruct x as [e|extractedImages]; intros [= <- <- <-]; eauto 6.
  - intros [= <- <- <-]. eauto 6.
Qed.

Ltac observing H1 H2 :=
  rewrite ?observe_cons, ?observe_app, ?H1, ?H2; simpl; rewrite ?app_nil_r.

Lemma run_fetchAndExtract this appId depotId manifestId vpkDirPath
    requiredArchives w o tr w' :
  run handle (fetchAndExtract this appId depotId manifestId vpkDirPath
                              requiredArchives) w = (o, tr, w') →
  shardsEnd this requiredArchives o (observe tr).
Proof.
  unfold fetchAndExtract, downloadRequiredArchives.
  rewrite !run_bind, run_call. answer_of handle.
  destruct x as [e|downloadResult].
  { intros [= <- <- <-]. apply batchThrew. }
  destruct (DownloadResult.success downloadResult) eqn:Hbatch; cbn [run].
  2: { intros [= <- <- <-]. by apply batchFailed. }
  rewrite run_bind.
  destruct (run handle (extractWithSource2Viewer _ _) w0)
    as [[o1 tr1] w1] eqn:Hextract.
  apply run_extractWithSource2Viewer in Hextract
    as [(details & summary & Hlen & -> & _ & Hsuccess & _ & Hobs)
       |(done & f & rest & details & e & Hfolders & Hlen & -> & Hobs)];
    cbv beta iota zeta.
  2: { intros [= <- <- <-]. observing Hobs Hobs.
       by eapply decompilerThrew. }
  destruct (ExtractSummary.success summary) eqn:Hsummary.
  - rewrite run_bind.
    destruct (run handle (findExtractedImages this) w1)
      as [[o2 tr2] w2] eqn:Hscan.
    apply proj1 in Hsuccess. specialize (Hsuccess eq_refl).
    apply run_findExtractedImages in Hscan
      as [(e & -> & Hscan)|(extractedImages & -> & Hscan)].
    + intros [= <- <- <-].
      observing Hobs Hscan.
      by apply imageScanThrew.
    + cbn [run]. intros [= <- <- <-].
      observing Hobs Hobs.
      apply imagesCounted; [done..|]. destruct Hscan as [[-> ->]| ->]; auto.
  - cbn [run]. intros [= <- <- <-].
    observing Hobs Hobs.
    apply nothingExtracted; [done..|].
    intros Hsome%Hsuccess. congruence.
Qed.

Lemma run_pipeline this appId depotId manifestId w o tr w' :
  run handle (pipeline this appId depotId manifestId) w = (o, tr, w') →
  pipelineEnds this o (observe tr).
Proof.
  unfold pipeline. rewrite run_bind, run_call. answer_of handle.
  destruct x as [e|dirResult].
  { intros [= <- <- <-]. apply directoryFetchThrew. }
  destruct (DownloadResult.success dirResult) eqn:Hdir; cbv beta iota.
  2: { intros [= <- <- <-]. by apply directoryUnavailable. }
  simpl negb. cbv beta iota. rewrite run_bind.
  destruct (run handle (findVPKDirFile this) w0) as [[o1 tr1] w1] eqn:Hfind.
  apply run_findVPKDirFile in Hfind as [[found ->] Hquiet].
  destruct found as [vpkDirPath|]; cbv beta iota.
  2: { intros [= <- <- <-]. observing Hquiet Hquiet.
       by apply directoryNotFound. }
  rewrite run_bind, run_call. answer_of handle. destruct x as [e|vpkDir].
  { intros [= <- <- <-]. observing Hquiet Hquiet.
    by apply loadThrew. }
  cbv beta iota zeta.
  destruct (getRequiredVPKArchives _ vpkDir) as [|i plan] eqn:Hplan.
  { intros [= <- <- <-]. observing Hquiet Hquiet.
    by apply nothingToDo. }
  destruct (run handle (fetchAndExtract _ _ _ _ _ _) w2)
    as [[o2 tr2] w3] eqn:Hrest.
  apply run_fetchAndExtract in Hrest.
  intros [= <- <- <-]. observing Hquiet Hquiet.
  apply planned; [done|by rewrite Hplan|by rewrite Hplan].
Qed.

End stages.

Section whole_run.

Context {W : Type} (handle : ∀ X, ProcessorCall X → W → X * W).

Implicit Types (this : StreamingVPKProcessor.t) (w : W)
  (tr : list (Event ProcessorCall)).

Lemma cleanupTrace_observe this tr :
  cleanupTrace this tr →
  observe tr = [] ∨
  observe tr = [Remove (StreamingVPKProcessor.tempVpkDir this) true true].
Proof. intros [->|[answer ->]]; auto. Qed.

(** Every run of [processVPKFiles] either ends in the directory set-up,
    before the [try] block, or is a run of the pipeline followed by
    [cleanup]. *)
Lemma run_processVPKFiles this appId depotId manifestId w :
  let r := run handle (processVPKFiles this appId depotId manifestId) w in
  (∃ e, outcome r = Threw e ∧ setupThrew e (observe (trace r))) ∨
  (∃ setup body final,
     observe (trace r) = setup ++ body ++ final ∧ setupDone setup ∧
     pipelineEnds this (outcome r) body ∧
     (final = [] ∨
      final = [Remove (StreamingVPKProcessor.tempVpkDir this) true true]) ∧
     ∃ before after,
       trace r = before ++ after ∧ cleanupTrace this after ∧
       observe before = setup ++ body).
Proof.
  cbv zeta. unfold processVPKFiles, trace, outcome. rewrite run_bind.
  destruct (run handle (ensureDirectory _) w) as [[o1 tr1] w1] eqn:Hfirst.
  apply run_ensureDirectory in Hfirst as [[-> Hobs1]|(e & -> & Hobs1)].
  2: { left. exists e. split; [done|]. eexists [], _. simpl.
       split; [by rewrite Hobs1|constructor]. }
  assert (setupDone (observe tr1)) as Hdone1.
  { destruct Hobs1 as [-> | ->]; repeat constructor. by eexists. }
  rewrite run_bind.
  destruct (run handle (ensureDirectory _) w1) as [[o2 tr2] w2] eqn:Hsecond.
  apply run_ensureDirectory in Hsecond as [[-> Hobs2]|(e & -> & Hobs2)].
  2: { left. exists e. split; [done|]. eexists (observe tr1), _. simpl.
       by rewrite observe_app, Hobs2. }
  assert (setupDone (observe tr2)) as Hdone2.
  { destruct Hobs2 as [-> | ->]; repeat constructor. by eexists. }
  rewrite run_tryFinally.
  destruct (run handle (pipeline _ _ _ _) w2) as [[o3 tr3] w3] eqn:Hpipeline.
  apply run_pipeline in Hpipeline.
  destruct (run_cleanup handle this w3) as (tr4 & w4 & -> & Hcleanup).
  right. exists (observe (tr1 ++ tr2)), (observe tr3), (observe tr4). simpl.
  split_and!.
  - by rewrite !observe_app, <- app_assoc.
  - rewrite observe_app. by apply Forall_app.
  - done.
  - by apply cleanupTrace_observe.
  - exists (tr1 ++ tr2 ++ tr3), tr4.
    split_and!; [by rewrite <- !app_assoc|done|].
    by rewrite !observe_app, <- app_assoc.
Qed.

End whole_run.

(** ** Claims about whole runs *)

Section claims.

Context {W : Type} (handle : ∀ X, ProcessorCall X → W → X * W).

Implicit Types (this : StreamingVPKProcessor.t) (w : W)
  (tr : list (Event ProcessorCall)) (obs : list Observation).

Lemma omap_decompiled {A} (g : Observation → option A) folders details :
  (∀ folder answer, g (Decompile folder answer) = None) →
  omap g (decompiled folders details) = [].
Proof.
  intros Hg. unfold decompiled. revert details.
  induction folders as [|folder folders IH]; intros [|r details]; simpl;
    rewrite ?Hg; auto.
Qed.

Lemma omap_setupDone {A} (g : Observation → option A) obs :
  (∀ path answer, g (Mkdir path answer) = None) →
  setupDone obs → omap g obs = [].
Proof.
  intros Hg. induction 1 as [|o obs [path ->] _ IH]; simpl; [done|].
  by rewrite Hg.
Qed.

Lemma decompilations_decompiled folders details :
  decompilations (decompiled folders details) = zip folders (inr <$> details).
Proof.
  unfold decompiled, decompilations. revert details.
  induction folders as [|folder folders IH]; intros [|r details]; simpl;
    by rewrite ?IH.
Qed.

Lemma selectsNothing_plan vpkFolders vpkDir :
  selectsNothing vpkFolders vpkDir →
  getRequiredVPKArchives vpkFolders vpkDir = [].
Proof.
  intros Hnothing. apply elem_of_nil_inv. intros i Hi.
  apply elem_of_getRequiredVPKArchives
    in Hi as (fileName & folder & fileInfo & Hfile & Hfolder & Hstarts & _).
  unfold selectsNothing in Hnothing. rewrite Forall_forall in Hnothing.
  specialize (Hnothing fileName Hfile). rewrite Forall_forall in Hnothing.
  specialize (Hnothing folder Hfolder). congruence.
Qed.

Lemma loads_app obs1 obs2 : loads (obs1 ++ obs2) = loads obs1 ++ loads obs2.
Proof. apply omap_app. Qed.
Lemma batchFetches_app obs1 obs2 :
  batchFetches (obs1 ++ obs2) = batchFetches obs1 ++ batchFetches obs2.
Proof. apply omap_app. Qed.
Lemma downloaderCalls_app obs1 obs2 :
  downloaderCalls (obs1 ++ obs2) = downloaderCalls obs1 ++ downloaderCalls obs2.
Proof. apply omap_app. Qed.
Lemma decompilations_app obs1 obs2 :
  decompilations (obs1 ++ obs2) = decompilations obs1 ++ decompilations obs2.
Proof. apply omap_app. Qed.
Lemma removals_app obs1 obs2 :
  removals (obs1 ++ obs2) = removals obs1 ++ removals obs2.
Proof. apply omap_app. Qed.

Lemma loads_setupDone obs : setupDone obs → loads obs = [].
Proof. by apply omap_setupDone. Qed.
Lemma batchFetches_setupDone obs : setupDone obs → batchFetches obs = [].
Proof. by apply omap_setupDone. Qed.
Lemma downloaderCalls_setupDone obs : setupDone obs → downloaderCalls obs = [].
Proof. by apply omap_setupDone. Qed.
Lemma decompilations_setupDone obs : setupDone obs → decompilations obs = [].
Proof. by apply omap_setupDone. Qed.
Lemma removals_setupDone obs : setupDone obs → removals obs = [].
Proof. by apply omap_setupDone. Qed.

Lemma loads_decompiled folders details :
  loads (decompiled folders details) = [].
Proof. by apply omap_decompiled. Qed.
Lemma batchFetches_decompiled folders details :
  batchFetches (decompiled folders details) = [].
Proof. by apply omap_decompiled. Qed.
Lemma downloaderCalls_decompiled folders details :
  downloaderCalls (decompiled folders details) = [].
Proof. by apply omap_decompiled. Qed.
Lemma removals_decompiled folders details :
  removals (decompiled folders details) = [].
Proof. by apply omap_decompiled. Qed.

Lemma scanAnswers_app obs1 obs2 :
  scanAnswers (obs1 ++ obs2) = scanAnswers obs1 ++ scanAnswers obs2.
Proof. apply omap_app. Qed.
Lemma scanAnswers_setupDone obs : setupDone obs → scanAnswers obs = [].
Proof. by apply omap_setupDone. Qed.
Lemma scanAnswers_decompiled folders details :
  scanAnswers (decompiled folders details) = [].
Proof. by apply omap_decompiled. Qed.

End claims.

Create Rewrite HintDb shown.

#[export] Hint Rewrite @observe_app loads_app batchFetches_app
  downloaderCalls_app decompilations_app removals_app
  loads_decompiled batchFetches_decompiled downloaderCalls_decompiled
  removals_decompiled decompilations_decompiled : shown.
#[export] Hint Rewrite loads_setupDone batchFetches_setupDone
  downloaderCalls_setupDone decompilations_setupDone removals_setupDone
  using assumption : shown.
#[export] Hint Rewrite scanAnswers_app scanAnswers_decompiled : shown.
#[export] Hint Rewrite scanAnswers_setupDone using assumption : shown.

(** Compute what a trace shows of each kind. *)
Ltac shown :=
  repeat (progress (autorewrite with shown; simpl)); rewrite ?app_nil_r.

(** ** The scans for extracted images *)

Section scans.

Context {W : Type} (handle : ∀ X, ProcessorCall X → W → X * W).

Implicit Types (this : StreamingVPKProcessor.t) (w : W)
  (tr : list (Event ProcessorCall)) (obs : list Observation).

Lemma scanAnswers_observe tr : scanAnswers (observe tr) = (imageScans tr).*2.
Proof.
  induction tr as [|[X c answer] tr IH]; [done|].
  unfold scanAnswers, imageScans, observe in *.
  destruct c as [X' c'| | | | | |]; [destruct c'|..]; simpl;
    first [exact IH | f_equal; exact IH].
Qed.

Lemma scansOnly_bind {A B} dir (p : Processor A) (f : A → Processor B) :
  scansOnly dir p → (∀ a, scansOnly dir (f a)) → scansOnly dir (p ≫= f).
Proof.
  unfold mbind, Prog_bind. intros Hp Hf.
  induction p as [a|e|X c k IH]; simpl in *; [done..|].
  destruct Hp as [? Hk]. split; [done|]. intros x. by apply IH.
Qed.

Lemma scansOnly_tryCatch {A} dir (p : Processor A) h :
  scansOnly dir p → (∀ e, scansOnly dir (h e)) → scansOnly dir (tryCatch p h).
Proof.
  intros Hp Hh. induction p as [a|e|X c k IH]; simpl in *; [done..|].
  destruct Hp as [? Hk]. split; [done|]. intros x. by apply IH.
Qed.

Lemma scansOnly_tryFinally {A} dir (p : Processor A) c :
  scansOnly dir p → scansOnly dir c → scansOnly dir (tryFinally p c).
Proof.
  intros Hp Hc. induction p as [a|e|X c' k IH]; simpl in *.
  - by apply (scansOnly_bind dir c (λ _, Ret a)).
  - by apply (scansOnly_bind dir c (λ _, Throw e)).
  - destruct Hp as [? Hk]. split; [done|]. intros x. by apply IH.
Qed.

Lemma scansOnly_run {A} dir (p : Processor A) w :
  scansOnly dir p →
  Forall (λ scan, scan.1 = dir) (imageScans (trace (run handle p w))).
Proof.
  revert w. induction p as [a|e|X c k IH]; intros w Hp; simpl;
    [by apply Forall_nil..|].
  destruct Hp as [Hc Hk]. destruct (handle X c w) as [x w1].
  specialize (IH x w1 (Hk x)). unfold trace in *.
  destruct (run handle (k x) w1) as [[o tr] w2]. simpl in *.
  unfold imageScans in *. simpl.
  destruct c; simpl; try done. constructor; [|done]. simpl. by apply Hc.
Qed.

Lemma scansOnly_perform {X} dir (c : ProcessorCall X) :
  (∀ d, scanned c = Some d → d = dir) → scansOnly dir (perform c).
Proof. by split. Qed.

Lemma scansOnly_call {X} dir (c : ProcessorCall (Error + X)) :
  (∀ d, scanned c = Some d → d = dir) → scansOnly dir (call c).
Proof. split; [done|]. by intros [e|x]. Qed.

(** Take a program apart down to its calls. *)
Ltac scans :=
  repeat first
    [ apply scansOnly_bind; [|intros ?]
    | apply scansOnly_tryCatch; [|intros ?]
    | apply scansOnly_tryFinally
    | apply scansOnly_perform; simpl
    | apply scansOnly_call; simpl
    | exact I
    | match goal with
      | |- scansOnly _ (if ?b then _ else _) => destruct b
      | |- scansOnly _ (match ?x with Some _ => _ | None => _ end) =>
          destruct x
      | |- scansOnly _ (match ?x with [] => _ | _ :: _ => _ end) => destruct x
      end ].

Lemma scansOnly_ensureDirectory dir path :
  scansOnly dir (ensureDirectory path).
Proof. unfold ensureDirectory. by scans. Qed.

Lemma scansOnly_firstExisting dir searchPaths :
  scansOnly dir (firstExisting searchPaths).
Proof.
  induction searchPaths as [|searchPath rest IH]; [done|].
  cbn [firstExisting]. by scans.
Qed.

Lemma scansOnly_extractFolders this vpkDirPath folders results :
  scansOnly (StreamingVPKProcessor.outputDir this)
            (extractFolders this vpkDirPath folders results).
Proof.
  revert results. induction folders as [|folder rest IH]; intros results;
    [done|].
  cbn [extractFolders]. scans; [done|apply IH].
Qed.

Lemma scansOnly_processVPKFiles this appId depotId manifestId :
  scansOnly (StreamingVPKProcessor.outputDir this)
            (processVPKFiles this appId depotId manifestId).
Proof.
  unfold processVPKFiles, pipeline, cleanup, findVPKDirFile, fetchAndExtract,
    downloadRequiredArchives, extractWithSource2Viewer, findExtractedImages.
  cbv zeta.
  scans; try done; try apply scansOnly_ensureDirectory;
    try apply scansOnly_firstExisting; try apply scansOnly_extractFolders.
  by intros d [= <-].
Qed.

(** The scans of a run with their directory, from their answers. *)
Lemma imageScans_of_run this appId depotId manifestId w :
  let r := run handle (processVPKFiles this appId depotId manifestId) w in
  imageScans (trace r)
  = (λ answer, (StreamingVPKProcessor.outputDir this, answer))
      <$> scanAnswers (observe (trace r)).
Proof.
  cbv zeta. rewrite scanAnswers_observe.
  pose proof (scansOnly_run _ _ w
                (scansOnly_processVPKFiles this appId depotId manifestId))
    as Hall.
  revert Hall. generalize (imageScans (trace (run handle
    (processVPKFiles this appId depotId manifestId) w))).
  induction 1 as [|[d answer] scans Hd _ IH]; [done|].
  simpl in Hd. subst d. rewrite !fmap_cons. by f_equal.
Qed.

End scans.

Section whole_run_claims.

Context {W : Type} (handle : ∀ X, ProcessorCall X → W → X * W).

Implicit Types (this : StreamingVPKProcessor.t) (w : W)
  (tr : list (Event ProcessorCall)) (obs : list Observation).

(** What the stages after planning show of each kind. *)
Lemma shardsEnd_shows this requiredArchives o obs :
  shardsEnd this requiredArchives o obs →
  loads obs = [] ∧
  ∃ answer rest,
    obs = BatchFetch (map archivePattern requiredArchives) answer :: rest ∧
    batchFetches rest = [] ∧ downloaderCalls rest = [] ∧
    (∀ downloadResult,
       answer = inr downloadResult →
       DownloadResult.success downloadResult = false →
       o = Threw (batchFailure downloadResult) ∧ rest = []) ∧
    (∀ e, answer = inl e → o = Threw e ∧ rest = []).
Proof.
  destruct 1 as [| | | | |? ? scan ? ? ? ? Hscan];
    (split; [change (loads (?o :: ?l)) with (loads l); shown;
             by destruct_or?; destruct_and?; subst|]);
    eexists _, _; (split; [reflexivity|]); shown;
    (split_and!; [by destruct_or?; destruct_and?; subst..| |]);
    intros; simplify_eq; try done; congruence.
Qed.

(** C3. When no selector is a prefix of any entry of the loaded directory
    (no selector at all, for one), the plan is empty and the run of a new
    processor returns the Run Result with all counters 0 and no error entry,
    without a batched fetch and without a decompiler invocation. *)
Theorem empty_plan_is_nothing_to_do outputDir vpkFolders appId depotId
    manifestId vpkDir w :
  let this := newStreamingVPKProcessor outputDir vpkFolders in
  let r := run handle (processVPKFiles this appId depotId manifestId) w in
  selectsNothing vpkFolders vpkDir →
  loads (observe (trace r)) = [inr vpkDir] →
  getRequiredVPKArchives vpkFolders vpkDir = [] ∧
  outcome r = Returned {| Results.downloaded := 0; Results.extracted := 0;
                          Results.failed := 0; Results.errors := [] |} ∧
  batchFetches (observe (trace r)) = [] ∧
  decompilations (observe (trace r)) = [].
Proof.
  intros this r Hnothing%selectsNothing_plan Hloads.
  split; [done|]. revert Hloads. subst r this.
  destruct (run_processVPKFiles handle
              (newStreamingVPKProcessor outputDir vpkFolders)
              appId depotId manifestId w)
    as [(e & _ & made & path & -> & Hmade)
       |(setup & body & final & -> & Hsetup & Hends & Hfinal & _)].
  { by shown. }
  destruct Hends as [| | | | ? ? vpkDir' ? Hplan | ? ? vpkDir' o obs ? Hplan Hshards].
  1-4: by destruct Hfinal as [-> | ->]; shown.
  - by destruct Hfinal as [-> | ->]; shown; intros [= ->].
  - apply shardsEnd_shows in Hshards as [Hnoload _].
    destruct Hfinal as [-> | ->]; shown;
      change (loads (?o :: ?l)) with (loads l); simpl;
      rewrite ?loads_app, Hnoload; simpl; intros [= ->]; done.
Qed.

(** The batched fetch of a run: how many, with which patterns, and what its
    failure entails. *)
Lemma batched_fetch_facts this appId depotId manifestId w :
  let r := run handle (processVPKFiles this appId depotId manifestId) w in
  let obs := observe (trace r) in
  (length (batchFetches obs) ≤ 1)%nat ∧
  (∀ vpkDir,
     loads obs = [inr vpkDir] →
     getRequiredVPKArchives (StreamingVPKProcessor.vpkFolders this) vpkDir
       ≠ [] →
     ∃ answer,
       batchFetches obs =
       [(map archivePattern
             (getRequiredVPKArchives (StreamingVPKProcessor.vpkFolders this)
                                     vpkDir), answer)]) ∧
  (∀ filePatterns downloadResult,
     batchFetches obs = [(filePatterns, inr downloadResult)] →
     DownloadResult.success downloadResult = false →
     outcome r = Threw (batchFailure downloadResult) ∧
     decompilations obs = [] ∧
     length (downloaderCalls obs) = 2%nat).
Proof.
  cbv zeta.
  destruct (run_processVPKFiles handle this appId depotId manifestId w)
    as [(e & _ & made & path & -> & Hmade)
       |(setup & body & final & -> & Hsetup & Hends & Hfinal & _)].
  { shown. split_and!; [lia|done..]. }
  destruct Hends as [| | | | ? ? vpkDir' ? Hplan | ? ? vpkDir' o obs ? Hplan Hshards].
  1-5: destruct Hfinal as [-> | ->]; shown;
       (split_and!; [lia| |done]); intros ? [= ->]; done.
  apply shardsEnd_shows
    in Hshards as (Hnoload & answer & rest & -> & Hbatch & Hcalls & Hfail & _).
  change (loads (BatchFetch ?ps ?a :: ?l)) with (loads l) in Hnoload.
  assert (batchFetches (final) = [] ∧ loads final = [] ∧
          decompilations final = [] ∧ downloaderCalls final = [])
    as (Hb & Hl & Hd & Hc) by (by destruct Hfinal as [-> | ->]).
  shown. change (loads (BatchFetch ?ps ?a :: ?l)) with (loads l).
  rewrite ?batchFetches_app, ?loads_app, ?downloaderCalls_app,
    ?decompilations_app, Hbatch, Hcalls, Hnoload, Hb, Hl, Hd, Hc.
  simpl. split_and!; [lia| |].
  - intros ? [= ->] _. by exists answer.
  - intros ? downloadResult [= <- ->] Hfailed.
    destruct (Hfail downloadResult eq_refl Hfailed) as [-> ->]. done.
Qed.

(** C4. A run issues at most one batched fetch; once a directory with a
    non-empty plan is loaded it issues exactly one, with one file pattern per
    planned index, in order; and when that fetch reports failure the run
    throws, with no decompiler invocation and no further call to the
    downloader. *)
Theorem one_batched_fetch this appId depotId manifestId w :
  let r := run handle (processVPKFiles this appId depotId manifestId) w in
  let obs := observe (trace r) in
  (length (batchFetches obs) ≤ 1)%nat ∧
  (∀ vpkDir,
     loads obs = [inr vpkDir] →
     getRequiredVPKArchives (StreamingVPKProcessor.vpkFolders this) vpkDir
       ≠ [] →
     ∃ answer,
       batchFetches obs =
       [(map archivePattern
             (getRequiredVPKArchives (StreamingVPKProcessor.vpkFolders this)
                                     vpkDir), answer)]) ∧
  (∀ filePatterns downloadResult,
     batchFetches obs = [(filePatterns, inr downloadResult)] →
     DownloadResult.success downloadResult = false →
     outcome r = Threw (batchFailure downloadResult) ∧
     decompilations obs = [] ∧
     length (downloaderCalls obs) = 2%nat).
Proof. apply batched_fetch_facts. Qed.

(** The decompiler invocations of a run and what they entail for its
    outcome: none; or a prefix of the selectors, the last invocation having
    thrown; or all the selectors in order, and then the scan for the
    extracted images when some selector succeeded. *)
Lemma decompilations_of_run this appId depotId manifestId w :
  let r := run handle (processVPKFiles this appId depotId manifestId) w in
  let obs := observe (trace r) in
  let folders := StreamingVPKProcessor.vpkFolders this in
  let results := StreamingVPKProcessor.results this in
  decompilations obs = [] ∨
  (∃ done folder rest details e,
     folders = done ++ folder :: rest ∧ length details = length done ∧
     decompilations obs = zip done (inr <$> details) ++ [(folder, inl e)] ∧
     outcome r = Threw e) ∨
  (∃ details,
     length details = length folders ∧
     decompilations obs = zip folders (inr <$> details) ∧
     (¬ succeeded details ∧ outcome r = Returned (recordFailure results) ∨
      succeeded details ∧
      ((∃ e, outcome r = Threw e ∧ scanAnswers obs = [inl e]) ∨
       (∃ vpkDir extractedImages,
          loads obs = [inr vpkDir] ∧
          outcome r =
            Returned (recordExtraction results
                        (getRequiredVPKArchives folders vpkDir)
                        extractedImages) ∧
          (scanAnswers obs = [] ∧ extractedImages = [] ∨
           scanAnswers obs = [inr extractedImages]))))).
Proof.
  cbv zeta.
  destruct (run_processVPKFiles handle this appId depotId manifestId w)
    as [(e & _ & made & path & -> & Hmade)
       |(setup & body & final & -> & Hsetup & Hends & Hfinal & _)].
  { left. by shown. }
  assert (decompilations final = [] ∧ loads final = [] ∧
          scanAnswers final = []) as (Hd & Hl & Hs)
    by (by destruct Hfinal as [-> | ->]).
  destruct Hends as [| | | | |? ? vpkDir o obs ? Hplan Hshards].
  1-5: left; shown; by rewrite Hd.
  destruct Hshards
    as [| |? made folder rest details e ? Hfolders Hlen
        |? details ? Hlen Hnone|? details e ? Hlen Hsome
        |? details scan extractedImages ? Hlen Hsome Hscan].
  1-2: left; shown; by rewrite Hd.
  - right; left. exists made, folder, rest, details, e.
    split_and!; [done..| |done]. shown. by rewrite Hd, app_nil_r.
  - right; right. exists details. split_and!; [done| |by left].
    shown. by rewrite Hd, app_nil_r.
  - right; right. exists details. split_and!; [done| |right].
    { shown. by rewrite Hd, app_nil_r. }
    split; [done|left]. exists e. split; [done|].
    shown. change (scanAnswers (?o :: ?l)) with (scanAnswers l). shown.
    by rewrite Hs.
  - right; right. exists details. split_and!; [done| |right].
    { shown. rewrite Hd. by destruct Hscan as [[-> ->]| ->]; shown. }
    split; [done|right]. exists vpkDir, extractedImages. split_and!; [|done|].
    + shown. change (loads (?o :: ?l)) with (loads l). shown.
      rewrite Hl. by destruct Hscan as [[-> ->]| ->].
    + shown. change (scanAnswers (?o :: ?l)) with (scanAnswers l). shown.
      rewrite Hs. destruct Hscan as [[-> ->]| ->]; auto.
Qed.

Lemma zip_reported (folders : list jsstring)
    (details : list ExtractResult.t) :
  Forall reported (zip folders (inr (A:=Error) <$> details)).
Proof.
  revert details. induction folders as [|folder folders IH];
    intros [|r details]; simpl; constructor; [by exists r|apply IH].
Qed.

Lemma zip_thrown (made folders : list jsstring)
    (details details' : list ExtractResult.t) folder (e : Error) :
  zip made (inr <$> details) ++ [(folder, inl e)]
  ≠ zip folders (inr <$> details').
Proof.
  intros Heq. pose proof (zip_reported folders details') as Hall.
  rewrite <- Heq, Forall_app, Forall_singleton in Hall.
  by destruct Hall as [_ [r ?]].
Qed.

Lemma zip_details (folders : list jsstring)
    (details details' : list ExtractResult.t) :
  length details = length folders → length details' = length folders →
  zip folders (inr (A:=Error) <$> details)
  = zip folders (inr <$> details') →
  details = details'.
Proof.
  intros Hlen Hlen' Heq. apply (f_equal (fmap snd)) in Heq.
  rewrite !snd_zip in Heq by (rewrite length_fmap; lia).
  by apply (inj (fmap inr)) in Heq.
Qed.

Lemma exactlyOneFails_succeeded (details : list ExtractResult.t) :
  (1 < length details)%nat → exactlyOneFails details → succeeded details.
Proof.
  intros Hlen (before & failure & after & -> & _ & Hothers).
  rewrite length_app in Hlen; simpl in Hlen. unfold succeeded.
  rewrite Exists_app, Exists_cons.
  apply Forall_app in Hothers as [Hbefore Hafter].
  destruct before as [|r before]; [destruct after as [|r after]|].
  - simpl in Hlen. lia.
  - apply Forall_cons in Hafter as [? _]. right; right. by left.
  - apply Forall_cons in Hbefore as [? _]. left. by left.
Qed.

(** What [extractWithSource2Viewer] does when every invocation reports. *)
Lemma extraction_reports this vpkDirPath w :
  let x := run handle (extractWithSource2Viewer this vpkDirPath) w in
  let calls := decompilations (observe (trace x)) in
  Forall reported calls →
  calls.*1 = StreamingVPKProcessor.vpkFolders this ∧
  ∃ summary,
    outcome x = Returned summary ∧
    calls.*2 = inr <$> ExtractSummary.details summary ∧
    (ExtractSummary.success summary = true
     ↔ succeeded (ExtractSummary.details summary)) ∧
    ExtractSummary.error summary =
      (if ExtractSummary.success summary then None
       else Some (str "No folders could be extracted")).
Proof.
  cbv zeta. unfold trace, outcome.
  destruct (run handle _ w) as [[o tr] w'] eqn:Hrun. simpl.
  apply run_extractWithSource2Viewer in Hrun
    as [(details & summary & Hlen & -> & <- & Hsuccess & Herror & ->)
       |(made & f & rest & details & e & _ & _ & _ & ->)].
  - intros _. rewrite decompilations_decompiled.
    rewrite fst_zip, snd_zip by (rewrite length_fmap; lia).
    split; [done|]. by exists summary.
  - shown. rewrite Forall_app, Forall_singleton. by intros [_ [r ?]].
Qed.

(** C5, as amended. The decompiler is invoked once per selector, in listed
    order, as long as the invocations report success or failure; a reported
    failure does not stop the loop, and the extraction is a success exactly
    when some selector succeeded.  When more than one selector is processed
    and exactly one fails, the run goes on to count the extracted images: it
    scans the output directory once and, unless that scan throws, returns a
    Run Result whose [extracted] is the number of images the scan returned (0
    when [findExtractedImages] makes no scan) and whose failure count and
    error list are those the processor started with: the failed selector
    leaves no entry, its outcome stays in the [details] of the extraction. *)
Theorem partial_failure_is_tolerated this :
  let folders := StreamingVPKProcessor.vpkFolders this in
  let results := StreamingVPKProcessor.results this in
  let outputDir := StreamingVPKProcessor.outputDir this in
  (∀ vpkDirPath w,
     let x := run handle (extractWithSource2Viewer this vpkDirPath) w in
     let calls := decompilations (observe (trace x)) in
     Forall reported calls →
     calls.*1 = folders ∧
     ∃ summary,
       outcome x = Returned summary ∧
       calls.*2 = inr <$> ExtractSummary.details summary ∧
       (ExtractSummary.success summary = true
        ↔ succeeded (ExtractSummary.details summary))) ∧
  (∀ appId depotId manifestId w details,
     let r := run handle (processVPKFiles this appId depotId manifestId) w in
     let obs := observe (trace r) in
     decompilations obs = zip folders (inr <$> details) →
     length details = length folders →
     (1 < length details)%nat →
     exactlyOneFails details →
     (∃ e, outcome r = Threw e ∧
           imageScans (trace r) = [(outputDir, inl e)]) ∨
     (∃ vpkDir (extractedImages : list Path),
        loads obs = [inr vpkDir] ∧
        (imageScans (trace r) = [(outputDir, inr extractedImages)] ∨
         imageScans (trace r) = [] ∧ extractedImages = []) ∧
        outcome r =
          Returned
            {| Results.downloaded :=
                 N.of_nat (length (getRequiredVPKArchives folders vpkDir));
               Results.extracted := N.of_nat (length extractedImages);
               Results.failed := Results.failed results;
               Results.errors := Results.errors results |})).
Proof.
  cbv zeta. split.
  - intros vpkDirPath w Hreported.
    destruct (extraction_reports this vpkDirPath w Hreported)
      as (? & summary & ? & ? & ? & _). eauto.
  - intros appId depotId manifestId w details Hcalls Hlen Hmany Hone.
    pose proof (exactlyOneFails_succeeded _ Hmany Hone) as Hsome.
    rewrite imageScans_of_run.
    destruct (decompilations_of_run this appId depotId manifestId w)
      as [Hnone|[(made & f & rest & details' & e & _ & _ & Hthrown & _)
                |(details' & Hlen' & Hall & Hend)]].
    + rewrite Hnone in Hcalls. destruct details as [|r [|r' details]];
        simpl in Hmany; try lia.
      destruct (StreamingVPKProcessor.vpkFolders this); done.
    + rewrite Hthrown in Hcalls. by apply zip_thrown in Hcalls.
    + rewrite Hall in Hcalls. apply zip_details in Hcalls as ->; [|done..].
      destruct Hend as [[Hnot _]|[_ Hend]]; [done|].
      destruct Hend
        as [(e & ? & ->)|(vpkDir & extractedImages & ? & ? & Hscan)].
      * left. by exists e.
      * right. exists vpkDir, extractedImages. split_and!; [done| |done].
        destruct Hscan as [[-> ->]| ->]; auto.
Qed.

(** C6, as amended. When every selector's invocation reports failure, the
    extraction reports failure with the error [No folders could be
    extracted], and the run of a new processor still returns its Run Result:
    failed count 1, downloaded and extracted 0, and an empty error list (no
    entry per failed selector). *)
Theorem total_failure_is_counted outputDir vpkFolders :
  let this := newStreamingVPKProcessor outputDir vpkFolders in
  (∀ vpkDirPath w,
     let x := run handle (extractWithSource2Viewer this vpkDirPath) w in
     let calls := decompilations (observe (trace x)) in
     Forall (λ call, ∃ result, call.2 = inr result ∧
                               ExtractResult.success result = false) calls →
     ∃ summary,
       outcome x = Returned summary ∧
       ExtractSummary.success summary = false ∧
       ExtractSummary.error summary
         = Some (str "No folders could be extracted") ∧
       calls.*1 = vpkFolders ∧
       calls.*2 = inr <$> ExtractSummary.details summary) ∧
  (∀ appId depotId manifestId w details,
     let r := run handle (processVPKFiles this appId depotId manifestId) w in
     let obs := observe (trace r) in
     decompilations obs = zip vpkFolders (inr <$> details) →
     length details = length vpkFolders →
     details ≠ [] →
     Forall (λ result, ExtractResult.success result = false) details →
     outcome r =
       Returned {| Results.downloaded := 0; Results.extracted := 0;
                   Results.failed := 1; Results.errors := [] |}).
Proof.
  cbv zeta. split.
  - intros vpkDirPath w Hfailed.
    destruct (extraction_reports
                (newStreamingVPKProcessor outputDir vpkFolders) vpkDirPath w)
      as (Hfolders & summary & Ho & Hdetails & Hsuccess & Herror).
    { eapply Forall_impl; [done|]. intros call (r & ? & _). by exists r. }
    exists summary.
    assert (ExtractSummary.success summary = false) as Hno.
    { apply not_true_is_false. intros Hsome%Hsuccess.
      apply Exists_exists in Hsome as (result & Hin & Hok).
      assert (inr result ∈ (decompilations (observe (trace
                (run handle (extractWithSource2Viewer
                   (newStreamingVPKProcessor outputDir vpkFolders)
                   vpkDirPath) w)))).*2) as Hcall.
      { rewrite Hdetails. by apply list_elem_of_fmap_2. }
      apply list_elem_of_fmap in Hcall as (call & Hsnd & Hcall).
      rewrite Forall_forall in Hfailed.
      destruct (Hfailed call Hcall) as (result' & Hsnd' & Hko). congruence. }
    rewrite Hno in Herror. done.
  - intros appId depotId manifestId w details Hcalls Hlen Hsome Hfailed.
    destruct (decompilations_of_run
                (newStreamingVPKProcessor outputDir vpkFolders)
                appId depotId manifestId w)
      as [Hnone|[(made & f & rest & details' & e & _ & _ & Hthrown & _)
                |(details' & Hlen' & Hall & Hend)]].
    + rewrite Hnone in Hcalls. destruct details; [done|].
      destruct vpkFolders; done.
    + rewrite Hthrown in Hcalls. by apply zip_thrown in Hcalls.
    + rewrite Hall in Hcalls. apply zip_details in Hcalls as ->; [|done..].
      destruct Hend as [[_ ->]|[Hok _]]; [done|].
      apply Exists_exists in Hok as (result & Hin & Hok).
      rewrite Forall_forall in Hfailed. specialize (Hfailed result Hin).
      congruence.
Qed.

(** C7, as amended. When the batched fetch reports failure, whatever its
    error text, the run throws at once the error [Failed to batch download
    VPK archives: ] followed by that text, no selector is processed, and
    [cleanup] still runs; the text is embedded, not inspected. *)
Theorem batch_failure_is_fatal this appId depotId manifestId w filePatterns
    downloadResult :
  let r := run handle (processVPKFiles this appId depotId manifestId) w in
  let obs := observe (trace r) in
  batchFetches obs = [(filePatterns, inr downloadResult)] →
  DownloadResult.success downloadResult = false →
  outcome r =
    Threw (mkError (str "Failed to batch download VPK archives: " ++
                    interpolate "undefined"
                      (DownloadResult.error downloadResult))) ∧
  decompilations obs = [] ∧
  ∃ before after, trace r = before ++ after ∧ cleanupTrace this after.
Proof.
  cbv zeta. intros Hbatch Hfailed.
  destruct (batched_fetch_facts this appId depotId manifestId w)
    as (_ & _ & Hfatal).
  destruct (Hfatal _ _ Hbatch Hfailed) as (-> & -> & _).
  split_and!; [done..|].
  destruct (run_processVPKFiles handle this appId depotId manifestId w)
    as [(e & _ & made & path & Hobs & Hmade)
       |(? & ? & ? & _ & _ & _ & _ & before & after & ? & ? & _)];
    [|by exists before, after].
  rewrite Hobs in Hbatch. revert Hbatch. by shown.
Qed.

(** C9, as amended. A run of [processVPKFiles] that gets past the directory
    set-up preceding the [try] block consists of the set-up, the pipeline
    and then [cleanup]: the existence test of the scratch directory and, when
    it exists, its recursive forced removal, whatever the end of the pipeline
    (a Run Result, the early return of an empty plan, or an error).  The only
    other runs are those that a [mkdirSync] of the set-up ends by throwing. *)
Theorem cleanup_follows_the_pipeline this appId depotId manifestId w :
  let r := run handle (processVPKFiles this appId depotId manifestId) w in
  (∃ e, outcome r = Threw e ∧ setupThrew e (observe (trace r))) ∨
  (∃ before after setup body,
     trace r = before ++ after ∧ cleanupTrace this after ∧
     observe before = setup ++ body ∧ setupDone setup ∧
     pipelineEnds this (outcome r) body).
Proof.
  cbv zeta.
  destruct (run_processVPKFiles handle this appId depotId manifestId w)
    as [(e & Ho & Hsetup)
       |(setup & body & final & _ & ? & Hends & _ & before & after & ? & ? & ?)].
  - left. by exists e.
  - right. by exists before, after, setup, body.
Qed.

End whole_run_claims.

(** ** The downloader *)

Section downloader.

Context {W : Type} (handle : ∀ X, NodeCall X → W → X * W).

Implicit Types (this : DepotDownloader.t) (w : W)
  (tr : list (Event NodeCall)).

Lemma steps_app tr1 tr2 : steps (tr1 ++ tr2) = steps tr1 ++ steps tr2.
Proof. apply omap_app. Qed.

Lemma steps_cons ev tr :
  steps (ev :: tr) =
  match step ev with
  | Some s => s :: steps tr
  | None => steps tr
  end.
Proof. reflexivity. Qed.

Lemma schedule_cons command attempt result results :
  results ≠ [] →
  schedule command attempt (result :: results) =
  Attempt command result :: Wait (backoffTime attempt)
  :: schedule command (attempt + 1) results.
Proof. by destruct results. Qed.

Lemma retried_nonempty maxAttempts results success :
  (0 < maxAttempts)%nat → retried maxAttempts results success → results ≠ [].
Proof.
  destruct success; simpl.
  - intros _ (earlier & final & -> & _). by destruct earlier.
  - intros ? [_ ?]. destruct results; simpl in *; [lia|done].
Qed.

(** The loop of [runDepotDownloader] from attempt number [attempt] on, with
    [remaining] attempts left. *)
Lemma run_attemptLoop this args description maxAttempts remaining attempt
    w o tr w' :
  N.of_nat remaining + attempt = maxAttempts + 1 →
  run handle (attemptLoop this args description maxAttempts remaining attempt)
      w = (o, tr, w') →
  ∃ results result,
    o = Returned result ∧
    steps tr =
      schedule (commandLine this args) attempt results ∧
    retried remaining results (RunResult.success result) ∧
    (RunResult.success result = false →
     RunResult.error result = Some (str "Max attempts exceeded")) ∧
    (RunResult.success result = true →
     RunResult.output result = CommandResult.output <$> last results ∧
     RunResult.error result = None).
Proof.
  revert attempt w tr.
  induction remaining as [|remaining IH]; intros attempt w tr Hcount.
  - intros [= <- <- <-]. eexists [], _. split_and!; [done..|].
    simpl. discriminate.
  - simpl. do 3 answer_of handle.
    destruct (CommandResult.success x0) eqn:Hsuccess; simpl.
    + intros [= <- <- <-]. eexists [x0], _. split_and!; [done..| | |done].
      * exists [], x0. split_and!; [done..|simpl; lia].
      * simpl. discriminate.
    + destruct (attempt <? maxAttempts) eqn:Hmore; simpl.
      * answer_of handle.
        destruct (run handle (attemptLoop _ _ _ _ remaining _) w3)
          as [[o' tr'] w''] eqn:Hrest.
        intros [= <- <- <-].
        apply IH in Hrest as (results & result & -> & Hsteps & Hretried
                              & Herror & Houtput); [|lia].
        apply N.ltb_lt in Hmore.
        assert (results ≠ []) as Hsome
          by (eapply retried_nonempty; [|done]; lia).
        exists (x0 :: results), result. split_and!; [done| | |done|].
        -- rewrite schedule_cons by done. rewrite <- Hsteps. done.
        -- destruct (RunResult.success result); simpl in *.
           ++ destruct Hretried as (earlier & final & -> & ? & ? & ?).
              exists (x0 :: earlier), final.
              split_and!; [done|by constructor|done|simpl in *; lia].
           ++ destruct Hretried as [? ?]. split; [by constructor|simpl; lia].
        -- intros Hok. destruct (Houtput Hok) as [-> ->].
           by destruct results.
      * apply N.ltb_ge in Hmore.
        assert (remaining = 0%nat) as -> by lia.
        intros [= <- <- <-]. eexists [x0], _. split_and!; [done..| |done|].
        -- simpl. split; [by constructor|done].
        -- simpl. discriminate.
Qed.

Lemma run_runDepotDownloader this args description maxAttempts w o tr w' :
  run handle (runDepotDownloader this args description maxAttempts) w
  = (o, tr, w') →
  ∃ results result,
    o = Returned result ∧
    steps tr =
      schedule (commandLine this args) 1 results ∧
    retried (N.to_nat maxAttempts) results (RunResult.success result) ∧
    (RunResult.success result = false →
     RunResult.error result = Some (str "Max attempts exceeded")) ∧
    (RunResult.success result = true →
     RunResult.output result = CommandResult.output <$> last results ∧
     RunResult.error result = None).
Proof. apply run_attemptLoop. lia. Qed.

(** Take the run of the goal one call at a time. *)
Ltac walk :=
  repeat (first
    [ answer_of handle
    | match goal with
      | |- context [if ?b then _ else _] => destruct b
      | |- context [match ?x with inl _ => _ | inr _ => _ end] => destruct x
      end ]; simpl).

(** Close a goal about a run that threw before any attempt. *)
Ltac no_attempt :=
  exists [], []; split_and!; [done|simpl; lia|by intros ? ?; simplify_eq].

Lemma run_ensureDepotDownloaderExists platform this w o tr w' :
  run handle (ensureDepotDownloaderExists platform this) w = (o, tr, w') →
  steps tr = [].
Proof.
  unfold ensureDepotDownloaderExists, downloadDepotDownloader.
  rewrite run_bind, run_perform. answer_of handle. destruct x.
  { by intros [= <- <- <-]. }
  repeat case_bool_decide; simpl; walk; by intros [= <- <- <-].
Qed.

Lemma run_prepareOutput this outputDir w o tr w' :
  run handle (prepareOutput this outputDir) w = (o, tr, w') →
  steps tr = [] ∧
  ∀ output, o = Returned output →
            output = orElse outputDir (DepotDownloader.tempDir this).
Proof.
  unfold prepareOutput. simpl. walk; intros [= <- <- <-]; split; try done;
    by intros ? ?; simplify_eq.
Qed.

Lemma run_downloadWithFileList this appId depotId manifestId output
    fileListPath patterns description w o tr w' :
  run handle (downloadWithFileList this appId depotId manifestId output
                fileListPath patterns description) w = (o, tr, w') →
  ∃ command results,
    steps tr = schedule command 1 results ∧
    (length results ≤ N.to_nat (DepotDownloader.downloadAttempts this))%nat ∧
    ∀ downloadResult,
      o = Returned downloadResult →
      retried (N.to_nat (DepotDownloader.downloadAttempts this)) results
              (DownloadResult.success downloadResult).
Proof.
  unfold downloadWithFileList. rewrite run_bind, run_call. answer_of handle.
  destruct x as [e|[]].
  { intros [= <- <- <-]. no_attempt. }
  rewrite run_bind.
  destruct (run handle (runDepotDownloader _ _ _ _) w0)
    as [[o1 tr1] w1] eqn:Hrun.
  apply run_runDepotDownloader
    in Hrun as (results & result & -> & Hsteps & Hretried & _).
  rewrite run_bind, run_tryCatch, run_call. answer_of handle.
  assert (length results ≤ N.to_nat (DepotDownloader.downloadAttempts this))%nat.
  { destruct (RunResult.success result); simpl in Hretried.
    - by destruct Hretried as (? & ? & _ & _ & _ & ?).
    - destruct Hretried as [_ ?]. lia. }
  destruct x as [e|[]]; simpl; intros [= <- <- <-];
    eexists _, results;
    rewrite ?steps_cons, ?steps_app, Hsteps; simpl; rewrite ?app_nil_r;
    (split_and!; [done..|]); by intros ? ?; simplify_eq.
Qed.

Lemma run_invoke platform this operation w o tr w' :
  run handle (invoke platform this operation) w = (o, tr, w') →
  ∃ command results,
    steps tr = schedule command 1 results ∧
    (length results ≤ N.to_nat (DepotDownloader.downloadAttempts this))%nat ∧
    ∀ downloadResult,
      o = Returned downloadResult →
      retried (N.to_nat (DepotDownloader.downloadAttempts this)) results
              (DownloadResult.success downloadResult).
Proof.
  assert (∀ (rest : Path → Downloader DownloadResult.t) outputDir,
            (∀ output w o tr w',
               run handle (rest output) w = (o, tr, w') →
               ∃ command results,
                 steps tr = schedule command 1 results ∧
                 (length results
                  ≤ N.to_nat (DepotDownloader.downloadAttempts this))%nat ∧
                 ∀ downloadResult,
                   o = Returned downloadResult →
                   retried (N.to_nat (DepotDownloader.downloadAttempts this))
                           results (DownloadResult.success downloadResult)) →
            run handle (ensureDepotDownloaderExists platform this;;
                        output ← prepareOutput this outputDir; rest output) w
            = (o, tr, w') →
            ∃ command results,
              steps tr = schedule command 1 results ∧
              (length results
               ≤ N.to_nat (DepotDownloader.downloadAttempts this))%nat ∧
              ∀ downloadResult,
                o = Returned downloadResult →
                retried (N.to_nat (DepotDownloader.downloadAttempts this))
                        results (DownloadResult.success downloadResult))
    as Hframe.
  { intros rest outputDir Hrest. rewrite run_bind.
    destruct (run handle (ensureDepotDownloaderExists _ _) w)
      as [[o1 tr1] w1] eqn:Hensure.
    apply run_ensureDepotDownloaderExists in Hensure.
    destruct o1 as [installed|e].
    2: { intros [= <- <- <-]. rewrite Hensure. no_attempt. }
    rewrite run_bind.
    destruct (run handle (prepareOutput _ _) w1) as [[o2 tr2] w2] eqn:Hout.
    apply run_prepareOutput in Hout as [Hout _].
    destruct o2 as [output|e].
    2: { intros [= <- <- <-]. rewrite ?steps_app, Hensure, Hout. no_attempt. }
    destruct (run handle (rest output) w2) as [[o3 tr3] w3] eqn:Hop.
    intros [= <- <- <-]. rewrite ?steps_app, Hensure, Hout. simpl.
    by eapply Hrest. }
  destruct operation; simpl; unfold downloadManifest, downloadSpecificFiles,
    downloadMultipleFiles; apply Hframe; clear.
  - intros output w o tr w'. rewrite run_bind.
    destruct (run handle (runDepotDownloader _ _ _ _) w)
      as [[o1 tr1] w1] eqn:Hrun.
    apply run_runDepotDownloader
      in Hrun as (results & result & -> & Hsteps & Hretried & _).
    simpl. intros [= <- <- <-]. eexists _, results.
    rewrite app_nil_r. split_and!; [done| |by intros ? ?; simplify_eq].
    destruct (RunResult.success result); simpl in Hretried.
    + by destruct Hretried as (? & ? & _ & _ & _ & ?).
    + destruct Hretried as [_ ?]. lia.
  - intros output w o tr w'. apply run_downloadWithFileList.
  - intros output w o tr w'. apply run_downloadWithFileList.
Qed.

End downloader.

(** ** The retry policy *)

Lemma schedule_wait command attempt results k :
  (S k < length results)%nat →
  schedule command attempt results !! (2 * k + 1)%nat
  = Some (Wait (backoffTime (attempt + N.of_nat k))).
Proof.
  revert attempt k. induction results as [|result results IH];
    intros attempt k Hk; simpl in Hk; [lia|].
  rewrite schedule_cons by (destruct results; simpl in *; [lia|done]).
  destruct k as [|k]; simpl.
  - by rewrite N.add_0_r.
  - replace (k + S (k + 0))%nat with (S (2 * k))%nat by lia. simpl.
    replace (k + (k + 0))%nat with (2 * k)%nat by lia.
    replace (S (2 * k)) with (2 * k + 1)%nat by lia.
    rewrite IH by lia. do 3 f_equal. lia.
Qed.

(** The calls of a processor to the downloader: the directory fetch, then
    at most the batched fetch; neither is repeated. *)
Lemma downloader_called_once_each {W}
    (handle : ∀ X, ProcessorCall X → W → X * W) this appId depotId
    manifestId w :
  let obs :=
    observe (trace (run handle
                      (processVPKFiles this appId depotId manifestId) w)) in
  downloaderCalls obs = [] ∨
  (∃ filePattern answer,
     downloaderCalls obs = [DirectoryFetch filePattern answer]) ∨
  (∃ filePattern answer filePatterns batchAnswer,
     downloaderCalls obs = [DirectoryFetch filePattern answer;
                            BatchFetch filePatterns batchAnswer]).
Proof.
  cbv zeta.
  destruct (run_processVPKFiles handle this appId depotId manifestId w)
    as [(e & _ & made & path & -> & Hmade)
       |(setup & body & final & -> & Hsetup & Hends & Hfinal & _)].
  { left. by shown. }
  assert (downloaderCalls final = []) as Hquiet
    by (by destruct Hfinal as [-> | ->]).
  destruct Hends as [| | | | |? ? vpkDir o obs ? Hplan Hshards].
  1-5: right; left; shown; rewrite Hquiet; eauto.
  apply shardsEnd_shows
    in Hshards as (_ & answer & rest & -> & _ & Hrest & _).
  right; right. shown.
  change (downloaderCalls (BatchFetch ?ps ?a :: ?l))
    with (BatchFetch ps a :: downloaderCalls l).
  rewrite Hrest, Hquiet. simpl. eauto.
Qed.

(** C8, as amended. Every download operation of a downloader runs its
    command at most [downloadAttempts] times, the value given to the
    constructor: 3 when the option is absent or 0, and 3 as [index.js] sets
    it, but whatever other number the options give.  After a failed attempt
    [k] that is not the last, it waits [min(30000 * 2^(k-1), 120000)]
    milliseconds before attempt [k+1].  It resolves with one outcome: success
    as soon as an attempt succeeds, failure once all the attempts failed.
    The processor calls each operation at most once and never again. *)
Theorem bounded_retry_with_backoff :
  (∀ W (handle : ∀ X, NodeCall X → W → X * W) platform options operation w,
     let this := newDepotDownloader platform options in
     let maxAttempts :=
       N.to_nat (attemptsOrDefault (Options.downloadAttempts options)) in
     let r := run handle (invoke platform this operation) w in
     ∃ command results,
       steps (trace r) = schedule command 1 results ∧
       (length results ≤ maxAttempts)%nat ∧
       (∀ k, (S k < length results)%nat →
             steps (trace r) !! (2 * k + 1)%nat
             = Some (Wait (N.min (30000 * 2 ^ N.of_nat k) 120000))) ∧
       (∀ downloadResult,
          outcome r = Returned downloadResult →
          retried maxAttempts results
                  (DownloadResult.success downloadResult))) ∧
  (attemptsOrDefault None = 3 ∧ attemptsOrDefault (Some 0) = 3 ∧
   ∀ n, n ≠ 0 → attemptsOrDefault (Some n) = n) ∧
  (∀ platform steamUsername steamPassword,
     DepotDownloader.downloadAttempts
       (index.depotDownloader platform steamUsername steamPassword) = 3) ∧
  (∀ W (handle : ∀ X, ProcessorCall X → W → X * W) this appId depotId
     manifestId w,
     let obs :=
       observe (trace (run handle
                         (processVPKFiles this appId depotId manifestId) w))
     in
     downloaderCalls obs = [] ∨
     (∃ filePattern answer,
        downloaderCalls obs = [DirectoryFetch filePattern answer]) ∨
     (∃ filePattern answer filePatterns batchAnswer,
        downloaderCalls obs = [DirectoryFetch filePattern answer;
                               BatchFetch filePatterns batchAnswer])).
Proof.
  split_and!.
  - intros W handle platform options operation w. cbv zeta.
    unfold trace, outcome.
    destruct (run handle _ w) as [[o tr] w'] eqn:Hrun. cbn [fst snd].
    apply run_invoke in Hrun as (command & results & Hsteps & Hlen & Hend).
    exists command, results. split_and!; [done..| |done].
    intros k Hk. rewrite Hsteps, schedule_wait by done.
    unfold backoffTime. by replace (1 + N.of_nat k - 1) with (N.of_nat k) by lia.
  - done.
  - done.
  - by intros [|n].
  - done.
  - intros W handle this appId depotId manifestId w.
    apply downloader_called_once_each.
Qed.

(** ** The manifest identifier *)

Lemma greedy_inv {R} cls (k : jsstring → jsstring → option R) taken s r :
  greedy cls k taken s = Some r →
  ∃ more rest,
    Forall (λ ch, cls ch = true) more ∧ s = more ++ rest ∧
    k (taken ++ more) rest = Some r.
Proof.
  revert taken. induction s as [|ch s IH]; intros taken; simpl.
  - intros Hk. exists [], [].
    split_and!; [constructor|done|by rewrite app_nil_r].
  - destruct (cls ch) eqn:Hcls.
    + destruct (greedy cls k (taken ++ [ch]) s) as [r'|] eqn:Hlonger.
      * intros [= ->]. apply IH in Hlonger as (more & rest & ? & -> & Hk).
        exists (ch :: more), rest. rewrite <- app_assoc in Hk.
        split_and!; [by constructor|done..].
      * intros Hk. exists [], (ch :: s).
        split_and!; [constructor|done|by rewrite app_nil_r].
    + intros Hk. exists [], (ch :: s).
        split_and!; [constructor|done|by rewrite app_nil_r].
Qed.

(** Group 1 holds nothing but a non-empty run of digits. *)
Lemma matchHere_digits re s group1 captured :
  (∀ m, group1 = Some m → digits m) →
  matchHere re s group1 = Some captured →
  ∀ m, captured = Some m → digits m.
Proof.
  revert s group1. induction re as [|[c| |] re IH]; intros s group1 Hgroup;
    simpl.
  - by intros [= <-].
  - destruct s as [|ch s]; [done|]. case_match; [|done]. by apply IH.
  - intros (more & rest & _ & _ & Hk)%greedy_inv. by eapply IH.
  - intros (more & rest & Hmore & _ & Hk)%greedy_inv. simpl in Hk.
    destruct more as [|ch more]; [done|].
    eapply IH; [|done]. by intros m [= <-].
Qed.

(** A pattern with the group captures something whenever it matches. *)
Lemma matchHere_captures re s group1 captured :
  is_Some group1 ∨ DigitsGroup ∈ re →
  matchHere re s group1 = Some captured → is_Some captured.
Proof.
  revert s group1. induction re as [|[c| |] re IH]; intros s group1 Hgroup;
    simpl.
  - intros [= <-]. destruct Hgroup as [?|[]%elem_of_nil]. done.
  - destruct s as [|ch s]; [done|]. case_match; [|done]. apply IH.
    destruct Hgroup as [?|[?|?]%elem_of_cons]; auto. done.
  - intros (more & rest & _ & _ & Hk)%greedy_inv. eapply IH; [|done].
    destruct Hgroup as [?|[?|?]%elem_of_cons]; auto. done.
  - intros (more & rest & Hmore & _ & Hk)%greedy_inv. simpl in Hk.
    destruct more as [|ch more]; [done|]. eapply IH; [|done]. left. eauto.
Qed.

Lemma String_match_digits re s captured :
  DigitsGroup ∈ re → String_match re s = Some captured →
  ∃ m, captured = Some m ∧ digits m.
Proof.
  intros Hgroup. induction s as [|ch s IH]; simpl.
  - destruct (matchHere re [] None) as [c|] eqn:Hhere; [|done].
    intros [= ->].
    destruct (matchHere_captures re [] None captured) as [m ->]; auto.
    exists m. split; [done|].
    by apply (matchHere_digits re _ None _ ltac:(done) Hhere).
  - destruct (matchHere re (ch :: s) None) as [c|] eqn:Hhere; [|done].
    intros [= ->].
    destruct (matchHere_captures re (ch :: s) None captured) as [m ->]; auto.
    exists m. split; [done|].
    by apply (matchHere_digits re _ None _ ltac:(done) Hhere).
Qed.

Lemma manifestPatterns_group :
  Forall (λ pattern, DigitsGroup ∈ pattern) manifestPatterns.
Proof.
  unfold manifestPatterns. repeat constructor;
    rewrite !elem_of_app, ?elem_of_cons; auto.
Qed.

Lemma firstManifestMatch_digits patterns output manifestId :
  Forall (λ pattern, DigitsGroup ∈ pattern) patterns →
  firstManifestMatch patterns output = Some manifestId →
  ∃ pattern m,
    pattern ∈ patterns ∧ String_match pattern output = Some (Some m) ∧
    manifestId = Some m ∧ digits m.
Proof.
  induction 1 as [|pattern patterns Hgroup _ IH]; simpl; [done|].
  destruct (String_match pattern output) as [captured|] eqn:Hmatch.
  - intros [= ->].
    destruct (String_match_digits _ _ _ Hgroup Hmatch) as (m & -> & ?).
    exists pattern, m. split_and!; [apply list_elem_of_here|done..].
  - intros (p & m & ? & ?)%IH. exists p, m.
    split; [by apply list_elem_of_further|done].
Qed.

Section manifest.

Context {W : Type} (handle : ∀ X, NodeCall X → W → X * W).

Lemma attempts_schedule command attempt results :
  (attempts (schedule command attempt results)).*2 = results.
Proof.
  revert attempt. induction results as [|result results IH]; intros attempt;
    [done|].
  destruct results as [|result' results]; [done|].
  rewrite schedule_cons by done. simpl in *. by rewrite IH.
Qed.

Lemma run_getLatestManifestId platform this appId depotId w o tr w' :
  run handle (getLatestManifestId platform this appId depotId) w
  = (o, tr, w') →
  (steps tr = [] ∧ ∃ e, o = Threw e) ∨
  ∃ command results,
    steps tr = schedule command 1 results ∧
    ((Forall failedResult results ∧ length results = 2%nat ∧
      o = Threw (manifestFailure "Max attempts exceeded")) ∨
     (∃ final,
        last results = Some final ∧ CommandResult.success final = true ∧
        o = match firstManifestMatch manifestPatterns
                    (CommandResult.output final) with
            | Some manifestId => Returned manifestId
            | None =>
                Threw (manifestFailure
                         "Could not parse manifest ID from output")
            end)).
Proof.
  unfold getLatestManifestId. rewrite run_bind.
  destruct (run handle (ensureDepotDownloaderExists _ _) w)
    as [[o1 tr1] w1] eqn:Hensure.
  apply run_ensureDepotDownloaderExists in Hensure.
  destruct o1 as [installed|e].
  2: { intros [= <- <- <-]. left. eauto. }
  cbv zeta. rewrite run_bind.
  destruct (run handle (runDepotDownloader _ _ _ _) w1)
    as [[o2 tr2] w2] eqn:Hrun.
  apply run_runDepotDownloader
    in Hrun as (results & result & -> & Hsteps & Hretried & Hko & Hok).
  cbv beta zeta.
  destruct (RunResult.success result) eqn:Hsuccess; simpl in Hretried.
  - destruct Hretried as (earlier & final & -> & _ & Hfinal & _).
    destruct (Hok eq_refl) as [Houtput Herror].
    rewrite last_snoc in Houtput. simpl in Houtput.
    rewrite Houtput, Herror. simpl orElse.
    destruct (firstManifestMatch _ _) as [manifestId|] eqn:Hmatch;
      intros [= <- <- <-]; right; eexists _, _;
      rewrite steps_app, Hensure, app_nil_r;
      (split; [done|right]); exists final; rewrite last_snoc, Hmatch; done.
  - rewrite (Hko eq_refl). intros [= <- <- <-]. right. eexists _, results.
    rewrite steps_app, Hensure, app_nil_r. split; [done|left].
    destruct Hretried as [? ?]. done.
Qed.

End manifest.

(** C10. Whenever [getLatestManifestId] returns, its value is a non-empty
    string of decimal digits: group 1 of the first of the five patterns that
    matches the output of the successful attempt.  When the command has
    failed in all its attempts, and when it has succeeded but no pattern
    matches its output, [getLatestManifestId] throws. *)
Theorem manifest_id_is_digits {W} (handle : ∀ X, NodeCall X → W → X * W)
    platform this appId depotId w :
  let r := run handle (getLatestManifestId platform this appId depotId) w in
  let results := (attempts (steps (trace r))).*2 in
  (∀ v, outcome r = Returned v →
        ∃ manifestId pattern final,
          v = Some manifestId ∧ digits manifestId ∧
          last results = Some final ∧ pattern ∈ manifestPatterns ∧
          String_match pattern (CommandResult.output final)
          = Some (Some manifestId)) ∧
  (Forall failedResult results → ∃ e, outcome r = Threw e) ∧
  (results ≠ [] → Forall failedResult results →
   outcome r = Threw (manifestFailure "Max attempts exceeded")) ∧
  (∀ final,
     last results = Some final → CommandResult.success final = true →
     firstManifestMatch manifestPatterns (CommandResult.output final) = None →
     outcome r =
       Threw (manifestFailure "Could not parse manifest ID from output")).
Proof.
  cbv zeta. unfold trace, outcome.
  destruct (run handle _ w) as [[o tr] w'] eqn:Hrun. cbn [fst snd].
  apply run_getLatestManifestId
    in Hrun as [[-> [e ->]]
               |(command & results & -> &
                 [(Hfailed & Hlen & ->)|(final & Hlast & Hfinal & ->)])];
    rewrite ?attempts_schedule.
  - split_and!; [done|eauto|done|done].
  - split_and!; [done|eauto|done|].
    intros final Hlast Hok _.
    apply last_Some in Hlast as [earlier ->].
    apply Forall_app in Hfailed as [_ [Hlast _]%Forall_cons].
    unfold failedResult in Hlast. congruence.
  - assert (¬ Forall failedResult results) as Hnot.
    { apply last_Some in Hlast as [earlier ->].
      intros [_ [Hlast _]%Forall_cons]%Forall_app.
      unfold failedResult in Hlast. congruence. }
    split_and!; [|done..|].
    + destruct (firstManifestMatch _ _) as [manifestId|] eqn:Hmatch; [|done].
      intros v [= <-].
      apply firstManifestMatch_digits
        in Hmatch as (pattern & m & ? & ? & -> & ?);
        [|apply manifestPatterns_group].
      by exists m, pattern, final.
    + intros final' Hlast'. rewrite Hlast in Hlast'. injection Hlast' as <-.
      by intros _ ->.
Qed.

(** ** The model on examples *)

Example archivePattern_7 : archivePattern 7 = str "csgo/pak01_007\.vpk".
Proof. reflexivity. Qed.

Example archivePattern_1234 :
  archivePattern 1234 = str "csgo/pak01_1234\.vpk".
Proof. reflexivity. Qed.

Example path_join_searchPath :
  path_join [str "./temp_vpk"; str "game"; str "csgo"; str "pak01_dir.vpk"]
  = str "temp_vpk/game/csgo/pak01_dir.vpk".
Proof. by vm_compute. Qed.

Example path_join_dots :
  path_join [str "/a//b/../c/"; str "."; str "../../../x"] = str "/x".
Proof. by vm_compute. Qed.

Example backoffTime_values :
  backoffTime <$> [1; 2; 3; 4; 10]
  = [30000; 60000; 120000; 120000; 120000].
Proof. reflexivity. Qed.

Example match_first_pattern :
  firstManifestMatch manifestPatterns
    (str "Manifest 1597148535702430842 (07/07/2025 21:24:46)")
  = Some (Some (str "1597148535702430842")).
Proof. by vm_compute. Qed.

Example match_is_case_insensitive_and_leftmost :
  String_match (lit "manifest:" ++ [WhiteSpaceStar; DigitsGroup])
               (str "depot MANIFEST:   42abc manifest: 7")
  = Some (Some (str "42")).
Proof. by vm_compute. Qed.

Example match_backtracks_over_a_start :
  String_match (lit "Manifest " ++ [DigitsGroup] ++ lit " (")
               (str "Manifest 12 manifest 345 (")
  = Some (Some (str "345")).
Proof. by vm_compute. Qed.

Example no_pattern_matches :
  firstManifestMatch manifestPatterns (str "Manifest unknown") = None.
Proof. by vm_compute. Qed.

Example disk_space_texts :
  isDiskSpaceError (str "ENOSPC: no space left on device, write") = true ∧
  isDiskSpaceError (str "Max attempts exceeded") = false.
Proof. by vm_compute. Qed.

(** * Concrete runs *)

(** A run on the scenario's directory with a selector that picks nothing. *)
Lemma empty_plan_is_nothing_to_do_witness :
  let this := newStreamingVPKProcessor (str "./static") [str "c/"] in
  let r := run (scripted goodScript)
               (processVPKFiles this 730 2347770 (str "1")) [] in
  selectsNothing [str "c/"] scenarioDir ∧
  loads (observe (trace r)) = [inr scenarioDir] ∧
  outcome r = Returned {| Results.downloaded := 0; Results.extracted := 0;
                          Results.failed := 0; Results.errors := [] |}.
Proof.
  cbv zeta.
  assert (selectsNothing [str "c/"] scenarioDir) as Hnothing
    by (repeat constructor).
  assert (loads (observe (trace (run (scripted goodScript)
            (processVPKFiles
               (newStreamingVPKProcessor (str "./static") [str "c/"])
               730 2347770 (str "1")) []))) = [inr scenarioDir]) as Hloaded
    by (vm_compute; reflexivity).
  split_and!; [exact Hnothing|exact Hloaded|].
  apply (empty_plan_is_nothing_to_do (scripted goodScript) (str "./static")
           [str "c/"] 730 2347770 (str "1") scenarioDir [] Hnothing Hloaded).
Defined.

(** The good run fetches shards 0 and 1 in one batch. *)
Lemma one_batched_fetch_witness :
  let r := run (scripted goodScript)
               (processVPKFiles scenarioProcessor 730 2347770 (str "1")) [] in
  ∃ answer,
    batchFetches (observe (trace r))
    = [([str "csgo/pak01_000\.vpk"; str "csgo/pak01_001\.vpk"], answer)].
Proof.
  cbv zeta.
  destruct (one_batched_fetch (scripted goodScript) scenarioProcessor
              730 2347770 (str "1") []) as (_ & Hone & _).
  apply (Hone scenarioDir); [vm_compute; reflexivity|vm_compute; discriminate].
Defined.

(** Two selectors, the first one's decompilation fails. *)
Lemma partial_failure_is_tolerated_witness :
  let r := run (scripted (decompilerFailing [str "a/"]))
               (processVPKFiles scenarioProcessor 730 2347770 (str "1")) [] in
  exactlyOneFails [extractedNot; extractedOk] ∧
  ((∃ e, outcome r = Threw e ∧
         imageScans (trace r) = [(str "./static", inl e)]) ∨
   (∃ vpkDir (extractedImages : list Path),
      loads (observe (trace r)) = [inr vpkDir] ∧
      (imageScans (trace r) = [(str "./static", inr extractedImages)] ∨
       imageScans (trace r) = [] ∧ extractedImages = []) ∧
      outcome r =
        Returned
          {| Results.downloaded :=
               N.of_nat (length (getRequiredVPKArchives
                                   [str "a/"; str "b/"] vpkDir));
             Results.extracted := N.of_nat (length extractedImages);
             Results.failed := 0;
             Results.errors := [] |})).
Proof.
  cbv zeta.
  assert (exactlyOneFails [extractedNot; extractedOk]) as Hone.
  { exists [], extractedNot, [extractedOk]. repeat constructor. }
  split; [exact Hone|].
  destruct (partial_failure_is_tolerated
              (scripted (decompilerFailing [str "a/"])) scenarioProcessor)
    as [_ Hrun].
  apply (Hrun 730 2347770 (str "1") [] [extractedNot; extractedOk]);
    [vm_compute; reflexivity|reflexivity|simpl; lia|exact Hone].
Defined.

(** C5 fails as stated: one of the two selectors fails and the Run Result
    has no failure entry at all, so none that names the failed selector; its
    failure count stays 0. *)
Lemma partial_failure_leaves_no_entry :
  let r := run (scripted (decompilerFailing [str "a/"]))
               (processVPKFiles scenarioProcessor 730 2347770 (str "1")) [] in
  decompilations (observe (trace r))
  = [(str "a/", inr extractedNot); (str "b/", inr extractedOk)] ∧
  ∃ results,
    outcome r = Returned results ∧
    Results.failed results = 0 ∧
    ¬ ∃ entry, entry ∈ Results.errors results ∧ entry.1 = str "a/".
Proof.
  cbv zeta. split; [vm_compute; reflexivity|].
  exists {| Results.downloaded := 2; Results.extracted := 1;
            Results.failed := 0; Results.errors := [] |}.
  split_and!; [vm_compute; reflexivity|reflexivity|].
  intros (entry & Hentry & _). simpl in Hentry. by apply elem_of_nil in Hentry.
Qed.

(** Two selectors, both decompilations fail. *)
Lemma total_failure_is_counted_witness :
  let r := run (scripted (decompilerFailing [str "a/"; str "b/"]))
               (processVPKFiles scenarioProcessor 730 2347770 (str "1")) [] in
  Forall (λ result, ExtractResult.success result = false)
         [extractedNot; extractedNot] ∧
  outcome r = Returned {| Results.downloaded := 0; Results.extracted := 0;
                          Results.failed := 1; Results.errors := [] |}.
Proof.
  cbv zeta.
  assert (Forall (λ result, ExtractResult.success result = false)
                 [extractedNot; extractedNot]) as Hall
    by (repeat constructor).
  split; [exact Hall|].
  destruct (total_failure_is_counted
              (scripted (decompilerFailing [str "a/"; str "b/"]))
              (str "./static") [str "a/"; str "b/"]) as [_ Hrun].
  apply (Hrun 730 2347770 (str "1") [] [extractedNot; extractedNot]);
    [vm_compute; reflexivity|reflexivity|discriminate|exact Hall].
Defined.

(** C6 fails as stated: both selectors fail and the error list of the Run
    Result is empty, not of length 2. *)
Lemma total_failure_leaves_no_entries :
  let r := run (scripted (decompilerFailing [str "a/"; str "b/"]))
               (processVPKFiles scenarioProcessor 730 2347770 (str "1")) [] in
  decompilations (observe (trace r))
  = [(str "a/", inr extractedNot); (str "b/", inr extractedNot)] ∧
  ∃ results,
    outcome r = Returned results ∧
    length (Results.errors results) = 0%nat ∧
    length (Results.errors results) ≠ 2%nat.
Proof.
  cbv zeta. split; [vm_compute; reflexivity|].
  exists {| Results.downloaded := 0; Results.extracted := 0;
            Results.failed := 1; Results.errors := [] |}.
  split_and!; [vm_compute; reflexivity|reflexivity|discriminate].
Qed.

(** The batched fetch fails for lack of disk space. *)
Lemma batch_failure_is_fatal_witness :
  let r := run (scripted (batchFailing "No space left on device"))
               (processVPKFiles scenarioProcessor 730 2347770 (str "1")) [] in
  outcome r =
    Threw (mkError
             (str "Failed to batch download VPK archives: No space left on device")) ∧
  decompilations (observe (trace r)) = [].
Proof.
  cbv zeta.
  destruct (batch_failure_is_fatal
              (scripted (batchFailing "No space left on device"))
              scenarioProcessor 730 2347770 (str "1") []
              [str "csgo/pak01_000\.vpk"; str "csgo/pak01_001\.vpk"]
              (notFetched "No space left on device"))
    as (Hthrown & Hnone & _);
    [vm_compute; reflexivity|reflexivity|].
  split; [exact Hthrown|exact Hnone].
Defined.

(** C7 fails as stated: the error text is one that the catch handler of
    [extractImagesFromVPK] would take for disk exhaustion, yet the run throws
    the error of any failed batch, not the disk-exhaustion error of that
    handler, for whatever file. *)
Lemma disk_exhaustion_is_not_detected :
  let r := run (scripted (batchFailing "No space left on device"))
               (processVPKFiles scenarioProcessor 730 2347770 (str "1")) [] in
  isDiskSpaceError (str "No space left on device") = true ∧
  outcome r = Threw (batchFailure (notFetched "No space left on device")) ∧
  ∀ fileName, outcome r ≠ Threw (diskSpaceExhausted fileName).
Proof.
  cbv zeta.
  assert (outcome (run (scripted (batchFailing "No space left on device"))
                       (processVPKFiles scenarioProcessor 730 2347770
                                        (str "1")) [])
          = Threw (batchFailure (notFetched "No space left on device")))
    as -> by (vm_compute; reflexivity).
  split_and!; [vm_compute; reflexivity|reflexivity|].
  intros fileName Heq. vm_compute in Heq. discriminate.
Qed.

(** C9 fails as stated: [mkdirSync] throws for the output directory, after
    the scratch directory was made; the run propagates the error, removes
    nothing, and the scratch directory is still there. *)
Lemma setup_failure_skips_cleanup :
  let r := run (scripted (mkdirFailing (str "./static")))
               (processVPKFiles scenarioProcessor 730 2347770 (str "1")) [] in
  outcome r = Threw (mkError (str "EACCES: permission denied, mkdir")) ∧
  removals (observe (trace r)) = [] ∧
  r.2 = [str "./temp_vpk"].
Proof. cbv zeta. split_and!; vm_compute; reflexivity. Qed.

(** The downloader of [index.js], every attempt failing. *)
Lemma bounded_retry_with_backoff_witness :
  let r := run (scriptedNode (λ _, commandFailed))
               (invoke (str "linux")
                  (index.depotDownloader (str "linux") (str "user")
                                         (str "secret"))
                  (MultipleFiles 730 2347770 (str "1")
                     [str "csgo/pak01_000\.vpk"] (Some (str "./temp_vpk"))))
               (0%nat, 0%Z) in
  ∃ command results,
    steps (trace r) = schedule command 1 results ∧
    (length results ≤ 3)%nat.
Proof.
  cbv zeta. destruct bounded_retry_with_backoff as (Hoperation & _).
  destruct (Hoperation _ (scriptedNode (λ _, commandFailed)) (str "linux")
              {| Options.username := str "user";
                 Options.password := str "secret";
                 Options.tempDir := Some index.temp;
                 Options.executablePath := None;
                 Options.downloadAttempts := Some 3 |}
              (MultipleFiles 730 2347770 (str "1")
                 [str "csgo/pak01_000\.vpk"] (Some (str "./temp_vpk")))
              (0%nat, 0%Z))
    as (command & results & Hsteps & Hlen & _).
  exists command, results. split; [exact Hsteps|exact Hlen].
Defined.

(** C8 fails as stated: a downloader constructed with [downloadAttempts: 5]
    runs a failing command five times, with waits of 30, 60, 120 and 120
    seconds. *)
Lemma five_attempts_when_configured :
  let r := run (scriptedNode (λ _, commandFailed))
               (invoke (str "linux") fiveAttempts
                  (MultipleFiles 730 2347770 (str "1")
                     [str "csgo/pak01_000\.vpk"] (Some (str "./temp_vpk"))))
               (0%nat, 0%Z) in
  length (attempts (steps (trace r))) = 5%nat ∧
  ¬ (length (attempts (steps (trace r))) ≤ 3)%nat ∧
  omap (λ s, match s with Wait ms => Some ms | _ => None end)
       (steps (trace r)) = [30000; 60000; 120000; 120000].
Proof.
  cbv zeta.
  assert (length (attempts (steps (trace
            (run (scriptedNode (λ _, commandFailed))
               (invoke (str "linux") fiveAttempts
                  (MultipleFiles 730 2347770 (str "1")
                     [str "csgo/pak01_000\.vpk"] (Some (str "./temp_vpk"))))
               (0%nat, 0%Z))))) = 5%nat) as -> by (vm_compute; reflexivity).
  split_and!; [reflexivity|lia|vm_compute; reflexivity].
Qed.

(** The first attempt fails, the second prints the manifest. *)
Lemma manifest_id_is_digits_witness :
  let r := run (scriptedNode
                  (λ n, if (n =? 1)%nat
                        then commandOutput
                               "Manifest 1597148535702430842 (07/07/2025 21:24:46)"
                        else commandFailed))
               (getLatestManifestId (str "linux")
                  (index.depotDownloader (str "linux") (str "user")
                                         (str "secret")) 730 2347770)
               (0%nat, 0%Z) in
  outcome r = Returned (Some (str "1597148535702430842")) ∧
  digits (str "1597148535702430842").
Proof.
  cbv zeta.
  assert (outcome (run (scriptedNode
                  (λ n, if (n =? 1)%nat
                        then commandOutput
                               "Manifest 1597148535702430842 (07/07/2025 21:24:46)"
                        else commandFailed))
               (getLatestManifestId (str "linux")
                  (index.depotDownloader (str "linux") (str "user")
                                         (str "secret")) 730 2347770)
               (0%nat, 0%Z))
          = Returned (Some (str "1597148535702430842"))) as Hreturned
    by (vm_compute; reflexivity).
  split; [exact Hreturned|].
  destruct (manifest_id_is_digits
              (scriptedNode
                 (λ n, if (n =? 1)%nat
                       then commandOutput
                              "Manifest 1597148535702430842 (07/07/2025 21:24:46)"
                       else commandFailed))
              (str "linux")
              (index.depotDownloader (str "linux") (str "user") (str "secret"))
              730 2347770 (0%nat, 0%Z)) as (Hdigits & _).
  destruct (Hdigits _ Hreturned) as (manifestId & _ & _ & Heq & Hm & _).
  injection Heq as <-. exact Hm.
Defined.

(** * Further properties *)

(** ** More on the shard planner *)

Section planner_more.

Implicit Types (vpkDir : VPK) (folders vpkFolders : list jsstring).

Lemma plans_agree vpkFolders1 vpkDir1 vpkFolders2 vpkDir2 :
  (∀ i, requiredBy vpkFolders1 vpkDir1 i ↔ requiredBy vpkFolders2 vpkDir2 i) →
  getRequiredVPKArchives vpkFolders1 vpkDir1
  = getRequiredVPKArchives vpkFolders2 vpkDir2.
Proof.
  intros Hsame.
  apply (StronglySorted_unique_strong N.lt);
    try apply getRequiredVPKArchives_ascending; [intros; lia|].
  apply NoDup_Permutation; try apply NoDup_getRequiredVPKArchives.
  intros i. by rewrite !elem_of_getRequiredVPKArchives.
Qed.

Lemma requiredBy_app vpkFolders1 vpkFolders2 vpkDir i :
  requiredBy (vpkFolders1 ++ vpkFolders2) vpkDir i ↔
  requiredBy vpkFolders1 vpkDir i ∨ requiredBy vpkFolders2 vpkDir i.
Proof.
  unfold requiredBy. split.
  - intros (f & folder & info & ? & [?|?]%elem_of_app & ?);
      [left|right]; by exists f, folder, info.
  - intros [(f & folder & info & ? & ? & ?)|(f & folder & info & ? & ? & ?)];
      exists f, folder, info; rewrite elem_of_app; auto.
Qed.

(** X1. The plan of two selector lists put together holds exactly the
    indices of the plan of either: adding selectors never removes a shard
    from the plan, and listing every selector twice changes nothing. *)
Theorem plan_of_joined_selectors vpkFolders1 vpkFolders2 vpkDir :
  (∀ i, i ∈ getRequiredVPKArchives (vpkFolders1 ++ vpkFolders2) vpkDir ↔
        i ∈ getRequiredVPKArchives vpkFolders1 vpkDir ∨
        i ∈ getRequiredVPKArchives vpkFolders2 vpkDir) ∧
  getRequiredVPKArchives vpkFolders1 vpkDir
    ⊆ getRequiredVPKArchives (vpkFolders1 ++ vpkFolders2) vpkDir ∧
  getRequiredVPKArchives (vpkFolders1 ++ vpkFolders1) vpkDir
  = getRequiredVPKArchives vpkFolders1 vpkDir.
Proof.
  split_and!.
  - intros i. by rewrite !elem_of_getRequiredVPKArchives, requiredBy_app.
  - intros i. rewrite !elem_of_getRequiredVPKArchives, requiredBy_app. auto.
  - apply plans_agree. intros i. rewrite requiredBy_app. tauto.
Qed.

Lemma startsWith_trans (fileName longer shorter : jsstring) :
  startsWith fileName longer = true → startsWith longer shorter = true →
  startsWith fileName shorter = true.
Proof.
  rewrite !startsWith_spec. intros [rest ->] [rest' ->].
  exists (rest' ++ rest). by rewrite app_assoc.
Qed.

(** X2. A selector that starts with another selector of the list is
    redundant: with or without it the plan is the same. *)
Theorem longer_selector_is_redundant vpkFolders vpkDir (shorter longer : jsstring) :
  shorter ∈ vpkFolders → startsWith longer shorter = true →
  getRequiredVPKArchives (longer :: vpkFolders) vpkDir
  = getRequiredVPKArchives vpkFolders vpkDir.
Proof.
  intros Hin Hprefix. apply plans_agree. intros i. unfold requiredBy. split.
  - intros (f & folder & info & ? & [->|?]%elem_of_cons & Hstarts & ? & ?).
    + exists f, shorter, info. split_and!; [done..| |done|done].
      by eapply startsWith_trans.
    + by exists f, folder, info.
  - intros (f & folder & info & ? & ? & ? & ? & ?). exists f, folder, info.
    split_and!; [done|by apply list_elem_of_further|done..].
Qed.

Lemma length_elems_Set_add x s :
  (length (elems (Set_add x s)) ≤ S (length (elems s)))%nat.
Proof.
  unfold Set_add; simpl. case_bool_decide; [lia|].
  rewrite length_app. simpl. lia.
Qed.

Lemma length_scanFolders vpkDir fileName folders s :
  (length (elems (scanFolders vpkDir fileName folders s))
   ≤ S (length (elems s)))%nat.
Proof.
  induction folders as [|folder rest IH]; simpl; [lia|].
  repeat case_match; try lia. apply length_elems_Set_add.
Qed.

Lemma length_scanFrom folders vpkDir fileNames s :
  (length (elems (scanFrom folders vpkDir fileNames s))
   ≤ length (elems s) + length fileNames)%nat.
Proof.
  revert s. induction fileNames as [|fileName rest IH]; intros s;
    [simpl; lia|].
  rewrite scanFrom_cons. etrans; [apply IH|].
  pose proof (length_scanFolders vpkDir fileName folders s). simpl. lia.
Qed.

(** X3. The plan has at most as many shards as the directory lists
    entries; it is empty when the directory lists none, and when its tree
    has no record at all (listed entries without a record are skipped). *)
Theorem plan_is_no_longer_than_the_listing vpkFolders vpkDir :
  (length (getRequiredVPKArchives vpkFolders vpkDir)
   ≤ length (files vpkDir))%nat ∧
  (files vpkDir = [] → getRequiredVPKArchives vpkFolders vpkDir = []) ∧
  (tree vpkDir = ∅ → getRequiredVPKArchives vpkFolders vpkDir = []).
Proof.
  assert (length (getRequiredVPKArchives vpkFolders vpkDir)
          ≤ length (files vpkDir))%nat as Hlen.
  { unfold getRequiredVPKArchives, sortAscending, Array_from, scanFiles.
    rewrite merge_sort_Permutation.
    apply (length_scanFrom vpkFolders vpkDir (files vpkDir) Set_new). }
  split_and!; [done| |].
  - intros Hnone. rewrite Hnone in Hlen.
    destruct (getRequiredVPKArchives _ _); simpl in *; [done|lia].
  - intros Hnone. apply elem_of_nil_inv. intros i.
    rewrite elem_of_getRequiredVPKArchives.
    intros (f & folder & info & _ & _ & _ & Hlook & _).
    by rewrite Hnone in Hlook.
Qed.

(** X4. The plan depends on the set of the listed entries and on their
    shard indices only: two directories that list the same paths, in
    whatever order and however often, with the same index for each, give the
    same plan. *)
Theorem plan_depends_on_the_set_of_entries vpkFolders vpkDir1 vpkDir2 :
  (∀ fileName, fileName ∈ files vpkDir1 ↔ fileName ∈ files vpkDir2) →
  (∀ fileName, fileName ∈ files vpkDir1 →
               (tree vpkDir1 !! fileName ≫= archiveIndex)
               = (tree vpkDir2 !! fileName ≫= archiveIndex)) →
  getRequiredVPKArchives vpkFolders vpkDir1
  = getRequiredVPKArchives vpkFolders vpkDir2.
Proof.
  intros Hfiles Htree. apply plans_agree. intros i. unfold requiredBy.
  split; intros (f & folder & info & Hf & ? & ? & Hlook & Hidx).
  - specialize (Htree f Hf). rewrite Hlook in Htree. simpl in Htree.
    destruct (tree vpkDir2 !! f) as [info'|] eqn:Hlook'; simpl in Htree;
      [|congruence].
    exists f, folder, info'. split_and!; [by apply Hfiles|done..|congruence].
  - apply Hfiles in Hf. specialize (Htree f Hf). rewrite Hlook in Htree.
    simpl in Htree.
    destruct (tree vpkDir1 !! f) as [info'|] eqn:Hlook'; simpl in Htree;
      [|congruence].
    exists f, folder, info'. split_and!; [done..|congruence].
Qed.

End planner_more.

Section find.

Context {W : Type} (handle : ∀ X, ProcessorCall X → W → X * W).

Lemma run_firstExisting_trace paths w :
  let r := run handle (firstExisting paths) w in
  (∃ before found after,
     paths = before ++ found :: after ∧ outcome r = Returned (Some found) ∧
     trace r = testedAbsent before ++ [Ev (fs (existsSync found)) true]) ∨
  (outcome r = Returned None ∧ trace r = testedAbsent paths).
Proof.
  cbv zeta. revert w. induction paths as [|path paths IH]; intros w.
  - right. done.
  - simpl. answer_of handle. destruct x; simpl.
    + left. by exists [], path, paths.
    + specialize (IH w0). unfold outcome, trace in *.
      destruct (run handle (firstExisting paths) w0) as [[o tr] w']. simpl in *.
      destruct IH as [(before & found & after & -> & -> & ->)|[-> ->]].
      * left. by exists (path :: before), found, after.
      * by right.
Qed.

(** X5. [findVPKDirFile] never throws.  It tests the three candidate
    locations in order and returns the first that exists, without testing
    those after it; when none exists it asks for the debug listing of the
    scratch directory once, whether that listing throws or not, and returns
    [null]. *)
Theorem findVPKDirFile_returns_the_first_that_exists this w :
  let r := run handle (findVPKDirFile this) w in
  (∃ before found after,
     searchPaths this = before ++ found :: after ∧
     outcome r = Returned (Some found) ∧
     trace r = testedAbsent before ++ [Ev (fs (existsSync found)) true]) ∨
  (outcome r = Returned None ∧
   ∃ answer,
     trace r = testedAbsent (searchPaths this) ++
               [Ev (listDirectory (StreamingVPKProcessor.tempVpkDir this) 0 3)
                   answer]).
Proof.
  cbv zeta. unfold findVPKDirFile. fold (searchPaths this).
  rewrite run_bind.
  pose proof (run_firstExisting_trace (searchPaths this) w) as Hfirst.
  cbv zeta in Hfirst. unfold outcome, trace in *.
  destruct (run handle (firstExisting _) w) as [[o tr] w1]. simpl in Hfirst.
  destruct Hfirst as [(before & found & after & Hpaths & -> & ->)|[-> ->]].
  - left. exists before, found, after. simpl. by rewrite app_nil_r.
  - right. cbv beta iota. rewrite run_bind, run_tryCatch, run_call.
    answer_of handle. destruct x as [e|[]]; simpl; eauto.
Qed.

End find.

Section runs_more.

Context {W : Type} (handle : ∀ X, ProcessorCall X → W → X * W).

Implicit Types (this : StreamingVPKProcessor.t) (w : W)
  (tr : list (Event ProcessorCall)) (obs : list Observation).

Lemma shardsEnd_quiet this requiredArchives o obs :
  shardsEnd this requiredArchives o obs → removals obs = [].
Proof.
  destruct 1 as [| | | | |? ? scan ? ? ? ? Hscan];
    change (removals (BatchFetch ?ps ?a :: ?l)) with (removals l); shown;
    try done.
  by destruct Hscan as [[-> ->]| ->].
Qed.

Lemma pipelineEnds_quiet this o obs :
  pipelineEnds this o obs → removals obs = [].
Proof.
  destruct 1 as [| | | | |? ? ? ? ? ? ? Hshards]; try done.
  by apply shardsEnd_quiet in Hshards.
Qed.

(** The removals of a run. *)
Lemma removals_of_run this appId depotId manifestId w :
  let obs :=
    observe (trace (run handle
                      (processVPKFiles this appId depotId manifestId) w)) in
  removals obs = [] ∨
  removals obs = [(StreamingVPKProcessor.tempVpkDir this, true, true)].
Proof.
  cbv zeta.
  destruct (run_processVPKFiles handle this appId depotId manifestId w)
    as [(e & _ & made & path & -> & Hmade)
       |(setup & body & final & -> & Hsetup & Hends & Hfinal & _)].
  { left. by shown. }
  apply pipelineEnds_quiet in Hends. shown. rewrite Hends.
  destruct Hfinal as [-> | ->]; auto.
Qed.

(** X6. A run of [processVPKFiles] calls [rmSync] at most once, and then on
    its scratch path [tempVpkDir], recursively and forced; no removal names
    the output directory, unless the processor was given its scratch path as
    output directory. *)
Theorem only_the_scratch_directory_is_removed this appId depotId manifestId w :
  let obs :=
    observe (trace (run handle
                      (processVPKFiles this appId depotId manifestId) w)) in
  (removals obs = [] ∨
   removals obs = [(StreamingVPKProcessor.tempVpkDir this, true, true)]) ∧
  (StreamingVPKProcessor.outputDir this
   ≠ StreamingVPKProcessor.tempVpkDir this →
   ∀ recursive force,
     (StreamingVPKProcessor.outputDir this, recursive, force) ∉ removals obs).
Proof.
  cbv zeta.
  pose proof (removals_of_run this appId depotId manifestId w) as Hremovals.
  split; [done|]. intros Hother recursive force.
  destruct Hremovals as [-> | ->]; [apply not_elem_of_nil|].
  rewrite list_elem_of_singleton. congruence.
Qed.

(** What a run that returns has gone through. *)
Lemma pipelineEnds_returned this results obs :
  pipelineEnds this (Returned results) obs →
  ∃ vpkDir,
    loads obs = [inr vpkDir] ∧
    let plan :=
      getRequiredVPKArchives (StreamingVPKProcessor.vpkFolders this) vpkDir in
    (plan = [] ∧ results = StreamingVPKProcessor.results this) ∨
    (plan ≠ [] ∧
     (results = recordFailure (StreamingVPKProcessor.results this) ∨
      ∃ extractedImages : list Path,
        results = recordExtraction (StreamingVPKProcessor.results this) plan
                                   extractedImages)).
Proof.
  inversion 1 as [| | | |? ? vpkDir ? Hplan
                  |? ? vpkDir o obs' ? Hplan Hshards]; subst.
  - exists vpkDir. split; [done|]. left. done.
  - exists vpkDir. split.
    + apply shardsEnd_shows in Hshards as [Hnoload _].
      change (loads (?a :: Load ?x :: ?l)) with (x :: loads l).
      by rewrite Hnoload.
    + right. split; [done|].
      inversion Hshards; subst; eauto.
Qed.

(** X7. Whenever [processVPKFiles] returns, it has loaded exactly one
    directory; the error list of the Run Result is the one the processor
    started with, and the failure count that one or one more.  With an empty
    plan the Run Result is untouched; when the failure count went up, the
    counts of downloads and of extracted images are untouched. *)
Theorem a_returned_run_result this appId depotId manifestId w results :
  let r := run handle (processVPKFiles this appId depotId manifestId) w in
  let old := StreamingVPKProcessor.results this in
  outcome r = Returned results →
  ∃ vpkDir,
    loads (observe (trace r)) = [inr vpkDir] ∧
    Results.errors results = Results.errors old ∧
    (Results.failed results = Results.failed old ∨
     Results.failed results = Results.failed old + 1) ∧
    (getRequiredVPKArchives (StreamingVPKProcessor.vpkFolders this) vpkDir = []
     → results = old) ∧
    (Results.failed results = Results.failed old + 1 →
     Results.downloaded results = Results.downloaded old ∧
     Results.extracted results = Results.extracted old).
Proof.
  cbv zeta.
  destruct (run_processVPKFiles handle this appId depotId manifestId w)
    as [(e & -> & _)
       |(setup & body & final & -> & Hsetup & Hends & Hfinal & _)]; [done|].
  intros Ho. rewrite Ho in Hends.
  apply pipelineEnds_returned in Hends as (vpkDir & Hload & Hends).
  exists vpkDir. split.
  { shown. rewrite Hload. by destruct Hfinal as [-> | ->]. }
  destruct Hends as [[Hplan ->]|[Hplan [->|[extractedImages ->]]]]; simpl;
    split_and!; auto; try done; intros ?; lia.
Qed.

End runs_more.

Section directory.

Context {W : Type} (handle : ∀ X, ProcessorCall X → W → X * W).

Implicit Types (this : StreamingVPKProcessor.t) (w : W)
  (tr : list (Event ProcessorCall)) (obs : list Observation).

(** The pipeline opens with the fetch of the directory file. *)
Lemma run_pipeline_opens this appId depotId manifestId w o tr w' :
  run handle (pipeline this appId depotId manifestId) w = (o, tr, w') →
  ∃ answer rest,
    observe tr = DirectoryFetch (str "csgo/pak01_dir\.vpk") answer :: rest.
Proof.
  unfold pipeline. rewrite run_bind, run_call. answer_of handle.
  destruct x as [e|dirResult]; [intros [= <- <- <-]; by eexists _, _|].
  destruct (run handle _ w0) as [[o1 tr1] w1].
  intros [= <- <- <-]. by eexists _, _.
Qed.

(** X8. The first call of a run to the downloader asks for the directory
    file, [csgo/pak01_dir\.vpk].  When it reports failure, the run throws
    [Failed to download VPK directory: ] followed by the reported error,
    calls the downloader no more, loads nothing, decompiles nothing, and
    still runs [cleanup]. *)
Theorem directory_failure_is_fatal this appId depotId manifestId w filePattern
    dirResult rest :
  let r := run handle (processVPKFiles this appId depotId manifestId) w in
  let obs := observe (trace r) in
  downloaderCalls obs = DirectoryFetch filePattern (inr dirResult) :: rest →
  DownloadResult.success dirResult = false →
  filePattern = str "csgo/pak01_dir\.vpk" ∧
  outcome r =
    Threw (mkError (str "Failed to download VPK directory: " ++
                    interpolate "undefined" (DownloadResult.error dirResult))) ∧
  rest = [] ∧ loads obs = [] ∧ decompilations obs = [] ∧
  ∃ before after, trace r = before ++ after ∧ cleanupTrace this after.
Proof.
  cbv zeta. unfold processVPKFiles, trace, outcome. rewrite run_bind.
  destruct (run handle (ensureDirectory _) w) as [[o1 tr1] w1] eqn:Hfirst.
  apply run_ensureDirectory in Hfirst as [[-> Hobs1]|(e & -> & Hobs1)].
  2: { simpl. by rewrite Hobs1. }
  rewrite run_bind.
  destruct (run handle (ensureDirectory _) w1) as [[o2 tr2] w2] eqn:Hsecond.
  apply run_ensureDirectory in Hsecond as [[-> Hobs2]|(e & -> & Hobs2)].
  2: { simpl. rewrite observe_app, Hobs2.
       by destruct Hobs1 as [-> | ->]. }
  assert (downloaderCalls (observe (tr1 ++ tr2)) = []) as Hquiet.
  { rewrite observe_app.
    by destruct Hobs1 as [-> | ->], Hobs2 as [-> | ->]. }
  rewrite run_tryFinally.
  destruct (run handle (pipeline _ _ _ _) w2) as [[o3 tr3] w3] eqn:Hpipeline.
  pose proof (run_pipeline_opens _ _ _ _ _ _ _ _ Hpipeline)
    as (answer & rest' & Hopens).
  apply run_pipeline in Hpipeline.
  destruct (run_cleanup handle this w3) as (tr4 & w4 & -> & Hcleanup).
  simpl. rewrite app_assoc, (observe_app (_ ++ _)), downloaderCalls_app, Hquiet.
  rewrite observe_app, Hopens. simpl.
  intros [= <- -> <-] Hfailed. split; [done|].
  assert (observe tr4 = [] ∨ observe tr4
          = [Remove (StreamingVPKProcessor.tempVpkDir this) true true])
    as Hfinal by (by apply cleanupTrace_observe).
  rewrite Hopens in Hpipeline.
  inversion Hpipeline as [| | | | |]; subst; try congruence.
  split_and!; [done| | | |].
  - by destruct Hfinal as [-> | ->].
  - rewrite loads_app.
    assert (loads (observe (tr1 ++ tr2)) = []) as ->.
    { rewrite observe_app.
      by destruct Hobs1 as [-> | ->], Hobs2 as [-> | ->]. }
    by destruct Hfinal as [-> | ->].
  - rewrite decompilations_app.
    assert (decompilations (observe (tr1 ++ tr2)) = []) as ->.
    { rewrite observe_app.
      by destruct Hobs1 as [-> | ->], Hobs2 as [-> | ->]. }
    by destruct Hfinal as [-> | ->].
  - exists ((tr1 ++ tr2) ++ tr3), tr4. by rewrite <- !app_assoc.
Qed.

(** X9. The decompiler is invoked only in a run that has loaded a directory
    with a non-empty plan and whose batched fetch, of the patterns of that
    plan, reported success; and every invocation comes after that fetch. *)
Theorem the_decompiler_runs_after_the_batch this appId depotId manifestId w :
  let obs :=
    observe (trace (run handle
                      (processVPKFiles this appId depotId manifestId) w)) in
  decompilations obs ≠ [] →
  ∃ vpkDir before downloadResult after,
    let plan :=
      getRequiredVPKArchives (StreamingVPKProcessor.vpkFolders this) vpkDir in
    obs = before ++
          BatchFetch (map archivePattern plan) (inr downloadResult) :: after ∧
    DownloadResult.success downloadResult = true ∧
    plan ≠ [] ∧
    loads before = [inr vpkDir] ∧ decompilations before = [] ∧
    batchFetches after = [] ∧ loads after = [].
Proof.
  cbv zeta.
  destruct (run_processVPKFiles handle this appId depotId manifestId w)
    as [(e & _ & made & path & -> & Hmade)
       |(setup & body & final & -> & Hsetup & Hends & Hfinal & _)].
  { by shown. }
  assert (decompilations final = [] ∧ batchFetches final = [] ∧
          loads final = []) as (Hd & Hb & Hl)
    by (by destruct Hfinal as [-> | ->]).
  destruct Hends as [| | | | |filePattern dirResult vpkDir o obs ? Hplan Hshards].
  1-5: by shown; rewrite Hd.
  intros Hsome.
  assert ((∃ downloadResult after,
            obs = BatchFetch
                    (map archivePattern
                       (getRequiredVPKArchives
                          (StreamingVPKProcessor.vpkFolders this) vpkDir))
                    (inr downloadResult) :: after ∧
            DownloadResult.success downloadResult = true ∧
            batchFetches after = [] ∧ loads after = []) ∨
          decompilations obs = [])
    as [(downloadResult & after & -> & Hok & Hafter & Hafter')|Hnone].
  { destruct Hshards as [| | | | |? ? scan ? ? ? ? Hscan]; eauto;
      left; eexists _, _; (split; [reflexivity|]); shown;
      (split_and!; [done| |]); try done.
    all: by destruct Hscan as [[-> ->]| ->]. }
  - exists vpkDir, (setup ++ [DirectoryFetch filePattern (inr dirResult);
                               Load (inr vpkDir)]), downloadResult,
      (after ++ final).
    split_and!; [by rewrite <- !app_assoc|done|done| | | |].
    + by shown.
    + by shown.
    + by rewrite batchFetches_app, Hafter, Hb.
    + by rewrite loads_app, Hafter', Hl.
  - destruct Hsome. shown.
    change (decompilations (?a :: Load ?x :: ?l)) with (decompilations l).
    by rewrite ?decompilations_app, Hnone, Hd.
Qed.

End directory.

(** ** The file patterns of the shards *)

Lemma str_inj (s1 s2 : string) : str s1 = str s2 → s1 = s2.
Proof.
  unfold str. intros Heq.
  rewrite <- (string_of_list_ascii_of_string s1),
          <- (string_of_list_ascii_of_string s2).
  f_equal. revert Heq.
  generalize (list_ascii_of_string s1), (list_ascii_of_string s2).
  induction l as [|a l IH]; intros [|b l']; simpl; try done.
  intros [= Hab Hrest]. f_equal; [|by apply IH].
  by rewrite <- (ascii_N_embedding a), <- (ascii_N_embedding b), Hab.
Qed.

Lemma Number_toString_inj (n m : N) :
  Number_toString n = Number_toString m → n = m.
Proof.
  unfold Number_toString. intros Heq%str_inj.
  apply DecimalN.Unsigned.to_uint_inj.
  pose proof (NilEmpty.usu (N.to_uint n)) as Hn.
  pose proof (NilEmpty.usu (N.to_uint m)) as Hm.
  rewrite Heq in Hn. congruence.
Qed.

Lemma to_uint_leading_zero (n : N) (d : Decimal.uint) :
  N.to_uint n = Decimal.D0 d → d = Decimal.Nil.
Proof.
  intros Hn.
  pose proof (DecimalN.Unsigned.to_of (N.to_uint n)) as Hnorm.
  rewrite DecimalN.Unsigned.of_to, Hn in Hnorm.
  unfold Decimal.unorm in Hnorm.
  destruct (Decimal.nzhead (Decimal.D0 d)) as [|d'| | | | | | | | |] eqn:Hhead;
    try congruence.
  by apply DecimalFacts.nzhead_nonzero in Hhead.
Qed.

Lemma Number_toString_nonempty (n : N) : Number_toString n ≠ [].
Proof.
  unfold Number_toString.
  pose proof (DecimalN.Unsigned.to_of (N.to_uint n)) as Hnorm.
  rewrite DecimalN.Unsigned.of_to in Hnorm.
  pose proof (DecimalFacts.unorm_nonnil (N.to_uint n)) as Hnil.
  rewrite <- Hnorm in Hnil. by destruct (N.to_uint n).
Qed.

Lemma Number_toString_leading_zero (n : N) (rest : jsstring) :
  Number_toString n = 48 :: rest → rest = [].
Proof.
  unfold Number_toString.
  destruct (N.to_uint n) as [|d| | | | | | | | |] eqn:Hn; try done.
  apply to_uint_leading_zero in Hn as ->. by intros [= <-].
Qed.

Lemma padStart_zeros (s : jsstring) :
  padStart s 3 (str "0") = replicate (3 - length s) 48 ++ s.
Proof.
  unfold padStart. cbv zeta. f_equal.
  generalize (3 - length s)%nat. intros k.
  assert (mjoin (replicate k (str "0")) = replicate k 48) as ->.
  { induction k as [|k IH]; simpl; [done|]. by rewrite IH. }
  rewrite take_ge; [done|]. by rewrite length_replicate.
Qed.

Lemma padded_inj (n m : N) :
  padStart (Number_toString n) 3 (str "0")
  = padStart (Number_toString m) 3 (str "0") → n = m.
Proof.
  rewrite !padStart_zeros. intros Heq. apply Number_toString_inj.
  pose proof (Number_toString_nonempty n) as Hn.
  pose proof (Number_toString_nonempty m) as Hm.
  pose proof (Number_toString_leading_zero n) as Hzn.
  pose proof (Number_toString_leading_zero m) as Hzm.
  revert Heq Hn Hm Hzn Hzm.
  generalize (Number_toString n), (Number_toString m). intros s t.
  assert (∀ (s t : jsstring) k,
            (∀ rest, t = 48 :: rest → rest = []) → s ≠ [] →
            replicate (S k) 48 ++ s = t → False) as Hshift.
  { intros s' t' k Hz Hs Heq. simpl in Heq.
    specialize (Hz _ (eq_sym Heq)).
    apply app_eq_nil in Hz as [_ ?]. done. }
  destruct s as [|a [|b [|c s]]], t as [|a' [|b' [|c' t]]]; simpl;
    intros Heq Hs Ht Hzs Hzt; try done; simplify_eq; try done.
  all: try (by specialize (Hzs _ eq_refl)).
  all: try (by specialize (Hzt _ eq_refl)).
Qed.

Lemma archivePattern_inj (i j : N) :
  archivePattern i = archivePattern j → i = j.
Proof.
  unfold archivePattern. cbv zeta. intros Heq.
  apply app_inv_head, app_inv_tail in Heq. by apply padded_inj.
Qed.

(** X10. Different shard indices give different file patterns, so the
    patterns of a batch are pairwise distinct; and the pattern of an index
    below 1000 is [csgo/pak01_], its three decimal digits, [\.vpk]. *)
Theorem shard_patterns_are_distinct :
  (∀ i j, archivePattern i = archivePattern j → i = j) ∧
  (∀ vpkFolders vpkDir,
     NoDup (map archivePattern (getRequiredVPKArchives vpkFolders vpkDir))) ∧
  (∀ i, i < 1000 →
        archivePattern i = str "csgo/pak01_" ++ threeDigits i ++ str "\.vpk").
Proof.
  split_and!.
  - apply archivePattern_inj.
  - intros vpkFolders vpkDir. apply NoDup_fmap_2.
    + intros i j. apply archivePattern_inj.
    + apply NoDup_getRequiredVPKArchives.
  - intros i Hi.
    assert (Forall (λ k, archivePattern (N.of_nat k)
                         = str "csgo/pak01_" ++ threeDigits (N.of_nat k) ++
                           str "\.vpk") (seq 0 1000)) as Hall.
    { apply (bool_decide_unpack _). by vm_compute. }
    rewrite Forall_forall in Hall.
    specialize (Hall (N.to_nat i)). rewrite N2Nat.id in Hall. apply Hall.
    apply elem_of_seq. lia.
Qed.

Section downloader_more.

Context {W : Type} (handle : ∀ X, NodeCall X → W → X * W).

Implicit Types (this : DepotDownloader.t) (w : W)
  (tr : list (Event NodeCall)).



(** The frame shared by the download operations: the tool is made sure of
    and the output directory prepared, without an attempt, before [rest]
    runs. *)
Lemma run_framed {A} platform this outputDir (rest : Path → Downloader A)
    w o tr w' :
  run handle (ensureDepotDownloaderExists platform this;;
              output ← prepareOutput this outputDir; rest output) w
  = (o, tr, w') →
  (steps tr = [] ∧ ∃ e, o = Threw e) ∨
  ∃ before after w0,
    tr = before ++ after ∧ steps before = [] ∧
    run handle (rest (orElse outputDir (DepotDownloader.tempDir this))) w0
    = (o, after, w').
Proof.
  rewrite run_bind.
  destruct (run handle (ensureDepotDownloaderExists _ _) w)
    as [[o1 tr1] w1] eqn:Hensure.
  apply run_ensureDepotDownloaderExists in Hensure.
  destruct o1 as [installed|e].
  2: { intros [= <- <- <-]. left. eauto. }
  rewrite run_bind.
  destruct (run handle (prepareOutput _ _) w1) as [[o2 tr2] w2] eqn:Hout.
  apply run_prepareOutput in Hout as [Hout Houtput].
  destruct o2 as [output|e].
  2: { intros [= <- <- <-]. left. rewrite steps_app, Hensure, Hout. eauto. }
  rewrite (Houtput output eq_refl).
  destruct (run handle (rest _) w2) as [[o3 tr3] w3] eqn:Hrest.
  intros [= <- <- <-]. right. exists (tr1 ++ tr2), tr3, w2.
  split_and!; [by rewrite app_assoc| |done].
  by rewrite steps_app, Hensure, Hout.
Qed.

(** What [runDepotDownloader] resolves with. *)
Lemma run_attemptLoop_result this args description maxAttempts remaining
    attempt w o tr w' :
  run handle (attemptLoop this args description maxAttempts remaining attempt)
      w = (o, tr, w') →
  ∃ result,
    o = Returned result ∧
    if RunResult.success result
    then RunResult.error result = None ∧ is_Some (RunResult.duration result)
    else RunResult.error result = Some (str "Max attempts exceeded") ∧
         RunResult.duration result = None.
Proof.
  revert attempt w tr. induction remaining as [|remaining IH];
    intros attempt w tr.
  - intros [= <- <- <-]. by eexists.
  - simpl. do 3 answer_of handle.
    destruct (CommandResult.success x0); simpl.
    + intros [= <- <- <-]. eexists. split; [done|]. simpl. eauto.
    + destruct (attempt <? maxAttempts); simpl.
      * answer_of handle.
        destruct (run handle (attemptLoop _ _ _ _ remaining _) w3)
          as [[o' tr'] w''] eqn:Hrest.
        intros [= <- <- <-]. by apply IH in Hrest.
      * destruct (run handle (attemptLoop _ _ _ _ remaining _) w2)
          as [[o' tr'] w''] eqn:Hrest.
        intros [= <- <- <-]. by apply IH in Hrest.
Qed.

Lemma run_downloadWithFileList_trace this appId depotId manifestId output
    fileListPath patterns description w o tr w' :
  run handle (downloadWithFileList this appId depotId manifestId output
                fileListPath patterns description) w = (o, tr, w') →
  (steps tr = [] ∧ ∃ e, o = Threw e) ∨
  ∃ during answer result,
    tr = Ev (node_fs (writeFileSync fileListPath patterns)) (inr tt)
         :: during ++ [Ev (node_fs (unlinkSync fileListPath)) answer] ∧
    steps during = steps tr ∧ o = Returned (toDownloadResult output result) ∧
    if RunResult.success result
    then RunResult.error result = None ∧ is_Some (RunResult.duration result)
    else RunResult.error result = Some (str "Max attempts exceeded") ∧
         RunResult.duration result = None.
Proof.
  unfold downloadWithFileList. rewrite run_bind, run_call. answer_of handle.
  destruct x as [e|[]].
  { intros [= <- <- <-]. left. eauto. }
  rewrite run_bind.
  destruct (run handle (runDepotDownloader _ _ _ _) w0)
    as [[o1 tr1] w1] eqn:Hrun.
  apply run_attemptLoop_result in Hrun as (result & -> & Hresult).
  rewrite run_bind, run_tryCatch, run_call. answer_of handle.
  destruct x as [e|[]]; simpl; intros [= <- <- <-]; right;
    eexists tr1, _, result; rewrite ?app_nil_r;
    (split_and!; [done| |done..]);
    by rewrite steps_cons, steps_app; simpl; rewrite app_nil_r.
Qed.

(** X12. An operation that uses a file list either throws before any
    attempt, or writes the list, makes all its attempts, removes the list
    and returns: the attempts lie between the write and the removal, the
    removal is of the path written, and a removal that throws does not
    change the outcome. *)
Theorem the_file_list_lives_for_the_attempts platform this operation path
    data w :
  fileListOf this operation = Some (path, data) →
  let r := run handle (invoke platform this operation) w in
  (steps (trace r) = [] ∧ ∃ e, outcome r = Threw e) ∨
  ∃ before during answer result,
    trace r = before ++
              Ev (node_fs (writeFileSync path data)) (inr tt)
              :: during ++ [Ev (node_fs (unlinkSync path)) answer] ∧
    steps before = [] ∧ steps during = steps (trace r) ∧
    outcome r = Returned result.
Proof.
  intros Hlist. cbv zeta. unfold trace, outcome.
  destruct (run handle _ w) as [[o tr] w'] eqn:Hrun. cbn [fst snd].
  assert (∀ output description w0 after,
            run handle (downloadWithFileList this
                          match operation with
                          | Manifest appId _ _ _ | SpecificFiles appId _ _ _ _
                          | MultipleFiles appId _ _ _ _ => appId
                          end
                          match operation with
                          | Manifest _ depotId _ _
                          | SpecificFiles _ depotId _ _ _
                          | MultipleFiles _ depotId _ _ _ => depotId
                          end
                          match operation with
                          | Manifest _ _ manifestId _
                          | SpecificFiles _ _ manifestId _ _
                          | MultipleFiles _ _ manifestId _ _ => manifestId
                          end output path data description) w0
            = (o, after, w') →
            ∀ before, tr = before ++ after → steps before = [] →
            (steps tr = [] ∧ ∃ e, o = Threw e) ∨
            ∃ before during answer result,
              tr = before ++
                   Ev (node_fs (writeFileSync path data)) (inr tt)
                   :: during ++ [Ev (node_fs (unlinkSync path)) answer] ∧
              steps before = [] ∧ steps during = steps tr ∧
              o = Returned result) as Hlisted.
  { intros output description w0 after Hafter before -> Hquiet.
    apply run_downloadWithFileList_trace
      in Hafter as [[Hnone ?]|(during & answer & result & -> & Hsteps & -> & _)].
    - left. by rewrite steps_app, Hquiet, Hnone.
    - right. exists before, during, answer, (toDownloadResult output result).
      split_and!; [done..| |done]. by rewrite steps_app, Hquiet. }
  destruct operation; simpl in Hlist; simplify_eq; simpl in Hrun;
    unfold downloadSpecificFiles, downloadMultipleFiles in Hrun;
    apply run_framed in Hrun as [?|(before & after & w0 & -> & Hquiet & Hrun)];
    auto; cbv zeta in Hrun; by eapply Hlisted.
Qed.

(** X13. A download operation that returns with a failure always reports
    the error [Max attempts exceeded] and no download time, whatever made the
    commands fail; so the processor's errors for a failed fetch end in that
    text.  One that returns with success reports no error and a download
    time.  The output directory reported is the one given, or [tempDir]
    when none (or the empty string) is given. *)
Theorem a_failed_download_reports_max_attempts platform this operation w
    downloadResult :
  outcome (run handle (invoke platform this operation) w)
  = Returned downloadResult →
  (if DownloadResult.success downloadResult
   then DownloadResult.error downloadResult = None ∧
        is_Some (DownloadResult.downloadTime downloadResult)
   else DownloadResult.error downloadResult
        = Some (str "Max attempts exceeded") ∧
        DownloadResult.downloadTime downloadResult = None ∧
        batchFailure downloadResult
        = mkError (str "Failed to batch download VPK archives: Max attempts exceeded") ∧
        directoryFailure downloadResult
        = mkError (str "Failed to download VPK directory: Max attempts exceeded")) ∧
  DownloadResult.outputDir downloadResult =
    orElse match operation with
           | Manifest _ _ _ outputDir | SpecificFiles _ _ _ _ outputDir
           | MultipleFiles _ _ _ _ outputDir => outputDir
           end (DepotDownloader.tempDir this).
Proof.
  unfold outcome.
  destruct (run handle _ w) as [[o tr] w'] eqn:Hrun. cbn [fst snd].
  intros ->.
  assert (∀ result output,
            (if RunResult.success result
             then RunResult.error result = None ∧
                  is_Some (RunResult.duration result)
             else RunResult.error result = Some (str "Max attempts exceeded") ∧
                  RunResult.duration result = None) →
            downloadResult = toDownloadResult output result →
            (if DownloadResult.success downloadResult
             then DownloadResult.error downloadResult = None ∧
                  is_Some (DownloadResult.downloadTime downloadResult)
             else DownloadResult.error downloadResult
                  = Some (str "Max attempts exceeded") ∧
                  DownloadResult.downloadTime downloadResult = None ∧
                  batchFailure downloadResult
                  = mkError (str "Failed to batch download VPK archives: Max attempts exceeded") ∧
                  directoryFailure downloadResult
                  = mkError (str "Failed to download VPK directory: Max attempts exceeded")) ∧
            DownloadResult.outputDir downloadResult = output) as Hshape.
  { intros result output Hresult ->. unfold batchFailure, directoryFailure.
    simpl. destruct (RunResult.success result); [done|].
    destruct Hresult as [-> ->]. done. }
  destruct operation; simpl in Hrun;
    unfold downloadManifest, downloadSpecificFiles, downloadMultipleFiles
      in Hrun;
    apply run_framed
      in Hrun as [[_ [? ?]]|(before & after & w0 & -> & Hquiet & Hrun)];
    try done; cbv zeta in Hrun.
  - rewrite run_bind in Hrun.
    destruct (run handle (runDepotDownloader _ _ _ _) w0)
      as [[o1 tr1] w1] eqn:Hloop.
    apply run_attemptLoop_result in Hloop as (result & -> & Hresult).
    simpl in Hrun. injection Hrun as Ho _ _. by eapply Hshape.
  - apply run_downloadWithFileList_trace
      in Hrun as [[_ [? ?]]|(? & ? & result & _ & _ & [= ->] & Hresult)];
      [done|]. by eapply Hshape.
  - apply run_downloadWithFileList_trace
      in Hrun as [[_ [? ?]]|(? & ? & result & _ & _ & [= ->] & Hresult)];
      [done|]. by eapply Hshape.
Qed.

Lemma waits_schedule command attempt results :
  waits (schedule command attempt results)
  = (λ k, backoffTime (attempt + N.of_nat k))
    <$> seq 0 (length results - 1).
Proof.
  revert attempt. induction results as [|result results IH]; intros attempt;
    [done|].
  destruct results as [|result' results]; [done|].
  rewrite schedule_cons by done.
  change (waits (Attempt ?c ?r :: Wait ?ms :: ?l)) with (ms :: waits l).
  rewrite IH. simpl length. rewrite !Nat.sub_succ, !Nat.sub_0_r. simpl seq.
  rewrite fmap_cons, N.add_0_r. f_equal.
  rewrite <- fmap_S_seq, <- list_fmap_compose. apply list_fmap_ext.
  intros _ k _. simpl. f_equal. lia.
Qed.

Lemma length_attempts_schedule command attempt results :
  length (attempts (schedule command attempt results)) = length results.
Proof.
  rewrite <- (attempts_schedule command attempt results) at 2.
  by rewrite length_fmap.
Qed.

Lemma backoffTime_bounds attempt :
  1 ≤ attempt → 30000 ≤ backoffTime attempt ≤ 120000.
Proof.
  intros Hattempt. unfold backoffTime. split; [|lia].
  apply N.min_glb; [|lia].
  assert (1 ≤ 2 ^ (attempt - 1)); [|lia].
  change 1 with (2 ^ 0) at 1. apply N.pow_le_mono_r; lia.
Qed.

Lemma backoffTime_capped attempt : 3 ≤ attempt → backoffTime attempt = 120000.
Proof.
  intros Hattempt. unfold backoffTime. apply N.min_r.
  assert (4 ≤ 2 ^ (attempt - 1)); [|lia].
  change 4 with (2 ^ 2). apply N.pow_le_mono_r; lia.
Qed.

(** X14. The waits of an operation: one between any two consecutive
    attempts, each between 30 and 120 seconds, the one after attempt [k+1]
    being [backoffTime (k+1)], 120 seconds from the third on.  With three
    attempts at most, as [index.js] configures, the waits are a prefix of
    30 and 60 seconds. *)
Theorem the_waits_of_an_operation platform this operation w :
  let l := steps (trace (run handle (invoke platform this operation) w)) in
  length (waits l) = (length (attempts l) - 1)%nat ∧
  Forall (λ ms, 30000 ≤ ms ≤ 120000) (waits l) ∧
  (∀ k ms, waits l !! k = Some ms →
           ms = backoffTime (N.of_nat (S k)) ∧
           ((2 ≤ k)%nat → ms = 120000)) ∧
  (DepotDownloader.downloadAttempts this = 3 →
   waits l `prefix_of` [30000; 60000]).
Proof.
  cbv zeta. unfold trace.
  destruct (run handle _ w) as [[o tr] w'] eqn:Hrun. cbn [fst snd].
  apply run_invoke in Hrun as (command & results & -> & Hlen & _).
  rewrite waits_schedule, length_attempts_schedule, length_fmap, length_seq.
  split_and!; [done| | |].
  - apply Forall_fmap, Forall_forall. intros k _. apply backoffTime_bounds. lia.
  - intros k ms. rewrite list_lookup_fmap.
    destruct (seq 0 (length results - 1) !! k) as [k'|] eqn:Hk; [|done].
    apply lookup_seq in Hk as [-> _]. intros [= <-].
    split; [f_equal; lia|]. intros Hlate. apply backoffTime_capped. lia.
  - intros Hthree. rewrite Hthree in Hlen.
    destruct results as [|r1 [|r2 [|r3 [|r4 results]]]]; simpl in Hlen;
      try lia; simpl.
    + by exists [30000; 60000].
    + by exists [30000; 60000].
    + by exists [60000].
    + by exists [].
Qed.

(** X15. [getLatestManifestId] runs its command, which ends in
    [-manifest-only], at most twice, whatever [downloadAttempts] is: not at
    all, once with success, or twice with a wait of 30 seconds in between;
    when the second attempt fails too it throws
    [Failed to get manifest ID: Max attempts exceeded]. *)
Theorem the_manifest_query_tries_twice platform this appId depotId w :
  let r := run handle (getLatestManifestId platform this appId depotId) w in
  let command :=
    commandLine this
      [ str "-app"; Number_toString appId;
        str "-depot"; Number_toString depotId;
        str "-username"; DepotDownloader.username this;
        str "-password"; DepotDownloader.password this;
        str "-manifest-only" ] in
  steps (trace r) = [] ∨
  (∃ result, steps (trace r) = [Attempt command result] ∧
             CommandResult.success result = true) ∨
  (∃ first second,
     steps (trace r) = [Attempt command first; Wait 30000;
                        Attempt command second] ∧
     CommandResult.success first = false ∧
     (CommandResult.success second = false →
      outcome r = Threw (mkError (str "Failed to get manifest ID: Max attempts exceeded")))).
Proof.
  cbv zeta. unfold getLatestManifestId, trace, outcome. rewrite run_bind.
  destruct (run handle (ensureDepotDownloaderExists _ _) w)
    as [[o1 tr1] w1] eqn:Hensure.
  apply run_ensureDepotDownloaderExists in Hensure.
  destruct o1 as [installed|e]; [|by left].
  cbv zeta. rewrite run_bind.
  destruct (run handle (runDepotDownloader _ _ _ _) w1)
    as [[o2 tr2] w2] eqn:Hrun.
  apply run_runDepotDownloader
    in Hrun as (results & result & -> & Hsteps & Hretried & Hko & _).
  destruct (RunResult.success result) eqn:Hsuccess; simpl in Hretried.
  - destruct Hretried as (earlier & final & -> & Hfailed & Hfinal & Hlen).
    rewrite length_app in Hlen. simpl in Hlen.
    destruct earlier as [|first [|? ?]]; simpl in Hlen; try lia.
    + right; left. exists final. split; [|done].
      destruct (run handle _ w2) as [[o3 tr3] w3] eqn:Hfinish.
      cbn [fst snd]. rewrite !steps_app, Hensure, Hsteps. simpl.
      assert (steps tr3 = []) as ->; [|done].
      revert Hfinish. repeat case_match; by intros [= <- <- <-].
    + right; right. exists first, final.
      apply Forall_cons in Hfailed as [Hfirst _].
      destruct (run handle _ w2) as [[o3 tr3] w3] eqn:Hfinish.
      cbn [fst snd]. rewrite !steps_app, Hensure, Hsteps. simpl.
      assert (steps tr3 = []) as ->.
      { revert Hfinish. repeat case_match; by intros [= <- <- <-]. }
      split_and!; [done..|congruence].
  - destruct Hretried as [Hfailed Hlen]. rewrite (Hko eq_refl). simpl.
    destruct results as [|first [|second [|? ?]]]; simpl in Hlen; try lia.
    right; right. exists first, second.
    apply Forall_cons in Hfailed as [Hfirst _].
    rewrite !steps_app, Hensure, Hsteps. simpl. done.
Qed.

End downloader_more.

Lemma canonicalize_idemp ch : canonicalize (canonicalize ch) = canonicalize ch.
Proof.
  unfold canonicalize.
  destruct ((97 <=? ch) && (ch <=? 122)) eqn:Hlower; [|by rewrite Hlower].
  apply andb_true_iff in Hlower as [?%N.leb_le ?%N.leb_le].
  assert ((97 <=? ch - 32) = false) as -> by (apply N.leb_gt; lia). done.
Qed.

Lemma greedy_ext {R} cls (k1 k2 : jsstring → jsstring → option R) taken s :
  (∀ taken rest, k1 taken rest = k2 taken rest) →
  greedy cls k1 taken s = greedy cls k2 taken s.
Proof.
  intros Hk. revert taken. induction s as [|ch s IH]; intros taken; simpl;
    [done|].
  by rewrite IH, Hk.
Qed.

Lemma matchHere_foldCase re s group1 :
  matchHere (foldCase re) s group1 = matchHere re s group1.
Proof.
  revert s group1. induction re as [|[c| |] re IH]; intros s group1; simpl.
  - done.
  - destruct s as [|ch s]; [done|]. by rewrite canonicalize_idemp, IH.
  - apply greedy_ext. intros _ rest. apply IH.
  - apply greedy_ext. intros [|? ?] rest; [done|]. apply IH.
Qed.

Lemma String_match_foldCase re s :
  String_match (foldCase re) s = String_match re s.
Proof.
  induction s as [|ch s IH]; simpl; rewrite matchHere_foldCase; [done|].
  by rewrite IH.
Qed.

(** X16. Under the flag [i] two patterns that differ in the case of
    their letters only match the same; so the second and the fourth of the
    five patterns of [getLatestManifestId] never decide, and the loop finds
    what the first, third and fifth pattern alone would find. *)
Theorem two_manifest_patterns_are_redundant output :
  (∀ re1 re2, foldCase re1 = foldCase re2 →
              String_match re1 output = String_match re2 output) ∧
  firstManifestMatch manifestPatterns output
  = firstManifestMatch [ lit "Manifest " ++ [DigitsGroup] ++ lit " (";
                         lit "Manifest ID: " ++ [DigitsGroup];
                         lit "manifest:" ++ [WhiteSpaceStar; DigitsGroup] ]
                       output.
Proof.
  assert (∀ re1 re2, foldCase re1 = foldCase re2 →
                     String_match re1 output = String_match re2 output)
    as Hsame.
  { intros re1 re2 Heq.
    by rewrite <- (String_match_foldCase re1), Heq, String_match_foldCase. }
  split; [done|]. unfold manifestPatterns, firstManifestMatch.
  rewrite <- (Hsame (lit "Manifest " ++ [DigitsGroup] ++ lit " (")
                    (lit "manifest " ++ [DigitsGroup] ++ lit " ("))
    by reflexivity.
  rewrite <- (Hsame (lit "Manifest ID: " ++ [DigitsGroup])
                    (lit "manifest id: " ++ [DigitsGroup]))
    by reflexivity.
  by repeat case_match.
Qed.

(** *** The identifier is a whole number of the output *)

Lemma isWhiteSpace_isDigit ch : isWhiteSpace ch = true → isDigit ch = false.
Proof.
  unfold isWhiteSpace, isDigit. rewrite orb_true_iff.
  intros [Hin%bool_decide_eq_true_1|[?%N.leb_le ?%N.leb_le]%andb_true_iff].
  - rewrite !elem_of_cons in Hin.
    destruct_or?; subst; try done. by apply elem_of_nil in Hin.
  - apply andb_false_iff. right. apply N.leb_gt. lia.
Qed.

Lemma isDigit_canonicalize ch : isDigit ch = true → canonicalize ch = ch.
Proof.
  unfold isDigit, canonicalize.
  intros [?%N.leb_le ?%N.leb_le]%andb_true_iff.
  assert ((97 <=? ch) = false) as -> by (apply N.leb_gt; lia). done.
Qed.

Lemma Chr_consumesNoDigit c ch :
  consumesNoDigit (Chr c) = true → canonicalize ch = canonicalize c →
  isDigit ch = false.
Proof.
  simpl. intros Hc%negb_true_iff Heq.
  destruct (isDigit ch) eqn:Hdigit; [|done].
  apply isDigit_canonicalize in Hdigit as Hsame. congruence.
Qed.

(** What the part of a pattern before the group consumes: no digit, and
    something when it holds a literal. *)
Lemma matchHere_before_group pre re s group1 r :
  Forall (λ a, consumesNoDigit a = true) pre →
  matchHere (pre ++ re) s group1 = Some r →
  ∃ consumed rest,
    s = consumed ++ rest ∧ Forall (λ ch, isDigit ch = false) consumed ∧
    matchHere re rest group1 = Some r ∧
    ((∃ c, Chr c ∈ pre) → consumed ≠ []).
Proof.
  intros Hpre. revert s.
  induction Hpre as [|[c| |] pre Ha _ IH]; intros s; simpl.
  - intros Hre. exists [], s. split_and!; [done..|].
    by intros [c []%elem_of_nil].
  - destruct s as [|ch s]; [done|].
    destruct (canonicalize ch =? canonicalize c) eqn:Hch; [|done].
    apply N.eqb_eq in Hch.
    intros (consumed & rest & -> & Hnone & Hre & _)%IH.
    exists (ch :: consumed), rest. split_and!; [done| |done..].
    constructor; [|done]. by eapply Chr_consumesNoDigit.
  - intros (more & rest0 & Hmore & -> & Hk)%greedy_inv.
    apply IH in Hk as (consumed & rest & -> & Hnone & Hre & Hsome).
    exists (more ++ consumed), rest.
    split_and!; [by rewrite app_assoc| |done|].
    + apply Forall_app. split; [|done].
      eapply Forall_impl; [done|]. apply isWhiteSpace_isDigit.
    + intros [c [?|Hin]%elem_of_cons]; [done|].
      intros [_ Hnil]%app_eq_nil. apply Hsome; [|done]. by exists c.
  - done.
Qed.

(** A greedy run that succeeds whenever it has taken something takes the
    longest run. *)
Lemma greedy_longest {R} cls (k : jsstring → jsstring → option R) taken s :
  (∀ taken rest, taken ≠ [] → is_Some (k taken rest)) →
  ∃ more rest,
    s = more ++ rest ∧ Forall (λ ch, cls ch = true) more ∧
    (∀ ch, head rest = Some ch → cls ch = false) ∧
    greedy cls k taken s = k (taken ++ more) rest.
Proof.
  intros Hk. revert taken. induction s as [|ch s IH]; intros taken; simpl.
  - exists [], []. rewrite !app_nil_r.
    split_and!; [done|by apply Forall_nil|by simpl|done].
  - destruct (cls ch) eqn:Hcls.
    + destruct (IH (taken ++ [ch])) as (more & rest & -> & Hmore & Hrest & ->).
      exists (ch :: more), rest. rewrite <- app_assoc.
      split_and!; [done|by constructor|done|].
      destruct (Hk (taken ++ [ch] ++ more) rest) as [r Hr];
        [by destruct taken|].
      by rewrite Hr.
    + exists [], (ch :: s). rewrite !app_nil_r.
      split_and!; [done|by apply Forall_nil| |done]. by intros ? [= <-].
Qed.

(** What the group captures when nothing, or a literal that is no digit,
    follows it. *)
Lemma matchHere_group post s group1 m :
  post = [] ∨ (∃ c post', post = Chr c :: post' ∧
                          consumesNoDigit (Chr c) = true ∧
                          DigitsGroup ∉ post') →
  matchHere (DigitsGroup :: post) s group1 = Some (Some m) →
  ∃ after,
    s = m ++ after ∧ digits m ∧ ∀ ch, head after = Some ch → isDigit ch = false.
Proof.
  intros [->|(c & post' & -> & Hc & Hpost)]; simpl.
  - destruct (greedy_longest isDigit
                (λ taken rest : jsstring,
                   match taken with
                   | [] => None
                   | _ :: _ => Some (Some taken)
                   end) [] s)
      as (more & rest & -> & Hmore & Hrest & ->).
    { intros [|? ?] ?; [done|]. by eexists. }
    simpl. destruct more as [|ch more]; [done|]. intros [= <-].
    exists rest. split_and!; [done| |done]. split; [done|]. done.
  - intros (more & rest & Hmore & -> & Hk)%greedy_inv. simpl in Hk.
    destruct more as [|d more]; [done|].
    destruct rest as [|ch rest]; [done|].
    destruct (canonicalize ch =? canonicalize c) eqn:Hch; [|done].
    apply N.eqb_eq in Hch.
    assert (m = d :: more) as ->.
    { clear -Hk Hpost. revert rest Hk.
      generalize (d :: more). intros taken.
      induction post' as [|[c'| |] post' IH]; intros rest; simpl.
      - by intros [= ->].
      - destruct rest as [|ch' rest]; [done|]. case_match; [|done].
        apply IH. by apply not_elem_of_cons in Hpost as [_ ?].
      - intros (? & ? & _ & _ & Hk)%greedy_inv. eapply IH; [|done].
        by apply not_elem_of_cons in Hpost as [_ ?].
      - by apply not_elem_of_cons in Hpost as [? _]. }
    exists (ch :: rest). split_and!; [done|by split|].
    intros ? [= <-]. by eapply Chr_consumesNoDigit.
Qed.

Lemma String_match_here re s r :
  String_match re s = Some r →
  ∃ skipped rest, s = skipped ++ rest ∧ matchHere re rest None = Some r.
Proof.
  induction s as [|ch s IH]; simpl.
  - destruct (matchHere re [] None) eqn:Hhere; [|done].
    intros [= <-]. by exists [], [].
  - destruct (matchHere re (ch :: s) None) eqn:Hhere.
    + intros [= <-]. by exists [], (ch :: s).
    + intros (skipped & rest & -> & Hrest)%IH. by exists (ch :: skipped), rest.
Qed.

Lemma String_match_whole_number pre post s m :
  Forall (λ a, consumesNoDigit a = true) pre → (∃ c, Chr c ∈ pre) →
  post = [] ∨ (∃ c post', post = Chr c :: post' ∧
                          consumesNoDigit (Chr c) = true ∧
                          DigitsGroup ∉ post') →
  String_match (pre ++ DigitsGroup :: post) s = Some (Some m) →
  ∃ before after,
    s = before ++ m ++ after ∧ digits m ∧
    (∃ ch, last before = Some ch ∧ isDigit ch = false) ∧
    (∀ ch, head after = Some ch → isDigit ch = false).
Proof.
  intros Hpre Hlit Hpost (skipped & rest & -> & Hhere)%String_match_here.
  apply matchHere_before_group
    in Hhere as (consumed & rest' & -> & Hnone & Hgroup & Hsome); [|done].
  apply matchHere_group in Hgroup as (after & -> & Hm & Hafter); [|done].
  exists (skipped ++ consumed), after.
  split_and!; [by rewrite <- !app_assoc|done| |done].
  specialize (Hsome Hlit).
  destruct (last consumed) as [ch|] eqn:Hlast.
  - exists ch. rewrite last_app, Hlast. split; [done|].
    apply last_Some in Hlast as [? ->].
    by apply Forall_app in Hnone as [_ [? _]%Forall_cons].
  - by apply last_None in Hlast.
Qed.

(** X17. The identifier that the patterns extract is a whole number of
    the output: a run of digits of the output with no digit right before it
    and no digit right after it. *)
Theorem the_manifest_id_is_a_whole_number output manifestId :
  firstManifestMatch manifestPatterns output = Some manifestId →
  ∃ m before after,
    manifestId = Some m ∧ output = before ++ m ++ after ∧ digits m ∧
    (∃ ch, last before = Some ch ∧ isDigit ch = false) ∧
    (∀ ch, head after = Some ch → isDigit ch = false).
Proof.
  intros (pattern & m & Hpattern & Hmatch & -> & _)%firstManifestMatch_digits;
    [|apply manifestPatterns_group].
  exists m. unfold manifestPatterns in Hpattern.
  assert (∃ pre post,
            pattern = pre ++ DigitsGroup :: post ∧
            Forall (λ a, consumesNoDigit a = true) pre ∧
            (∃ c, Chr c ∈ pre) ∧
            (post = [] ∨ ∃ c post', post = Chr c :: post' ∧
                                    consumesNoDigit (Chr c) = true ∧
                                    DigitsGroup ∉ post'))
    as (pre & post & -> & Hpre & Hlit & Hpost).
  { rewrite !elem_of_cons in Hpattern.
    destruct Hpattern as [->|[->|[->|[->|[->|[]%elem_of_nil]]]]].
    - exists (lit "Manifest "), (lit " (").
      split_and!; [done|by apply (bool_decide_unpack _)
                  |exists 77; apply list_elem_of_here|].
      right. exists 32, (lit "("). split_and!; [done..|].
      by intros [?|[]%elem_of_nil]%elem_of_cons.
    - exists (lit "manifest "), (lit " (").
      split_and!; [done|by apply (bool_decide_unpack _)
                  |exists 109; apply list_elem_of_here|].
      right. exists 32, (lit "("). split_and!; [done..|].
      by intros [?|[]%elem_of_nil]%elem_of_cons.
    - exists (lit "Manifest ID: "), [].
      split_and!; [done|by apply (bool_decide_unpack _)
                  |exists 77; apply list_elem_of_here|by left].
    - exists (lit "manifest id: "), [].
      split_and!; [done|by apply (bool_decide_unpack _)
                  |exists 109; apply list_elem_of_here|by left].
    - exists (lit "manifest:" ++ [WhiteSpaceStar]), [].
      split_and!; [done|by apply (bool_decide_unpack _)
                  |exists 109; apply list_elem_of_here|by left]. }
  destruct (String_match_whole_number pre post output m)
    as (before & after & ? & ? & ? & ?); [done..|].
  by exists before, after.
Qed.

(** ** The wrapper of the decompiler *)

Section viewer.

Context {W : Type} (handle : ∀ X, ViewerCall X → W → X * W).
Context (toLowerCase : jsstring → jsstring) (basename : Path → jsstring).
Context (platform arch : jsstring).

Implicit Types (this : Source2Viewer.t) (w : W)
  (tr : list (Event ViewerCall)).


Lemma toolRuns_app tr1 tr2 :
  toolRuns (tr1 ++ tr2) = toolRuns tr1 ++ toolRuns tr2.
Proof. apply omap_app. Qed.

Lemma toolRuns_cons ev tr :
  toolRuns (ev :: tr) =
  match toolRun ev with
  | Some r => r :: toolRuns tr
  | None => toolRuns tr
  end.
Proof. reflexivity. Qed.

Lemma preparing_bind {A B} (p : Prog ViewerCall A)
    (f : A → Prog ViewerCall B) :
  preparing handle p → (∀ a, preparing handle (f a)) →
  preparing handle (p ≫= f).
Proof.
  intros Hp Hf w. specialize (Hp w). rewrite run_bind.
  unfold trace, outcome in *.
  destruct (run handle p w) as [[[a|e] tr1] w1]; simpl in *.
  - specialize (Hf a w1). unfold trace, outcome in Hf.
    destruct (run handle (f a) w1) as [[o2 tr2] w2]; simpl in *.
    rewrite toolRuns_app. destruct Hp as [-> _], Hf as [-> Hf].
    split; [done|]. intros [_ ?]%Forall_app. auto.
  - destruct Hp as [-> Hp]. split; [done|]. intros [? ?]%Hp. done.
Qed.

Lemma preparing_ret {A} (a : A) : preparing handle (Ret a).
Proof. intros w. split; [done|]. by exists a. Qed.

Lemma preparing_exists path : preparing handle (Source2Viewer.existsSync' path).
Proof.
  intros w. unfold Source2Viewer.existsSync'. rewrite run_perform.
  answer_of handle. split; [done|]. by eexists.
Qed.

Lemma preparing_install command description :
  preparing handle (Source2Viewer.runCommand' command description None).
Proof.
  intros w. unfold Source2Viewer.runCommand'. rewrite run_perform.
  answer_of handle. split; [done|]. by eexists.
Qed.

Ltac preparing_call :=
  intros w; rewrite run_call;
  match goal with
  | |- context [handle ?X ?c w] =>
      destruct (handle X c w) as [[e|x] w1];
      (split; [done|]);
      [by intros [? _]%Forall_cons|by eexists]
  end.

Lemma preparing_readdirSync path : preparing handle (call (readdirSync path)).
Proof. preparing_call. Qed.

Lemma preparing_renameSync oldPath newPath :
  preparing handle (call (renameSync oldPath newPath)).
Proof. preparing_call. Qed.

Lemma preparing_unlinkSync path :
  preparing handle (call (viewer_node (node_fs (unlinkSync path)))).
Proof. preparing_call. Qed.

Lemma preparing_downloadSource2Viewer this :
  platform ∈ supportedPlatforms →
  preparing handle
    (Source2Viewer.downloadSource2Viewer toLowerCase basename platform arch
       this).
Proof.
  intros Hsupported. unfold Source2Viewer.downloadSource2Viewer.
  repeat (first [ apply preparing_bind; [|intros ?]
                | apply preparing_ret | apply preparing_exists
                | apply preparing_install | apply preparing_readdirSync
                | apply preparing_renameSync | apply preparing_unlinkSync
                | case_bool_decide
                | match goal with
                  | |- preparing _ (if ?b then _ else _) => destruct b
                  end ]).
  unfold supportedPlatforms in Hsupported.
  rewrite !elem_of_cons in Hsupported.
  by destruct Hsupported as [?|[?|[?|[]%elem_of_nil]]].
Qed.

Lemma run_ensureSource2ViewerExists this w o tr w' :
  run handle (Source2Viewer.ensureSource2ViewerExists toLowerCase basename
                platform arch this) w = (o, tr, w') →
  toolRuns tr = [] ∧
  (Forall (λ ev, threw ev = false) tr → platform ∈ supportedPlatforms →
   o = Returned true).
Proof.
  unfold Source2Viewer.ensureSource2ViewerExists.
  rewrite run_bind. unfold Source2Viewer.existsSync' at 1.
  rewrite run_perform. answer_of handle. destruct x.
  { by intros [= <- <- <-]. }
  rewrite run_bind.
  destruct (decide (platform ∈ supportedPlatforms)) as [Hsupported|Hnot].
  - destruct (preparing_downloadSource2Viewer this Hsupported w0)
      as [Hquiet Hreturns]. unfold trace, outcome in *.
    destruct (run handle (Source2Viewer.downloadSource2Viewer _ _ _ _ _) w0)
      as [[[[]|e] tr1] w1]; simpl in *; intros [= <- <- <-];
      rewrite toolRuns_cons; cbn [toolRun]; rewrite ?toolRuns_app, Hquiet;
      (split; [done|]); [done|].
    intros [_ [? ?]%Hreturns]%Forall_cons. done.
  - unfold Source2Viewer.downloadSource2Viewer.
    unfold supportedPlatforms in Hnot. rewrite !not_elem_of_cons in Hnot.
    destruct Hnot as (? & ? & ? & _).
    rewrite !bool_decide_eq_false_2 by done.
    cbn [run bind mbind Prog_bind]. intros [= <- <- <-]. split; [done|].
    intros _. unfold supportedPlatforms. rewrite !elem_of_cons.
    intros [?|[?|[?|[]%elem_of_nil]]]; done.
Qed.

(** X18. On a supported platform, a run of [ensureSource2ViewerExists] in
    which no file-system call throws returns [true] and does not run the
    decompiler, whatever the download, unzip and chmod commands resulted
    in. *)
Theorem the_decompiler_install_is_not_verified this w :
  let r := run handle (Source2Viewer.ensureSource2ViewerExists toLowerCase
                         basename platform arch this) w in
  platform ∈ supportedPlatforms →
  Forall (λ ev, threw ev = false) (trace r) →
  outcome r = Returned true ∧ toolRuns (trace r) = [].
Proof.
  cbv zeta. unfold outcome, trace. intros Hsupported.
  destruct (run handle _ w) as [[o tr] w'] eqn:Hrun. cbn [fst snd].
  apply run_ensureSource2ViewerExists in Hrun as [Hquiet Hreturns].
  intros Hnone. split; [by apply Hreturns|done].
Qed.

Lemma run_ensureOutput outputDir w o tr w' :
  run handle (Source2Viewer.ensureOutput outputDir) w = (o, tr, w') →
  toolRuns tr = [].
Proof.
  unfold Source2Viewer.ensureOutput, Source2Viewer.existsSync'.
  rewrite run_bind, run_perform. answer_of handle. destruct x.
  - by intros [= <- <- <-].
  - rewrite run_call. answer_of handle. by intros [= <- <- <-].
Qed.

(** The part shared by [decompileFile] and [extractVPKFolder]: the tool is
    made sure of, the output directory too, and the tool runs once. *)
Lemma run_tool this outputDir command description timeout w o tr w' :
  run handle (Source2Viewer.ensureSource2ViewerExists toLowerCase basename
                platform arch this;;
              Source2Viewer.ensureOutput outputDir;;
              result ← Source2Viewer.runCommand' command description
                         (Some timeout);
              Ret (Source2Viewer.toExtractResult result)) w = (o, tr, w') →
  (toolRuns tr = [] ∧ ∃ e, o = Threw e) ∨
  ∃ result,
    toolRuns tr = [(command, timeout, result)] ∧
    o = Returned (Source2Viewer.toExtractResult result).
Proof.
  rewrite run_bind.
  destruct (run handle (Source2Viewer.ensureSource2ViewerExists _ _ _ _ this) w)
    as [[o1 tr1] w1] eqn:Hensure.
  apply run_ensureSource2ViewerExists in Hensure as [Hensure _].
  destruct o1 as [installed|e].
  2: { intros [= <- <- <-]. left. eauto. }
  rewrite run_bind.
  destruct (run handle (Source2Viewer.ensureOutput _) w1)
    as [[o2 tr2] w2] eqn:Hout.
  apply run_ensureOutput in Hout.
  destruct o2 as [[]|e].
  2: { intros [= <- <- <-]. left. rewrite toolRuns_app, Hensure, Hout. eauto. }
  unfold Source2Viewer.runCommand'. rewrite run_bind, run_perform.
  answer_of handle. cbn [run]. intros [= <- <- <-]. right. exists x.
  by rewrite !toolRuns_app, Hensure, Hout.
Qed.

(** X19. [extractVPKFolder] either throws before the decompiler runs, or
    runs it exactly once, with a timeout of ten minutes, and returns the
    success, output and error of that run.  The command is the quoted
    executable followed by [-i], [-o] with quoted paths, [-e] with the
    extension as it is ([vtex_c] when none is given), [-d], and [-f] with
    the quoted folder only when a non-empty folder is given. *)
Theorem extractVPKFolder_runs_the_tool_once this vpkDirPath outputDir
    extension folder w :
  let r := run handle (Source2Viewer.extractVPKFolder toLowerCase basename
                         platform arch this vpkDirPath outputDir extension
                                        folder) w in
  let command :=
    quote ++ Source2Viewer.executablePath this ++ quote ++
    str " -i " ++ quote ++ vpkDirPath ++ quote ++
    str " -o " ++ quote ++ outputDir ++ quote ++
    str " -e " ++ orElse extension (str "vtex_c") ++ str " -d" ++
    match folder with
    | Some (c :: s) => str " -f " ++ quote ++ c :: s ++ quote
    | _ => []
    end in
  (toolRuns (trace r) = [] ∧ ∃ e, outcome r = Threw e) ∨
  ∃ result,
    toolRuns (trace r) = [(command, 600000, result)] ∧
    outcome r =
      Returned {| ExtractResult.success := CommandResult.success result;
                  ExtractResult.output := CommandResult.output result;
                  ExtractResult.error := CommandResult.error result |}.
Proof.
  cbv zeta. unfold outcome, trace, Source2Viewer.extractVPKFolder.
  destruct (run handle _ w) as [[o tr] w'] eqn:Hrun. cbn [fst snd].
  apply run_tool in Hrun as [?|(result & Hruns & ->)]; [by left|right].
  exists result. split; [|done]. rewrite Hruns. do 3 f_equal.
  unfold Source2Viewer.extractArgs.
  destruct folder as [[|c s]|]; simpl; by rewrite <- ?app_assoc.
Qed.

Lemma run_decompileFile this inputFile outputDir options w o tr w' :
  run handle (Source2Viewer.decompileFile toLowerCase basename platform arch
                this inputFile outputDir options) w = (o, tr, w') →
  (toolRuns tr = [] ∧ ∃ e, o = Threw e) ∨
  ∃ command result,
    toolRuns tr = [(command, 300000, result)] ∧
    o = Returned (Source2Viewer.toExtractResult result).
Proof.
  unfold Source2Viewer.decompileFile.
  intros [?|(result & ? & ?)]%run_tool; [by left|right]. eauto.
Qed.

(** One more file: counted as decompiled, after a run of the tool that
    succeeded, or as failed with an entry for it. *)
Lemma run_decompileOne this outputDir options results vpkFile w o tr w' :
  run handle (Source2Viewer.decompileOne toLowerCase basename platform arch
                this outputDir options results vpkFile) w
  = (o, tr, w') →
  ∃ results',
    o = Returned results' ∧
    ((∃ run,
        toolRuns tr = [run] ∧ CommandResult.success run.2 = true ∧
        results' =
          {| DecompileResults.decompiled :=
               DecompileResults.decompiled results + 1;
             DecompileResults.failed := DecompileResults.failed results;
             DecompileResults.errors := DecompileResults.errors results |}) ∨
     (∃ error,
        Forall (λ run, CommandResult.success run.2 = false) (toolRuns tr) ∧
        results' =
          {| DecompileResults.decompiled :=
               DecompileResults.decompiled results;
             DecompileResults.failed := DecompileResults.failed results + 1;
             DecompileResults.errors :=
               DecompileResults.errors results ++ [(vpkFile, error)] |})).
Proof.
  unfold Source2Viewer.decompileOne. rewrite run_tryCatch, run_bind.
  destruct (run handle (Source2Viewer.decompileFile _ _ _ _ _ _ _ _) w)
    as [[o1 tr1] w1] eqn:Hfile.
  apply run_decompileFile
    in Hfile as [[Hnone [e ->]]|(command & result & Hone & ->)].
  - cbn [run]. intros [= <- <- <-]. eexists. split; [done|right].
    exists (message e). rewrite app_nil_r, Hnone. by split.
  - unfold Source2Viewer.toExtractResult at 1. cbn [ExtractResult.success].
    destruct (CommandResult.success result) eqn:Hsuccess; cbn [run];
      intros [= <- <- <-]; rewrite app_nil_r, Hone;
      (eexists; split; [done|]).
    + left. by eexists.
    + right. eexists. split; [|done]. by repeat constructor.
Qed.

Lemma run_decompileEach this outputDir options vpkFiles results w o tr w' :
  run handle (Source2Viewer.decompileEach toLowerCase basename platform arch
                this outputDir options vpkFiles results) w
  = (o, tr, w') →
  ∃ results' new,
    o = Returned results' ∧
    DecompileResults.errors results'
    = DecompileResults.errors results ++ new ∧
    DecompileResults.failed results'
    = DecompileResults.failed results + N.of_nat (length new) ∧
    DecompileResults.decompiled results' + N.of_nat (length new)
    = DecompileResults.decompiled results + N.of_nat (length vpkFiles) ∧
    new.*1 `sublist_of` vpkFiles ∧
    DecompileResults.decompiled results'
    = DecompileResults.decompiled results +
      N.of_nat (length (filter (λ run, CommandResult.success run.2 = true)
                               (toolRuns tr))).
Proof.
  revert results w o tr w'. induction vpkFiles as [|vpkFile vpkFiles IH];
    intros results w o tr w'.
  - intros [= <- <- <-]. exists results, []. rewrite app_nil_r. simpl.
    split_and!; try done; try lia.
  - cbn [Source2Viewer.decompileEach]. rewrite run_bind.
    destruct (run handle (Source2Viewer.decompileOne _ _ _ _ _ _ _ _ _) w)
      as [[o1 tr1] w1] eqn:Hone.
    apply run_decompileOne in Hone as (results1 & -> & Hone).
    destruct (run handle (Source2Viewer.decompileEach _ _ _ _ _ _ _ _ _) w1)
      as [[o2 tr2] w2] eqn:Hrest.
    apply IH in Hrest
      as (results' & new & -> & Herrors & Hfailed & Hcount & Hsub & Hruns).
    intros [= <- <- <-]. rewrite toolRuns_app, filter_app, length_app.
    destruct Hone as [(run & -> & Hok & ->)|(error & Hko & ->)];
      simpl in Herrors, Hfailed, Hcount, Hruns.
    + exists results', new. rewrite filter_cons_True by done. simpl.
      split_and!; try done; try lia. by apply sublist_cons.
    + exists results', ((vpkFile, error) :: new).
      assert (filter (λ run, CommandResult.success run.2 = true) (toolRuns tr1)
              = []) as ->.
      { clear -Hko. induction Hko as [|run runs Hrun _ IHko]; [done|].
        rewrite filter_cons_False; [done|]. by rewrite Hrun. }
      rewrite <- app_assoc in Herrors. simpl.
      split_and!; try done; try lia. by apply sublist_skip.
Qed.

(** X20. [decompileVPKFiles] throws only if the decompiler cannot be made
    available at the start, before any run of it.  Otherwise it returns, and
    every file is counted once: decompiled plus failed is the number of
    files, the failed count is the number of error entries, these name files
    of the list in order, and the decompiled count is the number of runs of
    the decompiler that succeeded. *)
Theorem decompileVPKFiles_accounts_for_every_file this vpkFiles outputDir
    options w :
  let r := run handle (Source2Viewer.decompileVPKFiles toLowerCase basename
                         platform arch this vpkFiles outputDir options) w in
  (toolRuns (trace r) = [] ∧ ∃ e, outcome r = Threw e) ∨
  ∃ results,
    outcome r = Returned results ∧
    DecompileResults.decompiled results + DecompileResults.failed results
    = N.of_nat (length vpkFiles) ∧
    DecompileResults.failed results
    = N.of_nat (length (DecompileResults.errors results)) ∧
    (DecompileResults.errors results).*1 `sublist_of` vpkFiles ∧
    DecompileResults.decompiled results
    = N.of_nat (length (filter (λ run, CommandResult.success run.2 = true)
                               (toolRuns (trace r)))).
Proof.
  cbv zeta. unfold outcome, trace, Source2Viewer.decompileVPKFiles.
  rewrite run_bind.
  destruct (run handle (Source2Viewer.ensureSource2ViewerExists _ _ _ _ this) w)
    as [[o1 tr1] w1] eqn:Hensure.
  apply run_ensureSource2ViewerExists in Hensure as [Hensure _].
  destruct o1 as [installed|e]; [|left; eauto].
  destruct (run handle (Source2Viewer.decompileEach _ _ _ _ _ _ _ _ _) w1)
    as [[o2 tr2] w2] eqn:Heach.
  apply run_decompileEach in Heach
    as (results & new & -> & Herrors & Hfailed & Hcount & Hsub & Hruns).
  simpl in *. right. exists results. rewrite toolRuns_app, Hensure, Herrors.
  simpl. split_and!; try done; lia.
Qed.

End viewer.

(** ** The extraction without the decompiler *)

Section extractor_properties.

Context (extname dirname toLowerCase : jsstring → jsstring).

Implicit Types (vpkDir : VPK) (vpkFolders folders imageFiles : list jsstring).

Lemma selectImage_spec fileName folders imageFiles :
  selectImage extname toLowerCase fileName folders imageFiles =
  imageFiles ++
  List.filter (isImage toLowerCase extname folders) [fileName].
Proof.
  unfold isImage. induction folders as [|folder folders IH]; simpl.
  - by rewrite app_nil_r.
  - destruct (startsWith fileName folder); simpl.
    + case_bool_decide; simpl; by rewrite ?app_nil_r.
    + apply IH.
Qed.

Lemma selectImages_spec vpkFolders vpkDir :
  selectImages extname toLowerCase vpkFolders vpkDir
  = List.filter (isImage toLowerCase extname vpkFolders) (files vpkDir).
Proof.
  unfold selectImages.
  assert (∀ fileNames imageFiles,
            fold_left (λ imageFiles fileName,
                         selectImage extname toLowerCase fileName vpkFolders
                                     imageFiles) fileNames imageFiles
            = imageFiles ++
              List.filter (isImage toLowerCase extname vpkFolders) fileNames)
    as Hfold.
  { induction fileNames as [|fileName fileNames IH]; intros imageFiles.
    - simpl. by rewrite app_nil_r.
    - cbn [fold_left]. rewrite IH, selectImage_spec, <- app_assoc.
      f_equal. simpl. by destruct (isImage _ _ _ _). }
  apply Hfold.
Qed.

(** X21. The images that [extractImagesFromVPK] picks are the listed
    entries that start with some selector and whose lower-cased extension is
    one of the eight image extensions, in listing order; and each of them
    lives in a shard that the planner requires for the same selectors. *)
Theorem the_images_are_a_filter_of_the_listing vpkFolders vpkDir :
  let imageFiles := selectImages extname toLowerCase vpkFolders vpkDir in
  imageFiles
  = List.filter (isImage toLowerCase extname vpkFolders) (files vpkDir) ∧
  imageFiles `sublist_of` files vpkDir ∧
  (∀ fileName fileInfo i,
     fileName ∈ imageFiles → tree vpkDir !! fileName = Some fileInfo →
     archiveIndex fileInfo = Some i →
     i ∈ getRequiredVPKArchives vpkFolders vpkDir).
Proof.
  cbv zeta. rewrite selectImages_spec. split_and!; [done| |].
  - induction (files vpkDir) as [|fileName fileNames IH]; simpl; [done|].
    destruct (isImage _ _ _ _); by constructor.
  - intros fileName fileInfo i Hin Hlook Hindex.
    apply list_elem_of_In, filter_In in Hin as [Hin Himage].
    apply list_elem_of_In in Hin.
    apply andb_true_iff in Himage as [Hfolder _].
    apply existsb_exists in Hfolder as (folder & Hfolder & Hstarts).
    apply list_elem_of_In in Hfolder.
    apply elem_of_getRequiredVPKArchives.
    by exists fileName, folder, fileInfo.
Qed.

End extractor_properties.

Section extractor_runs.

Context {W : Type} (handle : ∀ X, ExtractorCall X → W → X * W).
Context (extname dirname toLowerCase : jsstring → jsstring).

Implicit Types (w : W) (tr : list (Event ExtractorCall))
  (results : Results.t).

Local Arguments Nat.div : simpl never.

Ltac accounting :=
  split_and!; try done; try lia; try apply sublist_nil_l;
  try (by apply sublist_skip, sublist_nil).

Lemma reads_app tr1 tr2 : reads (tr1 ++ tr2) = reads tr1 ++ reads tr2.
Proof. apply omap_app. Qed.
Lemma pauses_app tr1 tr2 : pauses (tr1 ++ tr2) = pauses tr1 ++ pauses tr2.
Proof. apply omap_app. Qed.
Lemma loaded_app tr1 tr2 : loaded (tr1 ++ tr2) = loaded tr1 ++ loaded tr2.
Proof. apply omap_app. Qed.

Lemma run_extractFile outputDir results fileName w o tr w' :
  run handle (extractFile dirname outputDir results fileName) w = (o, tr, w') →
  reads tr = [fileName] ∧ pauses tr = [] ∧ loaded tr = [] ∧
  ((∃ results', o = Returned results' ∧ counted results [fileName] results') ∨
   o = Threw (diskSpaceExhausted fileName)).
Proof.
  unfold extractFile. rewrite run_tryCatch, run_bind, run_call.
  answer_of handle.
  assert (∀ e tr0 (w0 : W),
            (let '(o, tr2, w2) :=
               run handle
                 match onExtractError fileName e results with
                 | inl e' => Throw e'
                 | inr results' => Ret results'
                 end w0 in (o, tr0 ++ tr2, w2)) = (o, tr, w') →
            tr = tr0 ∧
            ((∃ results', o = Returned results' ∧
                          counted results [fileName] results') ∨
             o = Threw (diskSpaceExhausted fileName))) as Hcatch.
  { intros e tr0 w1. unfold onExtractError.
    destruct (isDiskSpaceError (message e)); cbn [run];
      intros [= <- <- <-]; rewrite app_nil_r; (split; [done|]); [by right|].
    left. eexists. split; [done|]. exists [(fileName, message e)]. simpl.
    accounting. }
  destruct x as [e|[data|]].
  - intros [-> ?]%Hcatch. done.
  - cbn [run]. rewrite run_bind, run_perform. answer_of handle.
    rewrite run_bind. destruct x.
    + cbn [run]. rewrite run_bind, run_call. answer_of handle.
      destruct x as [e|[]].
      * intros [-> ?]%Hcatch. done.
      * cbn [run]. intros [= <- <- <-]. split_and!; [done..|left].
        eexists. split; [done|]. exists []. rewrite app_nil_r. simpl.
        accounting.
    + rewrite run_call. answer_of handle. destruct x as [e|[]].
      * intros [-> ?]%Hcatch. done.
      * rewrite run_bind, run_call. answer_of handle. destruct x as [e|[]].
        -- intros [-> ?]%Hcatch. done.
        -- cbn [run]. intros [= <- <- <-]. split_and!; [done..|left].
           eexists. split; [done|]. exists []. rewrite app_nil_r. simpl.
           accounting.
  - cbn [run]. intros [= <- <- <-]. split_and!; [done..|left].
    eexists. split; [done|]. eexists [(fileName, _)]. simpl.
    accounting.
Qed.

Lemma counted_app results results1 results2 (fileNames1 fileNames2 : list jsstring) :
  counted results fileNames1 results1 → counted results1 fileNames2 results2 →
  counted results (fileNames1 ++ fileNames2) results2.
Proof.
  intros (new1 & He1 & Hf1 & Hx1 & Hs1 & Hd1) (new2 & He2 & Hf2 & Hx2 & Hs2 & Hd2).
  exists (new1 ++ new2). rewrite fmap_app, !length_app.
  split_and!; [by rewrite He2, He1, app_assoc|lia|lia|by apply sublist_app|
               congruence].
Qed.

Lemma counted_nil results : counted results [] results.
Proof. exists []. rewrite app_nil_r. simpl. accounting. Qed.

Lemma run_extractBatch outputDir batch results w o tr w' :
  run handle (extractBatch dirname outputDir batch results) w = (o, tr, w') →
  pauses tr = [] ∧ loaded tr = [] ∧
  ((∃ results', o = Returned results' ∧ reads tr = batch ∧
                counted results batch results') ∨
   (∃ before fileName rest,
      batch = before ++ fileName :: rest ∧ reads tr = before ++ [fileName] ∧
      o = Threw (diskSpaceExhausted fileName))).
Proof.
  revert results w o tr w'. induction batch as [|fileName batch IH];
    intros results w o tr w'.
  - intros [= <- <- <-]. split_and!; [done..|left].
    exists results. split_and!; [done..|apply counted_nil].
  - cbn [extractBatch]. rewrite run_bind.
    destruct (run handle (extractFile _ _ _ _) w) as [[o1 tr1] w1] eqn:Hfile.
    apply run_extractFile
      in Hfile as (Hread & Hpause & Hload & [(results1 & -> & Hone)| ->]).
    + destruct (run handle (extractBatch _ _ _ _) w1)
        as [[o2 tr2] w2] eqn:Hrest.
      apply IH in Hrest
        as (Hpause' & Hload' &
            [(results' & -> & Hreads & Hcount)
            |(before & f & rest & -> & Hreads & ->)]);
        intros [= <- <- <-];
        rewrite reads_app, pauses_app, loaded_app, Hread, Hpause, Hload,
          Hpause', Hload', Hreads; (split_and!; [done..|]).
      * left. exists results'. split_and!; [done..|].
        by apply (counted_app _ results1 _ [fileName] batch).
      * right. by exists (fileName :: before), f, rest.
    + intros [= <- <- <-]. split_and!; [done..|right].
      by exists [], fileName, batch.
Qed.

Lemma batches_left (remaining : nat) :
  (0 < remaining)%nat →
  ((remaining + 19) / 20 = S ((remaining - 20 + 19) / 20))%nat.
Proof.
  intros Hsome. destruct (le_lt_dec 20 remaining) as [Hmany|Hfew].
  - replace (remaining + 19)%nat with ((remaining - 20 + 19) + 1 * 20)%nat
      by lia.
    rewrite Nat.div_add by lia. lia.
  - replace (remaining - 20)%nat with 0%nat by lia.
    symmetry. rewrite (Nat.div_small (0 + 19)) by lia.
    apply (Nat.div_unique _ _ 1 (remaining - 1)); lia.
Qed.

Lemma run_extractBatches fuel outputDir imageFiles batchStart results
    w o tr w' :
  (length imageFiles - batchStart ≤ fuel * 20)%nat →
  run handle (extractBatches dirname fuel outputDir imageFiles batchStart
                             results) w = (o, tr, w') →
  loaded tr = [] ∧
  pauses tr = replicate (length (pauses tr)) 200 ∧
  ((∃ results',
      o = Returned results' ∧ reads tr = drop batchStart imageFiles ∧
      counted results (drop batchStart imageFiles) results' ∧
      length (pauses tr) = ((length imageFiles - batchStart + 19) / 20)%nat) ∨
   (∃ before fileName rest,
      drop batchStart imageFiles = before ++ fileName :: rest ∧
      reads tr = before ++ [fileName] ∧
      o = Threw (diskSpaceExhausted fileName))).
Proof.
  revert batchStart results w o tr w'.
  induction fuel as [|fuel IH]; intros batchStart results w o tr w' Hfuel.
  - intros [= <- <- <-]. split_and!; [done..|left]. exists results.
    rewrite drop_ge by lia. replace (length imageFiles - batchStart)%nat
      with 0%nat by lia.
    split_and!; [done..|apply counted_nil|done].
  - cbn [extractBatches].
    destruct (batchStart <? length imageFiles)%nat eqn:Hmore.
    2: { apply Nat.ltb_ge in Hmore. intros [= <- <- <-].
         split_and!; [done..|left]. exists results.
         rewrite drop_ge by lia. replace (length imageFiles - batchStart)%nat
           with 0%nat by lia.
         split_and!; [done..|apply counted_nil|done]. }
    apply Nat.ltb_lt in Hmore. cbv zeta. rewrite run_bind.
    assert (slice imageFiles batchStart
              (Nat.min (batchStart + batchSize) (length imageFiles))
            = take batchSize (drop batchStart imageFiles)) as ->.
    { unfold slice, batchSize.
      destruct (le_lt_dec (batchStart + 20) (length imageFiles)).
      - rewrite Nat.min_l by lia. f_equal. lia.
      - rewrite Nat.min_r by lia.
        rewrite !take_ge; [done|rewrite length_drop; lia..]. }
    assert (drop batchStart imageFiles
            = take batchSize (drop batchStart imageFiles) ++
              drop (batchStart + batchSize) imageFiles) as Hsplit.
    { rewrite <- (take_drop batchSize (drop batchStart imageFiles)) at 1.
      by rewrite drop_drop. }
    destruct (run handle (extractBatch _ _ _ _) w) as [[o1 tr1] w1] eqn:Hbatch.
    apply run_extractBatch in Hbatch
      as (Hpause & Hload &
          [(results1 & -> & Hreads & Hcount)
          |(before & f & rest & Hbatch & Hreads & ->)]).
    2: { intros [= <- <- <-]. rewrite Hpause. split_and!; [done..|right].
         exists before, f, (rest ++ drop (batchStart + batchSize) imageFiles).
         split_and!; [|done..]. rewrite Hsplit, Hbatch.
         by rewrite <- app_assoc. }
    rewrite run_bind, run_perform. answer_of handle.
    destruct (run handle (extractBatches _ _ _ _ _ _) w0)
      as [[o2 tr2] w2] eqn:Hrest.
    apply IH in Hrest
      as (Hload' & Hpause' &
          [(results' & -> & Hreads' & Hcount' & Hlen)
          |(before & f & rest & Hdrop & Hreads' & ->)]);
      [| |unfold batchSize; lia];
      intros [= <- <- <-];
      rewrite ?reads_app, ?pauses_app, ?loaded_app;
      change (pauses (Ev (extractor_node (setTimeout 200)) x :: tr2))
        with (200 :: pauses tr2);
      change (reads (Ev (extractor_node (setTimeout 200)) x :: tr2))
        with (reads tr2);
      change (loaded (Ev (extractor_node (setTimeout 200)) x :: tr2))
        with (loaded tr2);
      rewrite Hpause, Hload, Hload', Hreads, Hreads';
      simpl; (split_and!; [done|by rewrite Hpause' at 1|]).
    + left. exists results'. split_and!; [done|by rewrite <- Hsplit| |].
      * rewrite Hsplit at 1. by eapply counted_app.
      * rewrite Hlen, (batches_left (length imageFiles - batchStart)) by lia.
        unfold batchSize. do 3 f_equal. lia.
    + right. exists (take batchSize (drop batchStart imageFiles) ++ before), f, rest.
      split_and!; [|by rewrite app_assoc|done].
      rewrite <- app_assoc, <- Hdrop. exact Hsplit.
Qed.

(** X22. When [extractImagesFromVPK] returns, it has loaded one directory
    and read each of its images once, in order; extracted plus failed is the
    number of images, the failed count is the number of error entries, which
    name images in order, and it has paused 200 ms once per batch of twenty.
    Once it reads entries, the only error it throws is the one of disk
    exhaustion, naming the entry read last.  A run that loads no directory
    has found no directory file, and has thrown the error that says so. *)
Theorem extractImagesFromVPK_accounts_for_every_image tempDir outputDir
    vpkFolders w :
  let r := run handle (extractImagesFromVPK extname dirname toLowerCase
                         tempDir outputDir vpkFolders) w in
  (∀ results,
     outcome r = Returned results →
     ∃ vpkDir,
       let imageFiles := selectImages extname toLowerCase vpkFolders vpkDir in
       loaded (trace r) = [inr vpkDir] ∧ reads (trace r) = imageFiles ∧
       Results.extracted results + Results.failed results
       = N.of_nat (length imageFiles) ∧
       Results.failed results = N.of_nat (length (Results.errors results)) ∧
       (Results.errors results).*1 `sublist_of` imageFiles ∧
       pauses (trace r)
       = replicate ((length imageFiles + 19) / 20)%nat 200) ∧
  (∀ e, outcome r = Threw e → reads (trace r) ≠ [] →
        ∃ fileName,
          last (reads (trace r)) = Some fileName ∧
          e = mkError (str "Disk space exhausted while extracting " ++
                       fileName ++
                       str ". Consider running locally or increasing runner disk space.")) ∧
  (loaded (trace r) = [] →
   outcome r = Threw (mkError (str "VPK directory file not found. Make sure downloads completed successfully."))).
Proof.
  cbv zeta. unfold extractImagesFromVPK, outcome, trace.
  rewrite run_bind, run_perform. answer_of handle.
  destruct x; cbn [negb].
  2: { cbn [run fst snd]. split_and!; [done|by intros ? _ []|done]. }
  rewrite run_bind, run_call. answer_of handle.
  destruct x as [e|vpkDir].
  { cbn [fst snd]. split_and!; [done|by intros ? _ []|done]. }
  cbv zeta. rewrite run_bind, run_perform. answer_of handle.
  rewrite run_bind.
  assert (∀ o tr tr2 w3 w4,
            run handle
              (extractBatches dirname
                 (length (selectImages extname toLowerCase vpkFolders vpkDir))
                 outputDir
                 (selectImages extname toLowerCase vpkFolders vpkDir) 0
                 {| Results.downloaded := 0; Results.extracted := 0;
                    Results.failed := 0; Results.errors := [] |}) w3
            = (o, tr2, w4) →
            reads tr = reads tr2 → pauses tr = pauses tr2 →
            loaded tr = inr vpkDir :: loaded tr2 →
            (∀ results,
               o = Returned results →
               ∃ vpkDir0,
                 loaded tr = [inr vpkDir0] ∧
                 reads tr
                 = selectImages extname toLowerCase vpkFolders vpkDir0 ∧
                 Results.extracted results + Results.failed results
                 = N.of_nat (length (selectImages extname toLowerCase
                                       vpkFolders vpkDir0)) ∧
                 Results.failed results
                 = N.of_nat (length (Results.errors results)) ∧
                 (Results.errors results).*1
                   `sublist_of` selectImages extname toLowerCase vpkFolders
                                             vpkDir0 ∧
                 pauses tr
                 = replicate ((length (selectImages extname toLowerCase
                                         vpkFolders vpkDir0) + 19) / 20)%nat
                             200) ∧
            (∀ e, o = Threw e → reads tr ≠ [] →
                  ∃ fileName,
                    last (reads tr) = Some fileName ∧
                    e = mkError (str "Disk space exhausted while extracting " ++
                                 fileName ++
                                 str ". Consider running locally or increasing runner disk space.")) ∧
            (loaded tr = [] →
             o = Threw (mkError (str "VPK directory file not found. Make sure downloads completed successfully."))))
    as Hloop.
  { intros o tr tr2 w3 w4 Hbatches Hreads Hpauses Hloaded.
    apply run_extractBatches in Hbatches
      as (Hload & Hpause &
          [(results' & -> & Hreads' & (new & He & Hf & Hx & Hs & _) & Hlen)
          |(before & f & rest & _ & Hreads' & ->)]); [| |lia];
      rewrite Hreads, Hpauses, Hloaded, Hload; simpl in *;
      (split_and!; [| |done]).
    - intros ? [= <-]. exists vpkDir. rewrite Nat.sub_0_r in Hlen.
      rewrite drop_0 in Hreads', Hx, Hs.
      rewrite He, Hpause, Hlen. split_and!; try done; lia.
    - done.
    - done.
    - intros ? [= <-] _. exists f. by rewrite Hreads', last_snoc. }
  destruct x.
  - cbn [run].
    destruct (run handle (extractBatches _ _ _ _ _ _) w2)
      as [[o2 tr2] w4] eqn:Hbatches. cbn [fst snd].
    by eapply Hloop.
  - rewrite run_call. answer_of handle. destruct x as [e|[]].
    + cbn [fst snd]. split_and!; [done|by intros ? _ []|done].
    + destruct (run handle (extractBatches _ _ _ _ _ _) w3)
        as [[o2 tr2] w4] eqn:Hbatches. cbn [fst snd].
      by eapply Hloop.
Qed.

End extractor_runs.

(** ** The main program *)

Section main_program.

Context {W : Type} (handle : ∀ X, MainCall X → W → X * W).

Implicit Types (w : W) (tr : list (Event MainCall)).

Ltac main_paths :=
  repeat (first
    [ answer_of handle
    | match goal with
      | |- context [if ?b then _ else _] => destruct b
      | |- context [match ?x with inl _ => _ | inr _ => _ end] => destruct x
      end ];
    cbn [run bind mbind Prog_bind perform call tryCatch fst snd outcome
         trace negb];
    rewrite ?andb_false_r, ?andb_true_r;
    cbn [run bind mbind Prog_bind perform call tryCatch fst snd outcome
         trace negb]).

(** X23. [main] either ends with [process.exit], 1 or, without [--force]
    only, 0, having neither run the processor nor written a file; or it
    runs the processor once, writes the manifest it was run for to
    [./static/manifest.txt], and completes, whether the processing returned
    or threw and whether the write succeeded. *)
Theorem main_records_the_manifest_whatever_the_processing forceFlag w :
  let r := run handle (main forceFlag) w in
  (processings (trace r) = [] ∧ writes (trace r) = [] ∧
   (outcome r = Returned (Exited 1) ∨
    outcome r = Returned (Exited 0) ∧ forceFlag = false)) ∨
  (∃ latestManifestId answer,
     processings (trace r) = [(latestManifestId, answer)] ∧
     writes (trace r) = [(str "./static/manifest.txt", latestManifestId)] ∧
     outcome r = Returned Completed).
Proof.
  cbv zeta. unfold main, readExistingManifestId.
  cbn [run bind mbind Prog_bind perform call tryCatch].
  destruct forceFlag; main_paths; eauto 10.
Qed.

End main_program.

Lemma isDigit_isWhiteSpace ch : isDigit ch = true → isWhiteSpace ch = false.
Proof.
  unfold isWhiteSpace, isDigit.
  intros [?%N.leb_le ?%N.leb_le]%andb_true_iff.
  apply orb_false_iff. split.
  - apply bool_decide_eq_false_2. rewrite !elem_of_cons.
    intros Hin. repeat (destruct Hin as [->|Hin]; [lia|]).
    by apply elem_of_nil in Hin.
  - apply andb_false_iff. left. apply N.leb_gt. lia.
Qed.

Lemma trimStart_digits m : Forall (λ ch, isDigit ch = true) m → trimStart m = m.
Proof.
  destruct 1 as [|ch m Hch _]; [done|]. simpl.
  by rewrite (isDigit_isWhiteSpace ch Hch).
Qed.

Lemma trim_digits m : digits m → trim m = m.
Proof.
  intros [_ Hm]. unfold trim. rewrite (trimStart_digits m Hm).
  rewrite trimStart_digits; [apply rev_involutive|]. by apply Forall_rev.
Qed.

(** X24. With a manifest file that can be written, a manifest is
    processed at most once: after a run of [main] without [--force], whether
    its processing returned or threw, a second run for the same latest
    manifest exits with code 0 without running the processor or writing. *)
Theorem a_manifest_is_processed_at_most_once latest processing processing'
    file :
  digits latest →
  let first := run (scriptedMain latest processing) (main false) file in
  let second := run (scriptedMain latest processing') (main false) first.2 in
  (processings (trace first) = [] ∨
   processings (trace first) = [(latest, processing)] ∧
   writes (trace first) = [(str "./static/manifest.txt", latest)] ∧
   first.2 = Some latest) ∧
  outcome second = Returned (Exited 0) ∧ processings (trace second) = [] ∧
  writes (trace second) = [].
Proof.
  intros Hdigits0. pose proof (trim_digits _ Hdigits0) as Hdigits. cbv zeta.
  assert (∀ text,
            trim text = latest →
            run (scriptedMain latest processing') (main false) (Some text)
            = (Returned (Exited 0),
               [Ev (depotDownloader_getLatestManifestId index.appId
                      index.depotId) (inr latest);
                Ev (fs_readFileSync manifestPath) (inr text)],
               Some text)) as Hsecond.
  { intros text Htext. unfold main, readExistingManifestId.
    cbn [run bind mbind Prog_bind perform call tryCatch scriptedMain].
    rewrite Htext, bool_decide_eq_true_2 by done. done. }
  assert (let first := run (scriptedMain latest processing) (main false) file
          in
          (processings (trace first) = [] ∧
           ∃ text, first.2 = Some text ∧ trim text = latest) ∨
          (processings (trace first) = [(latest, processing)] ∧
           writes (trace first) = [(str "./static/manifest.txt", latest)] ∧
           first.2 = Some latest)) as Hfirst.
  { unfold main, readExistingManifestId. destruct file as [text|].
    - destruct (decide (trim text = latest)) as [Hsame|Hchanged].
      + left. simpl. rewrite bool_decide_eq_true_2 by done. simpl. eauto.
      + right. simpl. rewrite bool_decide_eq_false_2 by done.
        by destruct processing.
    - right. simpl.
      rewrite (bool_decide_eq_false_2 ([] = latest))
        by (intros <-; by destruct Hdigits0 as [? _]).
      by destruct processing. }
  cbv zeta in Hfirst.
  destruct (run (scriptedMain latest processing) (main false) file)
    as [[o1 tr1] file1].
  destruct Hfirst as [[Hnone (text & Hfile & Htext)]|(Hone & Hwritten & Hfile)];
    simpl in Hfile; subst file1; cbn [snd].
  - rewrite (Hsecond text Htext). split; [by left|done].
  - rewrite (Hsecond latest Hdigits). split; [by right|done].
Qed.

(** * More concrete runs *)

(** A selector below another one adds nothing to the plan. *)
Lemma longer_selector_is_redundant_witness :
  str "a/" ∈ [str "a/"; str "b/"] ∧ startsWith (str "a/x") (str "a/") = true ∧
  getRequiredVPKArchives [str "a/x"; str "a/"; str "b/"] scenarioDir
  = getRequiredVPKArchives [str "a/"; str "b/"] scenarioDir.
Proof.
  assert (str "a/" ∈ [str "a/"; str "b/"]) as Hin by apply list_elem_of_here.
  split_and!; [exact Hin|reflexivity|].
  apply (longer_selector_is_redundant [str "a/"; str "b/"] scenarioDir
           (str "a/") (str "a/x") Hin eq_refl).
Defined.

(** The plan of a directory does not change when its entries are listed in
    another order, or twice. *)
Lemma plan_depends_on_the_set_of_entries_witness :
  getRequiredVPKArchives [str "a/"; str "b/"] scenarioDir
  = getRequiredVPKArchives [str "a/"; str "b/"] scenarioDirRelisted.
Proof.
  apply (plan_depends_on_the_set_of_entries [str "a/"; str "b/"] scenarioDir
           scenarioDirRelisted).
  - intros fileName. simpl. rewrite !elem_of_cons. tauto.
  - intros fileName _. reflexivity.
Defined.

(** The good run returns after having loaded the directory. *)
Lemma a_returned_run_result_witness :
  let r := run (scripted goodScript)
               (processVPKFiles scenarioProcessor 730 2347770 (str "1")) [] in
  outcome r = Returned {| Results.downloaded := 2; Results.extracted := 3;
                          Results.failed := 0; Results.errors := [] |} ∧
  ∃ vpkDir, loads (observe (trace r)) = [inr vpkDir].
Proof.
  cbv zeta.
  assert (outcome (run (scripted goodScript)
                       (processVPKFiles scenarioProcessor 730 2347770
                                        (str "1")) [])
          = Returned {| Results.downloaded := 2; Results.extracted := 3;
                        Results.failed := 0; Results.errors := [] |})
    as Hreturned by (vm_compute; reflexivity).
  split; [exact Hreturned|].
  destruct (a_returned_run_result (scripted goodScript) scenarioProcessor
              730 2347770 (str "1") [] _ Hreturned) as (vpkDir & Hloads & _).
  exists vpkDir. exact Hloads.
Defined.

(** The fetch of the directory file fails: nothing is loaded. *)
Lemma directory_failure_is_fatal_witness :
  let r := run (scripted (directoryFailing "Max attempts exceeded"))
               (processVPKFiles scenarioProcessor 730 2347770 (str "1")) [] in
  outcome r =
    Threw (mkError
             (str "Failed to download VPK directory: Max attempts exceeded")) ∧
  loads (observe (trace r)) = [].
Proof.
  cbv zeta.
  destruct (directory_failure_is_fatal
              (scripted (directoryFailing "Max attempts exceeded"))
              scenarioProcessor 730 2347770 (str "1") []
              (str "csgo/pak01_dir\.vpk")
              (notFetched "Max attempts exceeded") [])
    as (_ & Hthrown & _ & Hloads & _);
    [vm_compute; reflexivity|reflexivity|].
  split; [exact Hthrown|exact Hloads].
Defined.

(** In the good run the decompiler runs, after the batch of shards 0 and 1
    was fetched. *)
Lemma the_decompiler_runs_after_the_batch_witness :
  let obs :=
    observe (trace (run (scripted goodScript)
                        (processVPKFiles scenarioProcessor 730 2347770
                                         (str "1")) [])) in
  decompilations obs ≠ [] ∧
  ∃ before downloadResult after,
    obs = before ++ BatchFetch [str "csgo/pak01_000\.vpk";
                                str "csgo/pak01_001\.vpk"]
                               (inr downloadResult) :: after ∧
    decompilations before = [].
Proof.
  cbv zeta.
  assert (decompilations
            (observe (trace (run (scripted goodScript)
                                 (processVPKFiles scenarioProcessor 730
                                    2347770 (str "1")) []))) ≠ []) as Hsome
    by (vm_compute; discriminate).
  split; [exact Hsome|].
  destruct (the_decompiler_runs_after_the_batch (scripted goodScript)
              scenarioProcessor 730 2347770 (str "1") [] Hsome)
    as (vpkDir & before & downloadResult & after & Hobs & _ & _ & Hloads
        & Hnone & _).
  exists before, downloadResult, after. split; [|exact Hnone].
  rewrite Hobs. repeat f_equal.
  assert (loads (observe (trace (run (scripted goodScript)
                                     (processVPKFiles scenarioProcessor 730
                                        2347770 (str "1")) [])))
          = [inr scenarioDir]) as Hloaded by (vm_compute; reflexivity).
  rewrite Hobs, loads_app, Hloads in Hloaded. simpl in Hloaded.
  injection Hloaded as -> _. reflexivity.
Defined.

(** The downloader of [index.js], every attempt failing: the file list is
    there from before the first attempt to after the last. *)
Lemma the_file_list_lives_for_the_attempts_witness :
  let this :=
    index.depotDownloader (str "linux") (str "user") (str "secret") in
  let operation :=
    MultipleFiles 730 2347770 (str "1")
      [str "csgo/pak01_000\.vpk"; str "csgo/pak01_001\.vpk"]
      (Some (str "./temp_vpk")) in
  let path := str "temp/batch_filelist_2347770.txt" in
  let data :=
    str "regex:csgo/pak01_000\.vpk" ++ [10] ++ str "regex:csgo/pak01_001\.vpk"
  in
  let r := run (scriptedNode (λ _, commandFailed))
               (invoke (str "linux") this operation) (0%nat, 0%Z) in
  fileListOf this operation = Some (path, data) ∧
  ∃ before during answer,
    trace r = before ++
              Ev (node_fs (writeFileSync path data)) (inr tt)
              :: during ++ [Ev (node_fs (unlinkSync path)) answer] ∧
    length (attempts (steps during)) = 3%nat.
Proof.
  cbv zeta.
  assert (fileListOf
            (index.depotDownloader (str "linux") (str "user") (str "secret"))
            (MultipleFiles 730 2347770 (str "1")
               [str "csgo/pak01_000\.vpk"; str "csgo/pak01_001\.vpk"]
               (Some (str "./temp_vpk")))
          = Some (str "temp/batch_filelist_2347770.txt",
                  str "regex:csgo/pak01_000\.vpk" ++ [10] ++
                  str "regex:csgo/pak01_001\.vpk")) as Hlist
    by (vm_compute; reflexivity).
  split; [exact Hlist|].
  destruct (the_file_list_lives_for_the_attempts
              (scriptedNode (λ _, commandFailed)) (str "linux") _ _ _ _
              (0%nat, 0%Z) Hlist)
    as [[Hnone _]|(before & during & answer & result & Htrace & _ & Hsteps & _)].
  - vm_compute in Hnone. discriminate.
  - exists before, during, answer. split; [exact Htrace|].
    rewrite Hsteps. vm_compute. reflexivity.
Defined.

(** Every attempt fails: the error of the operation is that of the retry
    loop, not that of the command. *)
Lemma a_failed_download_reports_max_attempts_witness :
  let r := run (scriptedNode (λ _, commandFailed))
               (invoke (str "linux")
                  (index.depotDownloader (str "linux") (str "user")
                                         (str "secret"))
                  (SpecificFiles 730 2347770 (str "1")
                     (str "csgo/pak01_dir\.vpk") (Some (str "./temp_vpk"))))
               (0%nat, 0%Z) in
  outcome r = Returned (notFetched "Max attempts exceeded") ∧
  CommandResult.error commandFailed = Some (str "Process exited with code 1").
Proof.
  cbv zeta.
  assert (outcome (run (scriptedNode (λ _, commandFailed))
               (invoke (str "linux")
                  (index.depotDownloader (str "linux") (str "user")
                                         (str "secret"))
                  (SpecificFiles 730 2347770 (str "1")
                     (str "csgo/pak01_dir\.vpk") (Some (str "./temp_vpk"))))
               (0%nat, 0%Z))
          = Returned (notFetched "Max attempts exceeded")) as Hreturned
    by (vm_compute; reflexivity).
  split; [exact Hreturned|].
  pose proof (a_failed_download_reports_max_attempts
                (scriptedNode (λ _, commandFailed)) (str "linux") _ _
                (0%nat, 0%Z) _ Hreturned) as _.
  reflexivity.
Defined.

(** The identifier of the example output of [DepotDownloader]. *)
Lemma the_manifest_id_is_a_whole_number_witness :
  let output := str "Manifest 1597148535702430842 (07/07/2025 21:24:46)" in
  firstManifestMatch manifestPatterns output
  = Some (Some (str "1597148535702430842")) ∧
  ∃ before after,
    output = before ++ str "1597148535702430842" ++ after ∧
    (∀ ch, head after = Some ch → isDigit ch = false).
Proof.
  cbv zeta.
  assert (firstManifestMatch manifestPatterns
            (str "Manifest 1597148535702430842 (07/07/2025 21:24:46)")
          = Some (Some (str "1597148535702430842"))) as Hmatch
    by (vm_compute; reflexivity).
  split; [exact Hmatch|].
  destruct (the_manifest_id_is_a_whole_number _ _ Hmatch)
    as (m & before & after & Hm & Houtput & _ & _ & Hafter).
  injection Hm as <-. exists before, after. split; [exact Houtput|exact Hafter].
Defined.

(** Nothing is there and every command fails, the download too: the
    decompiler is reported as available. *)
Lemma the_decompiler_install_is_not_verified_witness :
  let this := Source2Viewer.new (str "linux") None None in
  let r := run bareViewer
               (Source2Viewer.ensureSource2ViewerExists
                  (λ s, s) (λ path, path) (str "linux") (str "x64") this) tt in
  Forall (λ ev, threw ev = false) (trace r) ∧
  length (failedCommands (trace r)) = 3%nat ∧
  outcome r = Returned true.
Proof.
  cbv zeta.
  assert (Forall (λ ev, threw ev = false)
            (trace (run bareViewer
                      (Source2Viewer.ensureSource2ViewerExists
                         (λ s, s) (λ path, path) (str "linux") (str "x64")
                         (Source2Viewer.new (str "linux") None None)) tt)))
    as Hnone by (vm_compute; repeat constructor).
  split_and!; [exact Hnone|vm_compute; reflexivity|].
  apply (the_decompiler_install_is_not_verified bareViewer (λ s, s)
           (λ path, path) (str "linux") (str "x64")
           (Source2Viewer.new (str "linux") None None) tt);
    [unfold supportedPlatforms; apply list_elem_of_further, list_elem_of_here
    |exact Hnone].
Defined.

(** The processing fails; the manifest is recorded all the same, and the
    next run finds nothing to do. *)
Lemma a_manifest_is_processed_at_most_once_witness :
  let failure : Error + Results.t :=
    inl (mkError (str "Failed to download VPK directory: Max attempts exceeded"))
  in
  let first := run (scriptedMain (str "42") failure) (main false) None in
  let second := run (scriptedMain (str "42") failure) (main false) first.2 in
  digits (str "42") ∧
  processings (trace first) = [(str "42", failure)] ∧
  first.2 = Some (str "42") ∧
  outcome second = Returned (Exited 0) ∧ processings (trace second) = [].
Proof.
  cbv zeta.
  assert (digits (str "42")) as Hdigits by (split; [discriminate|repeat constructor]).
  destruct (a_manifest_is_processed_at_most_once (str "42")
              (inl (mkError (str "Failed to download VPK directory: Max attempts exceeded")))
              (inl (mkError (str "Failed to download VPK directory: Max attempts exceeded")))
              None Hdigits) as (_ & Hexit & Hnone & _).
  split_and!; [exact Hdigits|vm_compute; reflexivity|vm_compute; reflexivity
              |exact Hexit|exact Hnone].
Defined.

(** A run of the scenario never hands its output directory to [rmSync]. *)
Lemma only_the_scratch_directory_is_removed_witness :
  let obs :=
    observe (trace (run (scripted goodScript)
                      (processVPKFiles scenarioProcessor 730 2347770 (str "1"))
                      [])) in
  StreamingVPKProcessor.outputDir scenarioProcessor
  ≠ StreamingVPKProcessor.tempVpkDir scenarioProcessor ∧
  (StreamingVPKProcessor.outputDir scenarioProcessor, true, true)
  ∉ removals obs.
Proof.
  cbv zeta.
  assert (StreamingVPKProcessor.outputDir scenarioProcessor
          ≠ StreamingVPKProcessor.tempVpkDir scenarioProcessor) as Hother
    by (vm_compute; discriminate).
  split; [exact Hother|].
  apply (only_the_scratch_directory_is_removed (scripted goodScript)
           scenarioProcessor 730 2347770 (str "1") []); exact Hother.
Defined.
